(** * DataTable.BodyView (src/datatable/js/body.js): a shallow embedding

    The view turns a column configuration and a list of Models into the
    markup of a [<tbody>].  The embedding follows the source method by
    method:

    - [_parseColumns]       flattens the nested column configuration,
    - [_createRowTemplate]  assigns every column its [_renderToken] and
                            builds the row template,
    - [_createRowHTML]      fills the template for one Model,
    - [_createDataHTML]     concatenates the rows,
    - [_applyNodeFormatters] runs the node formatters over the realised cells,
    - [bindUI] and [render] tie the passes together,
    - [initializer], [_afterColumnsChange] and [_afterDataChange] set the
      view up and redraw it,
    - [getCell] and [getRow] look up the realised cells and rows.

    Column configuration objects are mutated in place by the source
    ([col.index], [col._renderToken]); they therefore live in a store
    ([gmap ref column]) and arrays hold references, so that a configuration
    object listed twice is one object here as well.

    JavaScript strings are modelled by [string], numbers by [Z] (integers
    only), [undefined] by [JUndefined].  Property names are assumed not to
    be names inherited from [Object.prototype]. *)

From Stdlib Require Import Strings.Ascii.
From stdpp Require Import gmap strings list fin_maps pretty.

#[local] Set Warnings "-register-all,-clear-no-such-hyp".

(** ** JavaScript values *)

Inductive jsval :=
  | JUndefined
  | JNull
  | JBool (b : bool)
  | JNum (z : Z)
  | JStr (s : string)
  | JObject (repr : string).  (* an object; [repr] is what its toString() gives *)

Global Instance jsval_eq_dec : EqDecision jsval.
Proof. solve_decision. Defined.

(** ToBoolean *)
Definition truthy (v : jsval) : bool :=
  match v with
  | JUndefined | JNull => false
  | JBool b => b
  | JNum z => negb (z =? 0)%Z
  | JStr s => negb (String.eqb s "")
  | JObject _ => true
  end.

(** ToString *)
Definition ToString (v : jsval) : string :=
  match v with
  | JUndefined => "undefined"
  | JNull => "null"
  | JBool true => "true"
  | JBool false => "false"
  | JNum z => pretty z
  | JStr s => s
  | JObject repr => repr
  end.

(** [a || b] *)
Definition js_or (a b : jsval) : jsval := if truthy a then a else b.

(** A possibly absent string property ([None] is [undefined]). *)
Definition of_prop (p : option string) : jsval :=
  match p with Some s => JStr s | None => JUndefined end.

Definition prop_truthy (p : option string) : bool := truthy (of_prop p).

(** [a || b] on possibly absent string properties *)
Definition prop_or (a b : option string) : option string :=
  if prop_truthy a then a else b.

(** ['' + p], the property name a value denotes when used as a key *)
Definition prop_name (p : option string) : string := ToString (of_prop p).

(** [o[k]] on a plain object: a missing property reads as [undefined]. *)
Definition js_get (o : gmap string jsval) (k : string) : jsval :=
  default JUndefined (o !! k).

(** [Array.prototype.join] on an array of strings *)
Definition join (sep : string) (l : list string) : string := String.concat sep l.

(** ** Library helpers the view calls *)

(** Modelled from the spec: [Y.Lang.sub] ([fromTemplate]) is not under src/.
    The spec speaks of [{token}]-style placeholders that are substituted from
    an object.  The model scans the template once, left to right.  A
    placeholder opens at a brace, runs to the next closing brace and names
    a key: the text before the first [|], without surrounding white space.
    A brace directly followed by [}] or [|] opens nothing.  A placeholder
    whose key has no defined value in the object is left as it stands;
    substituted text is not scanned again. *)

Inductive segment :=
  | Chr (c : Ascii.ascii)                 (* literal character *)
  | Hole (key : string) (raw : string).  (* [{raw}], looked up under [key] *)

Fixpoint drop_space (s : string) : string :=
  match s with
  | String c s' => if Ascii.is_space c then drop_space s' else s
  | "" => ""
  end.

Definition trim (s : string) : string :=
  String.rev (drop_space (String.rev (drop_space s))).

Fixpoint before_bar (s : string) : string :=
  match s with
  | String c s' => if Ascii.eqb c "|"%char then "" else String c (before_bar s')
  | "" => ""
  end.

Fixpoint last_char (s : string) : string :=
  match s with
  | String c "" => String c ""
  | String _ s' => last_char s'
  | "" => ""
  end.

(** The key a placeholder body names. *)
Definition key_of (raw : string) : string :=
  let a := before_bar raw in
  match trim a with
  | "" => last_char a
  | k => k
  end.

Fixpoint chars (s : string) : list segment :=
  match s with
  | String c s' => Chr c :: chars s'
  | "" => []
  end.

(** [scan st s]: [st] is [Some buf] inside a placeholder whose body read so
    far is [buf], [None] outside. *)
Fixpoint scan (st : option string) (s : string) : list segment :=
  match s with
  | "" =>
      match st with
      | None => []
      | Some buf => Chr "{"%char :: chars buf
      end
  | String c s' =>
      match st with
      | None =>
          if Ascii.eqb c "{"%char then scan (Some "") s' else Chr c :: scan None s'
      | Some buf =>
          if String.eqb buf "" && (Ascii.eqb c "}"%char || Ascii.eqb c "|"%char)
          then Chr "{"%char :: Chr c :: scan None s'
          else if Ascii.eqb c "}"%char then Hole (key_of buf) buf :: scan None s'
          else scan (Some (buf +:+ String c "")) s'
      end
  end.

Definition fill (o : gmap string jsval) (g : segment) : string :=
  match g with
  | Chr c => String c ""
  | Hole k raw =>
      match js_get o k with
      | JUndefined => "{" +:+ raw +:+ "}"
      | v => ToString v
      end
  end.

Fixpoint fill_all (o : gmap string jsval) (gs : list segment) : string :=
  match gs with
  | [] => ""
  | g :: gs' => fill o g +:+ fill_all o gs'
  end.

Definition fromTemplate (s : string) (o : gmap string jsval) : string :=
  fill_all o (scan None s).

Definition hole_key (g : segment) : option string :=
  match g with Hole k _ => Some k | Chr _ => None end.

(** The keys a template looks up, in order of appearance. *)
Definition placeholders (s : string) : list string :=
  omap hole_key (scan None s).

(** Modelled from the spec: [Y.Escape.html] ([htmlEscape]) is not under src/.
    The spec asks that HTML-significant characters are escaped; the model
    replaces the ampersand, the angle brackets, both quotes, the slash and
    the backtick by their character references and first converts its
    argument to a string. *)
Definition dquote : Ascii.ascii := "034"%char.

Definition escape_char (c : Ascii.ascii) : string :=
  if Ascii.eqb c "&"%char then "&amp;"
  else if Ascii.eqb c "<"%char then "&lt;"
  else if Ascii.eqb c ">"%char then "&gt;"
  else if Ascii.eqb c dquote then "&quot;"
  else if Ascii.eqb c "'"%char then "&#x27;"
  else if Ascii.eqb c "/"%char then "&#x2F;"
  else if Ascii.eqb c "`"%char then "&#x60;"
  else String c "".

Fixpoint escape_string (s : string) : string :=
  match s with
  | String c s' => escape_char c +:+ escape_string s'
  | "" => ""
  end.

Definition htmlEscape (v : jsval) : string := escape_string (ToString v).


(** Modelled from the spec: [Y.ClassNameManager.getClassName] is not under
    src/.  The spec has it join its tokens with a prefix; the view always
    passes its own prefix first and asks for no further one, so the tokens
    are joined by a dash.  An [undefined] token joins as the empty string. *)
Definition _getClassName (args : list (option string)) : string :=
  join "-" (map (default "") args).



(** ** Data model *)

(** Column configuration objects are referred to by reference. *)
Definition ref := nat.

(** Modelled from the spec: [Y.Model] is not under src/.  The spec has a
    record expose an attribute map (key to value); [getAttrs] hands out a
    copy of it and [record.get(k)] reads it.  [Model_toString] is what
    toString() gives for the record. *)
Record Model := {
  getAttrs : gmap string jsval;
  Model_toString : string
}.

Definition Model_get (m : Model) (k : string) : jsval := js_get (getAttrs m) k.

(** The object a [formatter] is passed (lines 510-517). *)
Record formatterData := {
  fd_value : jsval;
  fd_data : gmap string jsval;
  fd_column : ref;
  fd_record : Model;
  fd_classnames : jsval;
  fd_rowindex : nat
}.

(** What a call of a formatter function leaves behind: the value it
    returned, the [value] and [classnames] properties of the object it was
    passed, and the attribute map that object shares with the row.  A
    formatter that throws, or that changes the column, the record or the
    view, is outside the model. *)
Record formatterResult := {
  returned : jsval;
  value_after : jsval;
  classnames_after : jsval;
  data_after : gmap string jsval
}.

(** [typeof col.formatter === 'string'] or a function *)
Inductive Formatter :=
  | TemplateFormatter (s : string)
  | FunctionFormatter (f : formatterData → formatterResult).

(** The realised [<tbody>]: [rows[i].cells[j]].  A cell records its markup
    and whether an element matching the liner query sits inside it. *)
Record td := {
  td_html : string;
  td_liner : bool
}.

Definition tbodyNode := list (list td).

(** Node instances are cached per element: the cell itself or its liner. *)
Inductive element :=
  | CellElement (row col : nat)
  | LinerElement (row col : nat).

Global Instance element_eq_dec : EqDecision element.
Proof. solve_decision. Defined.

(** The object a [nodeFormatter] is passed (lines 362-381). *)
Record nodeFormatterData := {
  nf_data : gmap string jsval;
  nf_record : Model;
  nf_rowindex : nat;
  nf_column : ref;
  nf_value : jsval;
  nf_td : element;
  nf_cell : element
}.

(** A node formatter works on the realised rows and returns a value.  It
    is taken not to create or destroy Node instances of cells itself. *)
Definition NodeFormatter : Type :=
  nodeFormatterData → tbodyNode → jsval * tbodyNode.

Record column := {
  key : option string;
  name : option string;
  _yuid : option string;
  formatter : option Formatter;
  nodeFormatter : option NodeFormatter;
  emptyCellValue : jsval;
  allowHTML : jsval;
  headers : option (list string);
  index : option nat;               (* assigned by _parseColumns *)
  _renderToken : option string      (* assigned by _createRowTemplate *)
}.

Definition set_index (i : nat) (c : column) : column :=
  {| key := key c; name := name c; _yuid := _yuid c;
     formatter := formatter c; nodeFormatter := nodeFormatter c;
     emptyCellValue := emptyCellValue c; allowHTML := allowHTML c;
     headers := headers c; index := Some i;
     _renderToken := _renderToken c |}.

Definition set_renderToken (t : option string) (c : column) : column :=
  {| key := key c; name := name c; _yuid := _yuid c;
     formatter := formatter c; nodeFormatter := nodeFormatter c;
     emptyCellValue := emptyCellValue c; allowHTML := allowHTML c;
     headers := headers c; index := index c;
     _renderToken := t |}.

(** [if (col.formatter)]: the empty template string is falsy. *)
Definition formatter_truthy (f : option Formatter) : bool :=
  match f with
  | None => false
  | Some (TemplateFormatter s) => negb (String.eqb s "")
  | Some (FunctionFormatter _) => true
  end.

(** The container Node: the markup last written by [setContent], the rows
    it realises, and the cache of Node instances. *)
Record tbody := {
  content : string;
  rows : tbodyNode;
  instances : list element
}.

Record eventHandles := {
  columnsChange : bool;
  dataChange : bool
}.

Record BodyView := {
  container : option tbody;
  modelList : option (list Model);
  source : bool;                    (* is [this.source] set *)
  columns : list ref;
  _cssPrefix : string;
  CLASS_ODD : string;
  CLASS_EVEN : string;
  _rowTemplate : option string;
  _eventHandles : eventHandles
}.

Definition q : string := String dquote "".

(** Lines 95 and 128-131. *)
Definition CELL_TEMPLATE : string :=
  "<td headers=" +:+ q +:+ "{headers}" +:+ q +:+ " class=" +:+ q
  +:+ "{classes}" +:+ q +:+ ">{content}</td>".

Definition ROW_TEMPLATE : string :=
  "<tr id=" +:+ q +:+ "{clientId}" +:+ q +:+ " class=" +:+ q
  +:+ "{rowClasses}" +:+ q +:+ ">" +:+ "{content}" +:+ "</tr>".

(** Lines 179-185: the prefix goes first, no further prefix is added. *)
Definition getClassName (this : BodyView) (tokens : list (option string)) : string :=
  _getClassName (Some (_cssPrefix this) :: tokens).

(** ** _createRowTemplate (lines 556-598) *)

(** Lines 566-575: the token of one column, and the counters after it. *)
Definition next_token (col : column) (tokens : gmap string nat)
  : option string * gmap string nat :=
  if prop_truthy (key col) then
    let k := prop_name (key col) in
    match tokens !! k with
    | Some (S n) => (Some (k +:+ pretty (S n)), <[k := S (S n)]> tokens)
    | _ => (Some k, <[k := 1]> tokens)
    end
  else (prop_or (name col) (_yuid col), tokens).

(** Lines 579-592: the cell markup of one column.  [col.headers.join]
    throws when the column has no [headers]. *)
Definition cell_html (this : BodyView) (col : column) (token : option string)
  : option string :=
  hs ← headers col;
  let tokenValues : gmap string jsval :=
    {[ "content" := JStr ("{" +:+ prop_name token +:+ "}");
       "headers" := JStr (join " " hs);
       "classes" := JStr (getClassName this [key col] +:+ " {"
                          +:+ prop_name token +:+ "-classes}") ]} in
  let tokenValues :=
    match nodeFormatter col with
    | Some _ => <["classes" := JStr ""]> (<["content" := JStr ""]> tokenValues)
    | None => tokenValues
    end in
  Some (fromTemplate CELL_TEMPLATE tokenValues).

(** The loop of lines 562-593.  [None] stands for a thrown TypeError. *)
Fixpoint _createRowTemplate_loop (this : BodyView) (cols : list ref)
    (h : gmap ref column) (tokens : gmap string nat) (html : string)
  : option (gmap ref column * string) :=
  match cols with
  | [] => Some (h, html)
  | r :: cols' =>
      col ← h !! r;
      let '(token, tokens') := next_token col tokens in
      let h' := <[r := set_renderToken token col]> h in
      cell ← cell_html this col token;
      _createRowTemplate_loop this cols' h' tokens' (html +:+ cell)
  end.

Definition set_rowTemplate (t : string) (this : BodyView) : BodyView :=
  {| container := container this; modelList := modelList this;
     source := source this; columns := columns this;
     _cssPrefix := _cssPrefix this; CLASS_ODD := CLASS_ODD this;
     CLASS_EVEN := CLASS_EVEN this; _rowTemplate := Some t;
     _eventHandles := _eventHandles this |}.

Definition _createRowTemplate (this : BodyView) (cols : list ref)
    (h : gmap ref column) : option (gmap ref column * BodyView) :=
  '(h', html) ← _createRowTemplate_loop this cols h ∅ "";
  Some (h', set_rowTemplate
              (fromTemplate ROW_TEMPLATE {[ "content" := JStr html ]}) this).

(** ** _createRowHTML (lines 491-543) *)

(** The formatter context as [fromTemplate] sees it: an object with six
    properties. *)
Definition formatterData_object (fd : formatterData) : gmap string jsval :=
  {[ "value" := fd_value fd;
     "data" := JObject "[object Object]";
     "column" := JObject "[object Object]";
     "record" := JObject (Model_toString (fd_record fd));
     "classnames" := fd_classnames fd;
     "rowindex" := JNum (Z.of_nat (fd_rowindex fd)) ]}.

(** [value === undefined || value === ''] *)
Definition is_empty_value (v : jsval) : bool :=
  match v with
  | JUndefined => true
  | JStr s => String.eqb s ""
  | _ => false
  end.

(** Lines 535-537. *)
Definition empty_fallback (col : column) (value : jsval) : jsval :=
  if is_empty_value value then js_or (emptyCellValue col) (JStr "") else value.

(** Line 539: what is stored under the token. *)
Definition escaped (col : column) (value : jsval) : jsval :=
  if truthy (allowHTML col) then value else JStr (htmlEscape value).

(** Line 505. *)
Definition row_token (col : column) : option string :=
  prop_or (prop_or (_renderToken col) (key col)) (_yuid col).

(** Lines 509-533: the value after the formatter step, the [values] object
    and the attribute map.  [token] is the property name of line 505. *)
Definition formatter_step (col : column) (r : ref) (model : Model) (index : nat)
    (token : string) (value : jsval)
    (values data : gmap string jsval)
  : jsval * gmap string jsval * gmap string jsval :=
  if formatter_truthy (formatter col) then
    let formatterData :=
      {| fd_value := value; fd_data := data; fd_column := r;
         fd_record := model; fd_classnames := JStr ""; fd_rowindex := index |} in
    match formatter col with
    | Some (TemplateFormatter s) =>
        (JStr (fromTemplate s (formatterData_object formatterData)), values, data)
    | Some (FunctionFormatter f) =>
        let res := f formatterData in
        let value := returned res in
        let value := match value with JUndefined => value_after res | _ => value end in
        (value, <[token +:+ "-classes" := classnames_after res]> values, data_after res)
    | None => (value, values, data)
    end
  else (value, values, data).

(** The body of the loop of lines 502-540 for the column [r]. *)
Definition _createRowHTML_col (h : gmap ref column) (model : Model) (index : nat)
    (r : ref) (values data : gmap string jsval)
  : option (gmap string jsval * gmap string jsval) :=
  col ← h !! r;
  let value := js_get data (prop_name (key col)) in
  let token := prop_name (row_token col) in
  let values := <[token +:+ "-classes" := JStr ""]> values in
  let '(value, values, data) :=
    formatter_step col r model index token value values data in
  let value := empty_fallback col value in
  Some (<[token := escaped col value]> values, data).

Fixpoint _createRowHTML_loop (h : gmap ref column) (model : Model) (index : nat)
    (cols : list ref) (values data : gmap string jsval)
  : option (gmap string jsval * gmap string jsval) :=
  match cols with
  | [] => Some (values, data)
  | r :: cols' =>
      '(values', data') ← _createRowHTML_col h model index r values data;
      _createRowHTML_loop h model index cols' values' data'
  end.

(** Line 500. *)
Definition row_class (this : BodyView) (index : nat) : string :=
  if negb (index mod 2 =? 0)%nat then CLASS_ODD this else CLASS_EVEN this.

(** The [values] object and the attribute map when the loop is left. *)
Definition _createRowHTML_values (this : BodyView) (h : gmap ref column)
    (model : Model) (index : nat)
  : option (gmap string jsval * gmap string jsval) :=
  let data := getAttrs model in
  let values : gmap string jsval := {[ "rowClasses" := JStr (row_class this index) ]} in
  _createRowHTML_loop h model index (columns this) values data.

(** [fromTemplate] of an unset [_rowTemplate] throws. *)
Definition _createRowHTML (this : BodyView) (h : gmap ref column)
    (model : Model) (index : nat) : option string :=
  '(values, _) ← _createRowHTML_values this h model index;
  t ← _rowTemplate this;
  Some (fromTemplate t values).

(** ** _createDataHTML (lines 446-457) *)

Fixpoint _createDataHTML_each (this : BodyView) (h : gmap ref column)
    (models : list Model) (index : nat) (html : string) : option string :=
  match models with
  | [] => Some html
  | model :: models' =>
      row ← _createRowHTML this h model index;
      _createDataHTML_each this h models' (S index) (html +:+ row)
  end.

Definition _createDataHTML (this : BodyView) (h : gmap ref column) : option string :=
  match modelList this with
  | Some data => _createDataHTML_each this h data 0 ""
  | None => Some ""
  end.

(** ** _parseColumns (lines 661-684) *)

(** A value that is tested for being an array. *)
Inductive jsarray (A : Type) :=
  | Falsy                   (* undefined, null and the like *)
  | NotArray                (* a truthy value that is no array *)
  | Array (l : list A).

Arguments Falsy {A}.
Arguments NotArray {A}.
Arguments Array {A} l.

(** An entry of a column configuration: a key given as a string, or a
    configuration object with what its [children] property holds. *)
Inductive colconf :=
  | ConfString (s : string)
  | ConfObject (r : ref) (children : jsarray colconf).

(** [{ key: col }] of line 671 *)
Definition new_column (k : string) : column :=
  {| key := Some k; name := None; _yuid := None;
     formatter := None; nodeFormatter := None;
     emptyCellValue := JUndefined; allowHTML := JUndefined;
     headers := None; index := None; _renderToken := None |}.

(** [col.key || col.formatter || col.nodeFormatter] of line 674 *)
Definition is_data_column (col : column) : bool :=
  prop_truthy (key col) || formatter_truthy (formatter col)
  || bool_decide (is_Some (nodeFormatter col)).

Section each.
Context {A S : Type} (f : A → S → option S).

(** A [for] loop over an array that threads a state and may throw. *)
Fixpoint each (l : list A) (s : S) : option S :=
  match l with
  | [] => Some s
  | a :: l' => s' ← f a s; each l' s'
  end.
End each.

(** Lines 675-676. *)
Definition push_column (r : ref) (col : column)
    (st : gmap ref column * list ref) : gmap ref column * list ref :=
  (<[r := set_index (List.length st.2) col]> st.1, st.2 ++ [r]).

(** Lines 668-679: one turn of the loop.  An object reference that
    names no object stands for an entry whose properties cannot be read. *)
Fixpoint _parseColumns_col (col : colconf) (st : gmap ref column * list ref)
  : option (gmap ref column * list ref) :=
  match col with
  | ConfString s =>
      let c := new_column s in
      if is_data_column c
      then Some (push_column (fresh (dom st.1)) c st)
      else Some st
  | ConfObject r children =>
      c ← st.1 !! r;
      if is_data_column c
      then Some (push_column r c st)
      else
        match children with
        | Array data => each _parseColumns_col data st
        | _ => Some st
        end
  end.

Definition _parseColumns (data : jsarray colconf) (columns : option (list ref))
    (h : gmap ref column) : option (gmap ref column * list ref) :=
  let columns := default [] columns in
  match data with
  | Array data => each _parseColumns_col data (h, columns)
  | _ => Some (h, columns)
  end.

(** ** _applyNodeFormatters (lines 345-398) *)

Definition set_rows (rs : tbodyNode) (t : tbody) : tbody :=
  {| content := content t; rows := rs; instances := instances t |}.

Definition set_instances (l : list element) (t : tbody) : tbody :=
  {| content := content t; rows := rows t; instances := l |}.

(** Modelled from the spec: [Y.one] is not under src/.  It hands out the
    Node instance of an element and keeps it in the cache of instances. *)
Definition Y_one (e : element) (t : tbody) : tbody :=
  if bool_decide (e ∈ instances t) then t
  else set_instances (e :: instances t) t.

(** Modelled from the spec: [Node.destroy(true)] is not under src/.  It
    releases the Node instances of the cell and of what is inside it; the
    element and its markup stay. *)
Definition destroy (row col : nat) (t : tbody) : tbody :=
  set_instances
    (filter (fun e => e ≠ CellElement row col ∧ e ≠ LinerElement row col)
            (instances t)) t.

(** Lines 354-358: the positions of the columns with a node formatter. *)
Fixpoint nodeFormatter_columns (h : gmap ref column) (cols : list ref) (i : nat)
  : option (list nat) :=
  match cols with
  | [] => Some []
  | r :: cols' =>
      col ← h !! r;
      rest ← nodeFormatter_columns h cols' (S i);
      Some (if bool_decide (is_Some (nodeFormatter col)) then i :: rest else rest)
  end.

(** Lines 373-393: one cell.  Rows and cells are addressed by position. *)
Definition _applyNodeFormatters_cell (h : gmap ref column) (cols : list ref)
    (record : Model) (index : nat) (data : gmap string jsval)
    (i : nat) (t : tbody) : option tbody :=
  match (rows t !! index) ≫= (.!! i) with
  | None => Some t
  | Some cell =>
      let t := Y_one (CellElement index i) t in
      r ← cols !! i;
      col ← h !! r;
      nf ← nodeFormatter col;
      let k := prop_or (key col) (_yuid col) in
      let liner :=
        if td_liner cell then LinerElement index i else CellElement index i in
      let t := Y_one liner t in
      let formatterData :=
        {| nf_data := data; nf_record := record; nf_rowindex := index;
           nf_column := r; nf_value := Model_get record (prop_name k);
           nf_td := CellElement index i; nf_cell := liner |} in
      let '(keep, rs) := nf formatterData (rows t) in
      let t := set_rows rs t in
      match keep with
      | JBool false => Some (destroy index i t)
      | _ => Some t
      end
  end.

(** Lines 361-396: one record. *)
Definition _applyNodeFormatters_row (h : gmap ref column) (cols : list ref)
    (formatters : list nat) (record : Model) (index : nat) (t : tbody)
  : option tbody :=
  match rows t !! index with
  | Some _ =>
      each (_applyNodeFormatters_cell h cols record index (getAttrs record))
           formatters t
  | None => Some t
  end.

Fixpoint _applyNodeFormatters_each (h : gmap ref column) (cols : list ref)
    (formatters : list nat) (records : list Model) (index : nat) (t : tbody)
  : option tbody :=
  match records with
  | [] => Some t
  | record :: records' =>
      t' ← _applyNodeFormatters_row h cols formatters record index t;
      _applyNodeFormatters_each h cols formatters records' (S index) t'
  end.

Definition _applyNodeFormatters (this : BodyView) (h : gmap ref column)
    (t : tbody) (cols : list ref) : option tbody :=
  formatters ← nodeFormatter_columns h cols 0;
  match modelList this, formatters with
  | Some data, _ :: _ => _applyNodeFormatters_each h cols formatters data 0 t
  | _, _ => Some t
  end.

(** ** bindUI (lines 406-421) and render (lines 282-299) *)

Definition set_eventHandles (e : eventHandles) (this : BodyView) : BodyView :=
  {| container := container this; modelList := modelList this;
     source := source this; columns := columns this;
     _cssPrefix := _cssPrefix this; CLASS_ODD := CLASS_ODD this;
     CLASS_EVEN := CLASS_EVEN this; _rowTemplate := _rowTemplate this;
     _eventHandles := e |}.

Definition set_columns (cols : list ref) (this : BodyView) : BodyView :=
  {| container := container this; modelList := modelList this;
     source := source this; columns := cols;
     _cssPrefix := _cssPrefix this; CLASS_ODD := CLASS_ODD this;
     CLASS_EVEN := CLASS_EVEN this; _rowTemplate := _rowTemplate this;
     _eventHandles := _eventHandles this |}.

Definition set_container (t : tbody) (this : BodyView) : BodyView :=
  {| container := Some t; modelList := modelList this;
     source := source this; columns := columns this;
     _cssPrefix := _cssPrefix this; CLASS_ODD := CLASS_ODD this;
     CLASS_EVEN := CLASS_EVEN this; _rowTemplate := _rowTemplate this;
     _eventHandles := _eventHandles this |}.

(** [data.after(...)] on a modelList that is not there throws. *)
Definition bindUI (this : BodyView) : option BodyView :=
  let handles := _eventHandles this in
  let handles :=
    if source this && negb (columnsChange handles)
    then {| columnsChange := true; dataChange := dataChange handles |}
    else handles in
  if negb (dataChange handles) then
    match modelList this with
    | Some _ =>
        Some (set_eventHandles
                {| columnsChange := columnsChange handles; dataChange := true |}
                this)
    | None => None
    end
  else Some (set_eventHandles handles this).

Section render.
(** What the browser makes of markup written into the container. *)
Variable realise : string → tbodyNode.

(** Modelled from the spec: [Node.setContent] is not under src/.  It
    replaces the prior content in one write. *)
Definition setContent (html : string) (t : tbody) : tbody :=
  {| content := html; rows := realise html; instances := [] |}.

Definition render (this : BodyView) (h : gmap ref column)
  : option (gmap ref column * BodyView) :=
  '(h, this) ← _createRowTemplate this (columns this) h;
  this ←
    match container this, modelList this with
    | Some t, Some _ =>
        html ← _createDataHTML this h;
        t' ← _applyNodeFormatters this h (setContent html t) (columns this);
        Some (set_container t' this)
    | _, _ => Some this
    end;
  this ← bindUI this;
  Some (h, this).
(** Lines 316-320 and 331-334: both changes redraw the whole body. *)
Definition _afterColumnsChange (newVal : jsarray colconf) (this : BodyView)
    (h : gmap ref column) : option (gmap ref column * BodyView) :=
  '(h, cols) ← _parseColumns newVal None h;
  render (set_columns cols this) h.

Definition _afterDataChange (this : BodyView) (h : gmap ref column)
  : option (gmap ref column * BodyView) :=
  render this h.
End render.

(** ** initializer (lines 633-647) *)

(** The configuration object: the attributes of the view and what the
    initializer reads itself.  [cfg_source] is [None] without a source and
    holds the [cssPrefix] of the source otherwise. *)
Record config := {
  cfg_container : option tbody;
  cfg_modelList : option (list Model);
  cfg_columns : jsarray colconf;
  cfg_cssPrefix : option string;
  cfg_source : option (option string)
}.

Definition initializer (config : config) (h : gmap ref column)
  : option (gmap ref column * BodyView) :=
  let cssPrefix :=
    prop_or (cfg_cssPrefix config) (default None (cfg_source config)) in
  '(h, cols) ← _parseColumns (cfg_columns config) None h;
  let prefix :=
    if prop_truthy cssPrefix then prop_name cssPrefix else "yui3-table" in
  Some (h,
        {| container := cfg_container config;
           modelList := cfg_modelList config;
           source := bool_decide (is_Some (cfg_source config));
           columns := cols;
           _cssPrefix := prefix;
           CLASS_ODD := _getClassName [Some prefix; Some "odd"];
           CLASS_EVEN := _getClassName [Some prefix; Some "even"];
           _rowTemplate := None;
           _eventHandles := {| columnsChange := false; dataChange := false |} |}).

(** ** getCell (lines 156-166) and getRow (lines 196-200) *)

(** [l[+i]] for a number [i]: a negative number names no entry. *)
Definition at_index {A : Type} (l : list A) (i : Z) : option A :=
  if (0 <=? i)%Z then l !! Z.to_nat i else None.

(** The arguments are numbers, as the doc comments have them.  The Node
    handed out is named by the element it wraps, [None] is [null]; the
    view is returned as well, for [Y.one] keeps the Node of the cell in the
    cache.  [Y.one] of [null] or [undefined] is [null]. *)
Definition getCell (this : BodyView) (row col : Z) : option element * BodyView :=
  match container this with
  | Some tbody =>
      match at_index (rows tbody) row ≫= (fun el => at_index el col) with
      | Some _ =>
          let e := CellElement (Z.to_nat row) (Z.to_nat col) in
          (Some e, set_container (Y_one e tbody) this)
      | None => (None, this)
      end
  | None => (None, this)
  end.

(** The Node of a row is named by the position of the row.  The cache the
    model keeps is that of the cells; the Node of a row is not in it. *)
Definition getRow (this : BodyView) (index : Z) : option nat :=
  tbody ← container this;
  _ ← at_index (rows tbody) index;
  Some (Z.to_nat index).

(** ** Definitions used to state the properties: strings *)

(** Does the character occur in the string? *)
Fixpoint occurs (c : Ascii.ascii) (s : string) : bool :=
  match s with
  | String d s' => Ascii.eqb c d || occurs c s'
  | "" => false
  end.

(** A placeholder body that names itself: not empty, no closing brace, no
    bar, no white space at either end. *)
Definition plain (s : string) : bool :=
  negb (String.eqb s "") && negb (occurs "}" s) && negb (occurs "|" s)
  && String.eqb (trim s) s.

(** What [fromTemplate] puts in place of a placeholder whose value is [v]. *)
Definition shown (raw : string) (v : jsval) : string :=
  match v with
  | JUndefined => "{" +:+ raw +:+ "}"
  | _ => ToString v
  end.

(** ** Definitions used to state the properties: the flattener *)

(** What the flattener is to return, in the words of the specification:
    the entries with a key, formatter or nodeFormatter, depth first; an
    entry without them is replaced by the leaves of its children, or
    dropped.  A leaf is a configuration object as given, or the object
    made for a key given as a string. *)
Inductive leaf :=
  | Made (s : string)
  | Given (r : ref).

Fixpoint leaves (h : gmap ref column) (e : colconf) : list leaf :=
  match e with
  | ConfString s => if is_data_column (new_column s) then [Made s] else []
  | ConfObject r children =>
      match h !! r with
      | Some c =>
          if is_data_column c then [Given r]
          else
            match children with
            | Array data => flat_map (leaves h) data
            | _ => []
            end
      | None => []
      end
  end.

Definition given (l : leaf) : option ref :=
  match l with Given r => Some r | Made _ => None end.

(** The references an entry holds, its own and those of its children. *)
Fixpoint conf_refs (e : colconf) : list ref :=
  match e with
  | ConfString _ => []
  | ConfObject r children =>
      r :: match children with
           | Array data => flat_map conf_refs data
           | _ => []
           end
  end.

(** Two objects that differ in their [index] at most. *)
Definition same_but_index (c col : column) : Prop :=
  set_index 0 c = set_index 0 col.

(** The column [r] of the result stands for the leaf: it is the object
    given, or an object that was not there before and is as line 671
    makes it. *)
Definition is_leaf (h h' : gmap ref column) (l : leaf) (r : ref) : Prop :=
  match l with
  | Given r0 => r = r0
  | Made s =>
      h !! r = None ∧ ∃ c, h' !! r = Some c ∧ same_but_index c (new_column s)
  end.

(** The store [h'] has every object of [h], changed in its index at most. *)
Definition extends (h h' : gmap ref column) : Prop :=
  ∀ r c, h !! r = Some c → ∃ c', h' !! r = Some c' ∧ same_but_index c' c.

(** Every column of the array holds its position as its index. *)
Definition indexed (h : gmap ref column) (cols : list ref) : Prop :=
  ∀ i r, cols !! i = Some r → index <$> h !! r = Some (Some i).

(** What a run of the flattener from the state [st] to the state [st']
    has done when it was to add the leaves [ls]. *)
Definition flattened (ls : list leaf)
    (st st' : gmap ref column * list ref) : Prop :=
  ∃ new,
    st'.2 = st.2 ++ new
    ∧ extends st.1 st'.1
    ∧ Forall2 (is_leaf st.1 st'.1) ls new
    ∧ (NoDup st'.2 → indexed st.1 st.2 → indexed st'.1 st'.2)
    ∧ (NoDup (omap given ls) →
       Forall (fun r => is_Some (st.1 !! r)) (omap given ls) →
       NoDup new).

(** Every column of the array holds as its index the position at which it
    occurs last. *)
Definition indexed_last (h : gmap ref column) (cols : list ref) : Prop :=
  ∀ i r, cols !! i = Some r → r ∉ drop (S i) cols →
    index <$> h !! r = Some (Some i).

(** Every column of the array is an object with something to show. *)
Definition data_columns (h : gmap ref column) (cols : list ref) : Prop :=
  Forall (fun r => ∃ c, h !! r = Some c ∧ is_data_column c = true) cols.

(** What the flattener keeps true of the columns it has gathered. *)
Definition gathered (st : gmap ref column * list ref) : Prop :=
  indexed_last st.1 st.2 ∧ data_columns st.1 st.2.

(** A configuration that lists the column objects of an array one by one,
    whatever their [children] are. *)
Definition lists (confs : list colconf) (cols : list ref) : Prop :=
  Forall2 (fun e r => ∃ children, e = ConfObject r children) confs cols.

(** The one that lists them without children. *)
Definition flat_config (cols : list ref) : list colconf :=
  (fun r => ConfObject r Falsy) <$> cols.

(** ** Definitions used to state the properties: the row template *)

(** The [_renderToken]s the store holds for an array of columns. *)
Definition renderTokens (h : gmap ref column) (cols : list ref)
  : list (option (option string)) :=
  map (fun r => _renderToken <$> h !! r) cols.

(** Lines 566-575 for a whole array of columns: the tokens in order. *)
Fixpoint assigned_tokens (cols : list column) (tokens : gmap string nat)
  : list (option string) :=
  match cols with
  | [] => []
  | col :: cols' =>
      let '(token, tokens') := next_token col tokens in
      token :: assigned_tokens cols' tokens'
  end.




(** The placeholders the cell of a column brings into the row template. *)
Definition holes_of_column (col : column) (token : option string) : list string :=
  match nodeFormatter col with
  | Some _ => []
  | None => [prop_name token +:+ "-classes"; prop_name token]
  end.

(** The markup of a cell whose column has a node formatter. *)
Definition deferred_cell (hs : list string) : string :=
  "<td headers=" +:+ q +:+ join " " hs +:+ q +:+ " class=" +:+ q +:+ q
  +:+ "></td>".

(** A column whose cell markup reads as intended: it has headers, no
    opening brace in the headers or in the class name, and placeholder
    bodies that name themselves. *)
Definition plain_column (this : BodyView) (col : column) (token : option string)
  : bool :=
  match headers col with
  | None => false
  | Some hs =>
      negb (occurs "{" (join " " hs))
      && match nodeFormatter col with
         | Some _ => true
         | None =>
             negb (occurs "{" (getClassName this [key col]))
             && plain (prop_name token)
             && plain (prop_name token +:+ "-classes")
         end
  end.

(** The cells of lines 579-592 for columns and tokens given as values. *)
Fixpoint cells_html (this : BodyView) (cols : list column)
    (tokens : list (option string)) : option string :=
  match cols, tokens with
  | col :: cols', t :: tokens' =>
      cell ← cell_html this col t;
      rest ← cells_html this cols' tokens';
      Some (cell +:+ rest)
  | _, _ => Some ""
  end.

(** Two objects that differ in their [_renderToken] at most. *)
Definition same_config (c col : column) : Prop :=
  set_renderToken None c = set_renderToken None col.

(** The segments of the cell of a column in the row template. *)
Definition cell_segments (this : BodyView) (col : column)
    (token : option string) : list segment :=
  match nodeFormatter col with
  | Some _ => chars (deferred_cell (default [] (headers col)))
  | None =>
      chars ("<td headers=" +:+ q +:+ join " " (default [] (headers col))
             +:+ q +:+ " class=" +:+ q +:+ getClassName this [key col] +:+ " ")
      ++ Hole (prop_name token +:+ "-classes") (prop_name token +:+ "-classes")
      :: chars (q +:+ ">")
      ++ Hole (prop_name token) (prop_name token)
      :: chars "</td>"
  end.

(** A column whose [headers] can be joined, and one for which
    [col.headers.join] throws: the object is missing or has no [headers]. *)
Definition has_headers (h : gmap ref column) (r : ref) : Prop :=
  ∃ col, h !! r = Some col ∧ is_Some (headers col).

Definition lacks_headers (h : gmap ref column) (r : ref) : Prop :=
  ∀ col, h !! r = Some col → headers col = None.






(** ** Definitions used to state the properties: the rows *)


(** The object a formatter of the column [r] is passed for a row. *)
Definition context_of (col : column) (r : ref) (model : Model) (index : nat)
    (data : gmap string jsval) : formatterData :=
  {| fd_value := js_get data (prop_name (key col)); fd_data := data;
     fd_column := r; fd_record := model; fd_classnames := JStr "";
     fd_rowindex := index |}.

(** What lines 524-529 take for the value of a function formatter. *)
Definition value_of_call (res : formatterResult) : jsval :=
  match returned res with
  | JUndefined => value_after res
  | v => v
  end.

(** One column of one row as values: the classes and the content bound
    for the cell, and the attribute map afterwards (lines 503-539). *)
Definition cell_result (col : column) (r : ref) (model : Model) (index : nat)
    (data : gmap string jsval) : jsval * jsval * gmap string jsval :=
  let token := prop_name (row_token col) in
  let st := formatter_step col r model index token
              (js_get data (prop_name (key col)))
              {[ token +:+ "-classes" := JStr "" ]} data in
  (js_get st.1.2 (token +:+ "-classes"),
   escaped col (empty_fallback col st.1.1),
   st.2).

(** The classes and contents of the cells of a row, left to right. *)
Fixpoint row_results (h : gmap ref column) (model : Model) (index : nat)
    (cols : list ref) (data : gmap string jsval) : option (list (jsval * jsval)) :=
  match cols with
  | [] => Some []
  | r :: cols' =>
      col ← h !! r;
      let res := cell_result col r model index data in
      rest ← row_results h model index cols' res.2;
      Some (res.1 :: rest)
  end.

(** The name under which line 505 binds the cell of a column that holds
    the token [t]. *)
Definition bound_name (col : column) (t : option string) : string :=
  prop_name (row_token (set_renderToken t col)).

(** The names under which the cells of the columns are bound. *)
Fixpoint bound_names (tokens : list string) : list string :=
  match tokens with
  | [] => []
  | t :: tokens' => (t +:+ "-classes") :: t :: bound_names tokens'
  end.

(** The markup of a cell with its classes and content filled in. *)
Definition cell_markup (this : BodyView) (col : column) (token : option string)
    (classes content : jsval) : string :=
  match nodeFormatter col with
  | Some _ => deferred_cell (default [] (headers col))
  | None =>
      "<td headers=" +:+ q +:+ join " " (default [] (headers col)) +:+ q
      +:+ " class=" +:+ q +:+ getClassName this [key col] +:+ " "
      +:+ shown (prop_name token +:+ "-classes") classes +:+ q +:+ ">"
      +:+ shown (prop_name token) content +:+ "</td>"
  end.

Fixpoint cells_markup (this : BodyView) (cols : list column)
    (tokens : list (option string)) (results : list (jsval * jsval)) : string :=
  match cols, tokens, results with
  | col :: cols', t :: tokens', (classes, content) :: results' =>
      cell_markup this col t classes content
      +:+ cells_markup this cols' tokens' results'
  | _, _, _ => ""
  end.

(** The markup of a row: the identity placeholder is left as it stands. *)
Definition row_markup (this : BodyView) (index : nat) (cells : string) : string :=
  "<tr id=" +:+ q +:+ "{clientId}" +:+ q +:+ " class=" +:+ q
  +:+ row_class this index +:+ q +:+ ">" +:+ cells +:+ "</tr>".

(** ** Definitions used to state the properties: node formatters and the
    class prefix *)

(** Every node formatter among the columns returns false, whatever it is
    handed. *)
Definition returns_false (h : gmap ref column) (cols : list ref) : Prop :=
  ∀ r col nf o rs,
    r ∈ cols → h !! r = Some col → nodeFormatter col = Some nf →
    (nf o rs).1 = JBool false.

(** The prefix of the class names in the words of the doc comment of the
    initializer: the [cssPrefix] of the configuration, else that of the
    source, else the one of the prototype; an empty string counts as not
    given. *)
Definition chosen_prefix (config : config) : string :=
  match cfg_cssPrefix config, cfg_source config with
  | Some (String c p), _ => String c p
  | _, Some (Some (String c p)) => String c p
  | _, _ => "yui3-table"
  end.

(** The element is the cell at a position, or the liner in it. *)
Definition of_cell (e : element) (index i : nat) : Prop :=
  e = CellElement index i ∨ e = LinerElement index i.

(** The position is that of a column with a node formatter. *)
Definition nodeFormatter_at (h : gmap ref column) (cols : list ref) (i : nat)
  : Prop :=
  ∃ r col, cols !! i = Some r ∧ h !! r = Some col ∧ is_Some (nodeFormatter col).

(** ** Columns, records and views of the examples *)

(** A view as the initializer leaves it for the default prefix. *)
Definition a_view (cols : list ref) (data : option (list Model)) : BodyView :=
  {| container := None; modelList := data; source := false; columns := cols;
     _cssPrefix := "yui3-table";
     CLASS_ODD := "yui3-table-odd"; CLASS_EVEN := "yui3-table-even";
     _rowTemplate := None;
     _eventHandles := {| columnsChange := false; dataChange := false |} |}.

(** A column with a key and an empty list of headers. *)
Definition key_column (k : string) : column :=
  {| key := Some k; name := None; _yuid := None;
     formatter := None; nodeFormatter := None;
     emptyCellValue := JUndefined; allowHTML := JUndefined;
     headers := Some []; index := None; _renderToken := None |}.

Definition a_model (attrs : gmap string jsval) : Model :=
  {| getAttrs := attrs; Model_toString := "model[model_1]" |}.


(** A column with a key whose formatter is the function [f]. *)
Definition formatter_column (k : string) (f : formatterData → formatterResult)
  : column :=
  {| key := Some k; name := None; _yuid := None;
     formatter := Some (FunctionFormatter f); nodeFormatter := None;
     emptyCellValue := JUndefined; allowHTML := JUndefined;
     headers := Some []; index := None; _renderToken := None |}.


(** [function (o) { o.data.rowClasses = 'custom'; }] *)
Definition custom_row (o : formatterData) : formatterResult :=
  {| returned := JUndefined; value_after := fd_value o;
     classnames_after := fd_classnames o;
     data_after := <["rowClasses" := JStr "custom"]> (fd_data o) |}.


Definition idle_nodeFormatter : NodeFormatter := fun _ rs => (JUndefined, rs).


(** A column with a key whose node formatter is [nf]. *)
Definition nodeFormatter_column (k : string) (nf : NodeFormatter) : column :=
  {| key := Some k; name := None; _yuid := None;
     formatter := None; nodeFormatter := Some nf;
     emptyCellValue := JUndefined; allowHTML := JUndefined;
     headers := Some []; index := None; _renderToken := None |}.

(** A column with a key and a node formatter. *)
Definition deferred_column : column :=
  {| key := Some "a"; name := None; _yuid := None;
     formatter := None; nodeFormatter := Some idle_nodeFormatter;
     emptyCellValue := JUndefined; allowHTML := JUndefined;
     headers := Some []; index := None; _renderToken := None |}.

(** A node formatter that writes the value into the one cell of the one
    row and returns [keep]. *)
Definition writing (keep : jsval) : NodeFormatter :=
  fun o _ => (keep, [[ {| td_html := ToString (nf_value o); td_liner := false |} ]]).

Definition a_tbody : tbody :=
  {| content := ""; rows := [[ {| td_html := ""; td_liner := false |} ]];
     instances := [] |}.

Definition a_container : tbody :=
  {| content := ""; rows := []; instances := [] |}.

Definition with_container (this : BodyView) : BodyView :=
  set_container a_container this.

(** A browser that makes one row with one empty cell of any markup. *)
Definition one_cell (html : string) : tbodyNode :=
  [[ {| td_html := ""; td_liner := false |} ]].

(** Three columns with the keys x, x and x1. *)
Definition x_x_x1 : gmap ref column :=
  {[ 0 := key_column "x"; 1 := key_column "x"; 2 := key_column "x1" ]}.

(** One configuration object with a key, listed twice. *)
Definition listed_twice : list colconf :=
  [ConfObject 0 Falsy; ConfObject 0 Falsy].

Definition no_key_column : column :=
  {| key := None; name := None; _yuid := None;
     formatter := None; nodeFormatter := None;
     emptyCellValue := JUndefined; allowHTML := JUndefined;
     headers := Some []; index := None; _renderToken := None |}.

(** A nested configuration: a key given as a string, a parent with two
    children, an object with nothing to show, and the empty string. *)
Definition nested_data : list colconf :=
  [ConfString "a";
   ConfObject 0 (Array [ConfString "b"; ConfObject 1 Falsy]);
   ConfObject 2 Falsy;
   ConfString ""].

Definition nested_store : gmap ref column :=
  {[ 0 := no_key_column; 1 := key_column "c"; 2 := no_key_column ]}.

(** The columns and records of the first scenario of the specification. *)
Definition age_column : column :=
  {| key := Some "age"; name := None; _yuid := None;
     formatter := None; nodeFormatter := None;
     emptyCellValue := JStr "N/A"; allowHTML := JUndefined;
     headers := Some []; index := None; _renderToken := None |}.

Definition name_age : gmap ref column :=
  {[ 0 := key_column "name"; 1 := age_column ]}.

Definition Ann : Model :=
  a_model {[ "name" := JStr "Ann"; "age" := JNum 30 ]}.

Definition Bo : Model :=
  a_model {[ "name" := JStr "Bo"; "age" := JUndefined ]}.
(** A parent with two children handed to the constructor, with a
    container and one record. *)
Definition parent_store : gmap ref column :=
  {[ 0 := no_key_column; 1 := key_column "a"; 2 := key_column "b" ]}.

Definition parent_config : config :=
  {| cfg_container := Some a_container;
     cfg_modelList := Some [a_model {[ "a" := JStr "1"; "b" := JStr "2" ]}];
     cfg_columns := Array [ConfObject 0 (Array [ConfObject 1 Falsy;
                                                ConfObject 2 Falsy])];
     cfg_cssPrefix := None;
     cfg_source := None |}.

(** One column given by its key alone. *)
Definition string_config : config :=
  {| cfg_container := Some a_container;
     cfg_modelList := Some [a_model {[ "a" := JStr "1" ]}];
     cfg_columns := Array [ConfString "a"];
     cfg_cssPrefix := None;
     cfg_source := None |}.

(** [function (o) { o.data.b = 'changed'; }] *)
Definition overwriting (o : formatterData) : formatterResult :=
  {| returned := JUndefined; value_after := fd_value o;
     classnames_after := fd_classnames o;
     data_after := <["b" := JStr "changed"]> (fd_data o) |}.

Definition overwriting_store : gmap ref column :=
  {[ 0 := formatter_column "a" overwriting; 1 := key_column "b" ]}.

(** The columns with the keys x and x1 as they are when both hold the
    token x1. *)
Definition clashing_store : gmap ref column :=
  {[ 0 := set_renderToken (Some "x1") (key_column "x");
     1 := set_renderToken (Some "x1") (key_column "x1") ]}.

(** * Properties *)

(** ** Plain facts about the JavaScript values *)

Lemma is_empty_value_spec v :
  is_empty_value v = true ↔ v = JUndefined ∨ v = JStr "".
Proof.
  destruct v as [| |b|z|s|o]; simpl; try (split; [done | intros [?|?]; done]).
  - split; auto.
  - destruct s; simpl; split; try done; auto.
    intros [?|?]; done.
Qed.

Lemma token_ne_classes (t : string) : t ≠ t +:+ "-classes".
Proof.
  induction t as [|c t IH]; [done|].
  intros [= H]. by apply IH.
Qed.

(** ** Strings, segments and templates *)

#[local] Arguments Ascii.eqb : simpl never.
#[local] Arguments String.eqb : simpl never.

Lemma string_app_nil_r s : s +:+ "" = s.
Proof. induction s as [|c s IH]; [done|]. by rewrite <-IH at 2. Qed.

Lemma string_app_cons c a b : String c a +:+ b = String c (a +:+ b).
Proof. done. Qed.

Lemma string_app_assoc a b c : (a +:+ b) +:+ c = a +:+ b +:+ c.
Proof.
  induction a as [|x a IH]; [done|].
  by rewrite !string_app_cons, IH.
Qed.

Lemma occurs_app c s1 s2 : occurs c (s1 +:+ s2) = occurs c s1 || occurs c s2.
Proof.
  induction s1 as [|d s1 IH]; [done|].
  change (String d s1 +:+ s2) with (String d (s1 +:+ s2)). simpl.
  by rewrite IH, orb_assoc.
Qed.

Lemma chars_app a b : chars (a +:+ b) = chars a ++ chars b.
Proof.
  induction a as [|x a IH]; [done|].
  rewrite string_app_cons. simpl. by rewrite IH.
Qed.

Lemma fill_all_app o l1 l2 :
  fill_all o (l1 ++ l2) = fill_all o l1 +:+ fill_all o l2.
Proof.
  induction l1 as [|g l1 IH]; [done|].
  simpl. by rewrite IH, string_app_assoc.
Qed.

Lemma fill_all_chars o s : fill_all o (chars s) = s.
Proof. induction s as [|c s IH]; [done|]. simpl. by rewrite IH. Qed.

Lemma fill_all_hole o k raw l v :
  js_get o k = v → v ≠ JUndefined →
  fill_all o (Hole k raw :: l) = ToString v +:+ fill_all o l.
Proof. intros Hk Hv. simpl. rewrite Hk. by destruct v. Qed.

Lemma fill_all_hole_undefined o k raw l :
  js_get o k = JUndefined →
  fill_all o (Hole k raw :: l) = ("{" +:+ raw +:+ "}") +:+ fill_all o l.
Proof. intros Hk. simpl. by rewrite Hk. Qed.

Lemma fill_shown o k raw : fill o (Hole k raw) = shown raw (js_get o k).
Proof. simpl. unfold shown. by destruct (js_get o k). Qed.



Lemma holes_chars s : omap hole_key (chars s) = [].
Proof. induction s; [done|]. simpl. done. Qed.

Lemma scan_literal s rest :
  occurs "{" s = false → scan None (s +:+ rest) = chars s ++ scan None rest.
Proof.
  induction s as [|c s IH]; [done|].
  simpl. intros [Hc Hs]%orb_false_elim.
  rewrite Ascii.eqb_sym, Hc. by rewrite IH.
Qed.

Lemma scan_inside buf body rest :
  occurs "}" body = false →
  buf +:+ body ≠ "" →
  (buf = "" → ∀ body', body ≠ String "|" body') →
  scan (Some buf) (body +:+ String "}" rest)
  = Hole (key_of (buf +:+ body)) (buf +:+ body) :: scan None rest.
Proof.
  revert buf. induction body as [|c body IH]; intros buf Hclose Hne Hbar.
  - rewrite string_app_nil_r in *. simpl.
    destruct (String.eqb_spec buf ""); [done|]. done.
  - simpl in Hclose. apply orb_false_elim in Hclose as [Hc Hclose].
    simpl. rewrite (Ascii.eqb_sym c), Hc. simpl.
    assert (String.eqb buf "" && Ascii.eqb c "|" = false) as ->.
    { destruct (String.eqb_spec buf "") as [->|]; [|done]. simpl.
      apply Ascii.eqb_neq. intros ->. by eapply Hbar. }
    rewrite IH; [|done| |].
    + by rewrite string_app_assoc.
    + rewrite string_app_assoc. simpl. by destruct buf.
    + intros Hbuf. by destruct buf.
Qed.

Lemma scan_hole body rest :
  occurs "}" body = false →
  body ≠ "" →
  (∀ body', body ≠ String "|" body') →
  scan None (String "{" (body +:+ String "}" rest))
  = Hole (key_of body) body :: scan None rest.
Proof.
  intros Hclose Hne Hbar. simpl. by rewrite scan_inside.
Qed.

Lemma before_bar_id s : occurs "|" s = false → before_bar s = s.
Proof.
  induction s as [|c s IH]; [done|]. simpl.
  intros [Hc Hs]%orb_false_elim. rewrite Ascii.eqb_sym, Hc. by rewrite IH.
Qed.

Lemma key_of_plain s : plain s = true → key_of s = s.
Proof.
  unfold plain. intros Hs.
  apply andb_prop in Hs as [Hs Htrim]. apply andb_prop in Hs as [Hs Hbar].
  apply andb_prop in Hs as [Hne Hclose].
  apply negb_true_iff in Hbar, Hne.
  apply String.eqb_eq in Htrim. apply String.eqb_neq in Hne.
  unfold key_of. rewrite before_bar_id, Htrim by done.
  by destruct s.
Qed.

Lemma scan_plain body rest :
  plain body = true →
  scan None (String "{" (body +:+ String "}" rest))
  = Hole body body :: scan None rest.
Proof.
  intros Hs. rewrite <-(key_of_plain body Hs) at 2.
  unfold plain in Hs.
  apply andb_prop in Hs as [Hs Htrim]. apply andb_prop in Hs as [Hs Hbar].
  apply andb_prop in Hs as [Hne Hclose].
  apply negb_true_iff in Hbar, Hne, Hclose. apply String.eqb_neq in Hne.
  apply scan_hole; [done..|].
  intros body' ->. cbn in Hbar. done.
Qed.

Lemma scan_CELL_TEMPLATE :
  scan None CELL_TEMPLATE
  = chars ("<td headers=" +:+ q) ++ Hole "headers" "headers"
    :: chars (q +:+ " class=" +:+ q) ++ Hole "classes" "classes"
    :: chars (q +:+ ">") ++ Hole "content" "content" :: chars "</td>".
Proof. reflexivity. Qed.

Lemma scan_ROW_TEMPLATE :
  scan None ROW_TEMPLATE
  = chars ("<tr id=" +:+ q) ++ Hole "clientId" "clientId"
    :: chars (q +:+ " class=" +:+ q) ++ Hole "rowClasses" "rowClasses"
    :: chars (q +:+ ">") ++ Hole "content" "content" :: chars "</tr>".
Proof. reflexivity. Qed.

Lemma fromTemplate_CELL_TEMPLATE (o : gmap string jsval) hs cs ct :
  o !! "headers" = Some (JStr hs) →
  o !! "classes" = Some (JStr cs) →
  o !! "content" = Some (JStr ct) →
  fromTemplate CELL_TEMPLATE o
  = "<td headers=" +:+ q +:+ hs +:+ q +:+ " class=" +:+ q +:+ cs +:+ q
    +:+ ">" +:+ ct +:+ "</td>".
Proof.
  intros Hh Hc Ht. unfold fromTemplate. rewrite scan_CELL_TEMPLATE.
  rewrite !fill_all_app, fill_all_chars.
  rewrite (fill_all_hole o _ _ _ (JStr hs)); [|by unfold js_get; rewrite Hh|done].
  rewrite !fill_all_app, fill_all_chars.
  rewrite (fill_all_hole o _ _ _ (JStr cs)); [|by unfold js_get; rewrite Hc|done].
  rewrite !fill_all_app, fill_all_chars.
  rewrite (fill_all_hole o _ _ _ (JStr ct)); [|by unfold js_get; rewrite Ht|done].
  rewrite fill_all_chars. simpl ToString.
  by rewrite !string_app_assoc.
Qed.

Lemma fromTemplate_ROW_TEMPLATE html :
  fromTemplate ROW_TEMPLATE {[ "content" := JStr html ]}
  = "<tr id=" +:+ q +:+ "{clientId}" +:+ q +:+ " class=" +:+ q
    +:+ "{rowClasses}" +:+ q +:+ ">" +:+ html +:+ "</tr>".
Proof.
  unfold fromTemplate. rewrite scan_ROW_TEMPLATE.
  rewrite !fill_all_app, fill_all_chars.
  rewrite fill_all_hole_undefined by done.
  rewrite !fill_all_app, fill_all_chars.
  rewrite fill_all_hole_undefined by done.
  rewrite !fill_all_app, fill_all_chars.
  rewrite (fill_all_hole _ _ _ _ (JStr html)); [|done..].
  rewrite fill_all_chars. simpl ToString.
  by rewrite !string_app_assoc.
Qed.

(** ** Escaping *)



(** ** The flattener: _parseColumns *)

Lemma colconf_nested_ind (P : colconf → Prop) :
  (∀ s, P (ConfString s)) →
  (∀ r, P (ConfObject r Falsy)) →
  (∀ r, P (ConfObject r NotArray)) →
  (∀ r data, Forall P data → P (ConfObject r (Array data))) →
  ∀ e, P e.
Proof.
  intros Hs Hf Hn Ha. fix IH 1. intros [s|r [| |data]].
  - apply Hs.
  - apply Hf.
  - apply Hn.
  - apply Ha. induction data as [|e data IHd]; constructor;
      [apply IH | apply IHd].
Qed.

Lemma same_but_index_refl c : same_but_index c c.
Proof. done. Qed.

Lemma same_but_index_trans c1 c2 c3 :
  same_but_index c1 c2 → same_but_index c2 c3 → same_but_index c1 c3.
Proof. unfold same_but_index. congruence. Qed.

Lemma same_but_index_set_index i c : same_but_index (set_index i c) c.
Proof. done. Qed.

Lemma same_but_index_is_data_column c col :
  same_but_index c col → is_data_column c = is_data_column col.
Proof.
  intros H. unfold is_data_column.
  pose proof (f_equal key H) as Hk. pose proof (f_equal formatter H) as Hf.
  pose proof (f_equal nodeFormatter H) as Hn. simpl in *.
  by rewrite Hk, Hf, Hn.
Qed.

Lemma extends_refl h : extends h h.
Proof. intros r c Hr. eauto using same_but_index_refl. Qed.

Lemma extends_trans h1 h2 h3 : extends h1 h2 → extends h2 h3 → extends h1 h3.
Proof.
  intros H12 H23 r c Hr.
  destruct (H12 r c Hr) as (c2 & Hr2 & Hc2).
  destruct (H23 r c2 Hr2) as (c3 & Hr3 & Hc3).
  eauto using same_but_index_trans.
Qed.

Lemma extends_is_Some h h' r : extends h h' → is_Some (h !! r) → is_Some (h' !! r).
Proof. intros Hext [c Hr]. destruct (Hext r c Hr) as (c' & -> & _). by eexists. Qed.

Lemma extends_None h h' r : extends h h' → h' !! r = None → h !! r = None.
Proof.
  intros Hext Hr. destruct (h !! r) as [c|] eqn:E; [|done].
  destruct (Hext r c E) as (c' & Hr' & _). congruence.
Qed.

Lemma extends_insert h r c i :
  (∀ c0, h !! r = Some c0 → same_but_index c c0) →
  extends h (<[r := set_index i c]> h).
Proof.
  intros Hc r' c' Hr'. destruct (decide (r' = r)) as [->|Hne].
  - rewrite lookup_insert_eq. eexists. split; [done|].
    eapply same_but_index_trans; [apply same_but_index_set_index|]. auto.
  - rewrite lookup_insert_ne by done. eauto using same_but_index_refl.
Qed.

Lemma flattened_nil st : flattened [] st st.
Proof.
  exists []. split; [by rewrite app_nil_r|]. split; [apply extends_refl|].
  split; [constructor|]. split; [done|]. intros _ _. constructor.
Qed.

Lemma indexed_push h cols r c :
  NoDup (cols ++ [r]) →
  indexed h cols →
  indexed (<[r := set_index (List.length cols) c]> h) (cols ++ [r]).
Proof.
  intros Hnd Hind i r' Hi.
  apply NoDup_app in Hnd as (_ & Hdisj & _).
  destruct (decide (i < List.length cols)) as [Hlt|Hge].
  - rewrite lookup_app_l in Hi by done.
    assert (r' ≠ r).
    { intros ->. eapply Hdisj; [by eapply list_elem_of_lookup_2|]. left. }
    rewrite lookup_insert_ne by done. by apply Hind.
  - rewrite lookup_app_r in Hi by lia.
    destruct (i - List.length cols) as [|n] eqn:E; [|done].
    injection Hi as <-. rewrite lookup_insert_eq. simpl.
    do 2 f_equal. lia.
Qed.

(** Lines 675-676 for a leaf: the column is appended under its position. *)
Lemma flattened_push l r c st :
  (∀ c0, st.1 !! r = Some c0 → same_but_index c c0) →
  is_leaf st.1 (<[r := set_index (List.length st.2) c]> st.1) l r →
  flattened [l] st (push_column r c st).
Proof.
  intros Hc Hleaf. destruct st as [h cols]. simpl in *.
  exists [r]. split; [done|]. split; [by apply extends_insert|].
  split; [by repeat constructor|]. split.
  - intros Hnd Hind. by apply indexed_push.
  - intros _ _. apply NoDup_singleton.
Qed.

Lemma is_leaf_weaken h1 h2 h3 h4 l r :
  extends h1 h2 → extends h3 h4 →
  is_leaf h2 h3 l r → is_leaf h1 h4 l r.
Proof.
  intros H12 H34. destruct l as [s|r0]; [|done].
  intros (Hnone & c & Hr & Hc). split; [by eapply extends_None|].
  destruct (H34 r c Hr) as (c' & Hr' & Hc').
  eauto using same_but_index_trans.
Qed.

Lemma is_leaf_elem_of h h' ls new x :
  Forall2 (is_leaf h h') ls new →
  x ∈ new →
  x ∈ omap given ls ∨ (h !! x = None ∧ is_Some (h' !! x)).
Proof.
  induction 1 as [|l r ls new Hl Hall IH]; [by intros ?%elem_of_nil|].
  intros [->|Hin]%elem_of_cons.
  - destruct l as [s|r0]; simpl in *.
    + right. destruct Hl as (Hnone & c & Hr & _). split; [done|by eexists].
    + left. subst. left.
  - destruct (IH Hin) as [Hg|Hm]; [|by right].
    left. destruct l; simpl; [done|by right].
Qed.

Lemma flattened_app ls1 ls2 st st1 st2 :
  flattened ls1 st st1 → flattened ls2 st1 st2 →
  flattened (ls1 ++ ls2) st st2.
Proof.
  intros (new1 & Hc1 & He1 & Hl1 & Hi1 & Hn1) (new2 & Hc2 & He2 & Hl2 & Hi2 & Hn2).
  exists (new1 ++ new2). split; [by rewrite Hc2, Hc1, app_assoc|].
  split; [by eapply extends_trans|]. split; [|split].
  - apply Forall2_app.
    + eapply Forall2_impl; [exact Hl1|]. intros l r.
      apply is_leaf_weaken; [apply extends_refl|done].
    + eapply Forall2_impl; [exact Hl2|]. intros l r.
      apply is_leaf_weaken; [done|apply extends_refl].
  - intros Hnd Hind. apply Hi2; [done|]. apply Hi1; [|done].
    rewrite Hc2 in Hnd. by apply NoDup_app in Hnd as (? & _).
  - rewrite omap_app. intros (Hg1 & Hdisj & Hg2)%NoDup_app
      [Hs1 Hs2]%Forall_app.
    apply NoDup_app. split; [by apply Hn1|]. split.
    + intros x Hx1 Hx2.
      destruct (is_leaf_elem_of _ _ _ _ x Hl1 Hx1) as [Hgiven1|[Hnone1 Hsome1]];
        destruct (is_leaf_elem_of _ _ _ _ x Hl2 Hx2) as [Hgiven2|[Hnone2 Hsome2]].
      * by eapply Hdisj.
      * rewrite Forall_forall in Hs1.
        pose proof (extends_is_Some _ _ x He1 (Hs1 x Hgiven1)) as [? ?].
        congruence.
      * rewrite Forall_forall in Hs2.
        destruct (Hs2 x Hgiven2) as [? ?]. congruence.
      * destruct Hsome1 as [? ?]. congruence.
    + apply Hn2; [done|].
      eapply Forall_impl; [exact Hs2|]. intros x. by apply extends_is_Some.
Qed.

Lemma leaves_data_column h0 r c children :
  h0 !! r = Some c → is_data_column c = true →
  leaves h0 (ConfObject r children) = [Given r].
Proof. intros Hr Hc. simpl. by rewrite Hr, Hc. Qed.

Lemma leaves_children h0 r c children :
  h0 !! r = Some c → is_data_column c = false →
  leaves h0 (ConfObject r children)
  = match children with
    | Array data => flat_map (leaves h0) data
    | _ => []
    end.
Proof. intros Hr Hc. simpl. by rewrite Hr, Hc. Qed.

(** The loop over an array of entries, given that each entry does as it
    should. *)
Lemma each_flattened h0 data :
  Forall (fun e => ∀ st,
            extends h0 st.1 →
            Forall (fun r => is_Some (h0 !! r)) (conf_refs e) →
            ∃ st', _parseColumns_col e st = Some st'
                   ∧ flattened (leaves h0 e) st st') data →
  ∀ st,
    extends h0 st.1 →
    Forall (fun r => is_Some (h0 !! r)) (flat_map conf_refs data) →
    ∃ st', each _parseColumns_col data st = Some st'
           ∧ flattened (flat_map (leaves h0) data) st st'.
Proof.
  induction 1 as [|e data He Hdata IH]; intros st Hext Hrefs.
  - exists st. split; [done|]. apply flattened_nil.
  - simpl in Hrefs. apply Forall_app in Hrefs as [Hrefs1 Hrefs2].
    destruct (He st Hext Hrefs1) as (st1 & Hrun1 & Hflat1).
    assert (Hext1 : extends h0 st1.1).
    { destruct Hflat1 as (? & _ & He1 & _). by eapply extends_trans. }
    destruct (IH st1 Hext1 Hrefs2) as (st2 & Hrun2 & Hflat2).
    exists st2. split.
    + simpl. rewrite Hrun1. simpl. done.
    + simpl. by eapply flattened_app.
Qed.

(** One entry: lines 668-679. *)
Lemma _parseColumns_col_flattened h0 e :
  ∀ st,
    extends h0 st.1 →
    Forall (fun r => is_Some (h0 !! r)) (conf_refs e) →
    ∃ st', _parseColumns_col e st = Some st'
           ∧ flattened (leaves h0 e) st st'.
Proof.
  assert (Hobject : ∀ r children (st : gmap ref column * list ref),
    extends h0 st.1 →
    Forall (fun r => is_Some (h0 !! r)) (conf_refs (ConfObject r children)) →
    ∃ c c', h0 !! r = Some c ∧ st.1 !! r = Some c'
            ∧ is_data_column c' = is_data_column c).
  { intros r children st Hext Hrefs. simpl in Hrefs.
    apply Forall_cons in Hrefs as [[c Hr] _].
    destruct (Hext r c Hr) as (c' & Hr' & Hc').
    exists c, c'. eauto using same_but_index_is_data_column. }
  assert (Hleaf : ∀ r children (st : gmap ref column * list ref),
    extends h0 st.1 →
    Forall (fun r => is_Some (h0 !! r)) (conf_refs (ConfObject r children)) →
    (∀ c c', h0 !! r = Some c → st.1 !! r = Some c' →
       is_data_column c = false →
       ∃ st', match children with
              | Array data => each _parseColumns_col data st
              | _ => Some st
              end = Some st'
              ∧ flattened match children with
                          | Array data => flat_map (leaves h0) data
                          | _ => []
                          end st st') →
    ∃ st', _parseColumns_col (ConfObject r children) st = Some st'
           ∧ flattened (leaves h0 (ConfObject r children)) st st').
  { intros r children st Hext Hrefs Hchildren.
    destruct (Hobject r children st Hext Hrefs) as (c & c' & Hr & Hr' & Hdc).
    cbn [_parseColumns_col]. rewrite Hr'. cbn [mbind option_bind].
    rewrite Hdc. destruct (is_data_column c) eqn:Hc.
    - eexists. split; [done|].
      rewrite (leaves_data_column h0 r c) by done.
      apply flattened_push; [|done].
      intros c0 Hc0. rewrite Hr' in Hc0. by injection Hc0 as ->.
    - rewrite (leaves_children h0 r c) by done.
      by apply (Hchildren c c'). }
  induction e as [s|r|r|r data IH] using colconf_nested_ind;
    intros st Hext Hrefs.
  - simpl. destruct (is_data_column (new_column s)) eqn:Hs.
    + eexists. split; [done|].
      assert (Hfresh : st.1 !! fresh (dom st.1) = None).
      { apply not_elem_of_dom, is_fresh. }
      apply flattened_push.
      * intros c0 Hc0. congruence.
      * split; [done|]. rewrite lookup_insert_eq. eexists. split; [done|].
        apply same_but_index_set_index.
    + exists st. split; [done|]. apply flattened_nil.
  - apply Hleaf; [done..|]. intros c c' _ _ _.
    exists st. split; [done|]. apply flattened_nil.
  - apply Hleaf; [done..|]. intros c c' _ _ _.
    exists st. split; [done|]. apply flattened_nil.
  - apply Hleaf; [done..|]. intros c c' _ _ _.
    apply each_flattened; [done..|].
    simpl in Hrefs. by apply Forall_cons in Hrefs as [_ ?].
Qed.

Lemma leaves_given_is_Some h e :
  Forall (fun r => is_Some (h !! r)) (omap given (leaves h e)).
Proof.
  induction e as [s|r|r|r data IH] using colconf_nested_ind.
  - simpl. destruct (is_data_column _); constructor.
  - simpl. destruct (h !! r) as [c|] eqn:Hr; [|constructor].
    destruct (is_data_column c); repeat constructor. by rewrite Hr.
  - simpl. destruct (h !! r) as [c|] eqn:Hr; [|constructor].
    destruct (is_data_column c); repeat constructor. by rewrite Hr.
  - simpl. destruct (h !! r) as [c|] eqn:Hr; [|constructor].
    destruct (is_data_column c); [repeat constructor; by rewrite Hr|].
    induction IH as [|e data He _ IHdata]; [constructor|].
    simpl. rewrite omap_app. by apply Forall_app.
Qed.

Lemma leaves_all_given_is_Some h data :
  Forall (fun r => is_Some (h !! r)) (omap given (flat_map (leaves h) data)).
Proof.
  induction data as [|e data IH]; [constructor|].
  simpl. rewrite omap_app. apply Forall_app. split; [|done].
  apply leaves_given_is_Some.
Qed.

(** C5, as the code has it.  For a (possibly nested) column configuration
    in which no configuration object is a leaf twice, the flattener
    returns the entries with a truthy key, formatter or nodeFormatter,
    keys given as strings made into objects first, in depth-first order:
    an entry without them is replaced by the leaves of its children or
    dropped.  Every returned column holds its position as its index, and
    the configuration objects are changed in their index only.  Input that
    is no array, or an empty array, gives back the columns passed in. *)
Theorem parseColumns_flattens h data :
  Forall (fun r => is_Some (h !! r)) (flat_map conf_refs data) →
  NoDup (omap given (flat_map (leaves h) data)) →
  ∃ h' out,
    _parseColumns (Array data) None h = Some (h', out)
    ∧ Forall2 (is_leaf h h') (flat_map (leaves h) data) out
    ∧ indexed h' out
    ∧ extends h h'
    ∧ (∀ acc h0, _parseColumns NotArray acc h0 = Some (h0, default [] acc))
    ∧ (∀ acc h0, _parseColumns Falsy acc h0 = Some (h0, default [] acc))
    ∧ (∀ acc h0, _parseColumns (Array []) acc h0 = Some (h0, default [] acc)).
Proof.
  intros Hrefs Hnd.
  destruct (each_flattened h data) with (st := (h, @nil ref))
    as ([h' out] & Hrun & new & Hout & Hext & Hleaves & Hindexed & Hnodup).
  - apply Forall_forall. intros e _. apply _parseColumns_col_flattened.
  - apply extends_refl.
  - done.
  - simpl in *. subst out.
    exists h', new. split; [done|]. split; [done|]. split.
    + apply Hindexed; [|by intros i r ?].
      apply Hnodup; [done|]. apply leaves_all_given_is_Some.
    + split; [done|]. by repeat split.
Qed.

Lemma parseColumns_flattens_witness :
  ∃ h' out,
    _parseColumns (Array nested_data) None nested_store = Some (h', out)
    ∧ Forall2 (is_leaf nested_store h')
        [Made "a"; Made "b"; Given 1] out
    ∧ indexed h' out.
Proof.
  assert (Hrefs : Forall (fun r => is_Some (nested_store !! r))
                         (flat_map conf_refs nested_data)).
  { repeat constructor; by eexists. }
  assert (Hnd : NoDup (omap given (flat_map (leaves nested_store) nested_data))).
  { apply NoDup_singleton. }
  destruct (parseColumns_flattens nested_store nested_data Hrefs Hnd)
    as (h' & out & Hrun & Hleaves & Hindexed & _).
  exists h', out. split; [exact Hrun|]. split; [exact Hleaves|exact Hindexed].
Defined.

(** C5 as stated fails when one configuration object is listed twice: it
    is returned at the positions 0 and 1 and holds the index 1. *)
Lemma listed_twice_counterexample :
  ∃ h' out,
    _parseColumns (Array listed_twice) None {[ 0 := key_column "a" ]}
    = Some (h', out)
    ∧ out = [0; 0]
    ∧ index <$> h' !! 0 = Some (Some 1)
    ∧ ¬ indexed h' out.
Proof.
  eexists _, _. split; [reflexivity|]. split; [reflexivity|].
  split; [reflexivity|].
  intros Hindexed. specialize (Hindexed 0 0 eq_refl).
  vm_compute in Hindexed. discriminate.
Qed.

(** ** The cells of the row template *)

Lemma cell_html_plain this col token hs :
  headers col = Some hs →
  nodeFormatter col = None →
  cell_html this col token
  = Some ("<td headers=" +:+ q +:+ join " " hs +:+ q +:+ " class=" +:+ q
          +:+ (getClassName this [key col] +:+ " {" +:+ prop_name token
               +:+ "-classes}")
          +:+ q +:+ ">" +:+ ("{" +:+ prop_name token +:+ "}") +:+ "</td>").
Proof.
  intros Hh Hn. unfold cell_html. rewrite Hh, Hn. cbn [mbind option_bind].
  by erewrite fromTemplate_CELL_TEMPLATE.
Qed.

Lemma cell_html_deferred this col token hs nf :
  headers col = Some hs →
  nodeFormatter col = Some nf →
  cell_html this col token = Some (deferred_cell hs).
Proof.
  intros Hh Hn. unfold cell_html. rewrite Hh, Hn. cbn [mbind option_bind].
  rewrite (fromTemplate_CELL_TEMPLATE _ (join " " hs) "" ""); [|done..].
  unfold deferred_cell. done.
Qed.


Lemma plain_cells_html this columns tokens :
  Forall2 (fun col token => plain_column this col token = true) columns tokens →
  is_Some (cells_html this columns tokens).
Proof.
  induction 1 as [|col token columns tokens Hcol Hall [cells IH]]; [by eexists|].
  simpl. unfold plain_column in Hcol.
  destruct (headers col) as [hs|] eqn:Hh; [|done].
  unfold cell_html. rewrite Hh. simpl. rewrite IH. by eexists.
Qed.

(** The segments of one cell, whatever text follows it. *)
Lemma scan_cell this col token cell rest :
  plain_column this col token = true →
  cell_html this col token = Some cell →
  scan None (cell +:+ rest) = cell_segments this col token ++ scan None rest.
Proof.
  unfold plain_column, cell_segments. intros Hplain Hcell.
  destruct (headers col) as [hs|] eqn:Hh; [|done].
  apply andb_prop in Hplain as [Hhs Hplain]. apply negb_true_iff in Hhs.
  destruct (nodeFormatter col) as [nf|] eqn:Hn.
  - rewrite (cell_html_deferred _ _ _ hs nf) in Hcell by done.
    injection Hcell as <-. change (default [] (Some hs)) with hs.
    apply scan_literal.
    unfold deferred_cell. rewrite !occurs_app, Hhs. done.
  - apply andb_prop in Hplain as [Hplain Hcls].
    apply andb_prop in Hplain as [Hcn Htok]. apply negb_true_iff in Hcn.
    rewrite (cell_html_plain _ _ _ hs) in Hcell by done.
    injection Hcell as <-. change (default [] (Some hs)) with hs.
    rewrite !string_app_assoc.
    rewrite (scan_literal "<td headers=") by done.
    rewrite (scan_literal q) by done.
    rewrite (scan_literal (join " " hs)) by done.
    rewrite (scan_literal q) by done.
    rewrite (scan_literal " class=") by done.
    rewrite (scan_literal q) by done.
    rewrite (scan_literal (getClassName this [key col])) by done.
    change (" {" +:+ ?x) with (" " +:+ String "{" x).
    rewrite (scan_literal " ") by done.
    rewrite <-(string_app_assoc (prop_name token) "-classes}").
    change (prop_name token +:+ "-classes}")
      with (prop_name token +:+ "-classes" +:+ "}").
    rewrite <-(string_app_assoc (prop_name token) "-classes" "}").
    rewrite (string_app_assoc (prop_name token +:+ "-classes") "}").
    change ("}" +:+ ?x) with (String "}" x).
    rewrite scan_plain by done.
    rewrite (scan_literal q) by done.
    rewrite (scan_literal ">") by done.
    change ("{" +:+ ?x) with (String "{" x).
    change ("}" +:+ ?x) with (String "}" x).
    rewrite scan_plain by done.
    rewrite (scan_literal "</td>") by done.
    rewrite !chars_app. by rewrite <-!app_assoc.
Qed.

Lemma scan_cells this columns tokens :
  ∀ cells rest,
  Forall2 (fun col token => plain_column this col token = true) columns tokens →
  cells_html this columns tokens = Some cells →
  scan None (cells +:+ rest)
  = concat (zip_with (cell_segments this) columns tokens) ++ scan None rest.
Proof.
  intros cells rest Hall. revert cells.
  induction Hall as [|col token columns tokens Hcol Hall IH]; intros cells Hcells.
  - by injection Hcells as <-.
  - simpl in Hcells.
    destruct (cell_html this col token) as [cell|] eqn:Hcell; [|done].
    destruct (cells_html this columns tokens) as [cells'|]; [|done].
    simpl in Hcells. injection Hcells as <-.
    rewrite string_app_assoc, (scan_cell this col token) by done.
    simpl. by rewrite IH, app_assoc.
Qed.

Lemma scan_row_template cells :
  ∀ this columns tokens,
  Forall2 (fun col token => plain_column this col token = true) columns tokens →
  cells_html this columns tokens = Some cells →
  scan None (fromTemplate ROW_TEMPLATE {[ "content" := JStr cells ]})
  = chars ("<tr id=" +:+ q) ++ Hole "clientId" "clientId"
    :: chars (q +:+ " class=" +:+ q) ++ Hole "rowClasses" "rowClasses"
    :: chars (q +:+ ">")
    ++ concat (zip_with (cell_segments this) columns tokens)
    ++ chars "</tr>".
Proof.
  intros this columns tokens Hall Hcells.
  rewrite fromTemplate_ROW_TEMPLATE.
  rewrite (scan_literal "<tr id=") by done.
  rewrite (scan_literal q) by done.
  change ("{clientId}" +:+ ?x) with (String "{" ("clientId" +:+ String "}" x)).
  rewrite scan_plain by done.
  rewrite (scan_literal q) by done.
  rewrite (scan_literal " class=") by done.
  rewrite (scan_literal q) by done.
  change ("{rowClasses}" +:+ ?x)
    with (String "{" ("rowClasses" +:+ String "}" x)).
  rewrite scan_plain by done.
  rewrite (scan_literal q) by done.
  rewrite (scan_literal ">") by done.
  rewrite (scan_cells this columns tokens) by done.
  change (scan None "</tr>") with (chars "</tr>").
  rewrite !chars_app. by rewrite <-!app_assoc.
Qed.

Lemma fill_cell_segments this col token o :
  fill_all o (cell_segments this col token)
  = cell_markup this col token
      (js_get o (prop_name token +:+ "-classes")) (js_get o (prop_name token)).
Proof.
  unfold cell_segments, cell_markup.
  destruct (nodeFormatter col); [apply fill_all_chars|].
  rewrite fill_all_app, fill_all_chars.
  cbn [fill_all]. rewrite fill_shown, fill_all_app, fill_all_chars.
  cbn [fill_all]. rewrite fill_shown, fill_all_chars.
  by rewrite !string_app_assoc.
Qed.

Lemma holes_cell_segments this col token :
  omap hole_key (cell_segments this col token) = holes_of_column col token.
Proof.
  unfold cell_segments, holes_of_column.
  destruct (nodeFormatter col); [apply holes_chars|].
  rewrite omap_app, holes_chars. cbn [omap list_omap hole_key app].
  rewrite omap_app, holes_chars. cbn [omap list_omap hole_key app].
  by rewrite holes_chars.
Qed.

(** The placeholders of the cells, whatever text follows them. *)
Lemma holes_cells this columns tokens cells rest :
  Forall2 (fun col token => plain_column this col token = true) columns tokens →
  cells_html this columns tokens = Some cells →
  omap hole_key (scan None (cells +:+ rest))
  = concat (zip_with holes_of_column columns tokens)
    ++ omap hole_key (scan None rest).
Proof.
  intros Hall Hcells. rewrite (scan_cells this columns tokens) by done.
  rewrite omap_app. f_equal. clear.
  revert tokens. induction columns as [|col columns IH]; intros [|t tokens];
    try done.
  cbn [zip_with concat]. by rewrite omap_app, holes_cell_segments, IH.
Qed.

Lemma placeholders_row_template cells this columns tokens :
  Forall2 (fun col token => plain_column this col token = true) columns tokens →
  cells_html this columns tokens = Some cells →
  placeholders (fromTemplate ROW_TEMPLATE {[ "content" := JStr cells ]})
  = "clientId" :: "rowClasses"
    :: concat (zip_with holes_of_column columns tokens).
Proof.
  intros Hall Hcells. unfold placeholders.
  rewrite (scan_row_template cells this columns tokens) by done.
  rewrite omap_app, holes_chars. cbn [omap list_omap hole_key app].
  rewrite omap_app, holes_chars. cbn [omap list_omap hole_key app].
  rewrite !omap_app, !holes_chars, app_nil_r. cbn [app]. do 2 f_equal.
  clear. revert tokens.
  induction columns as [|col columns IH]; intros [|t tokens]; try done.
  cbn [zip_with concat]. by rewrite omap_app, holes_cell_segments, IH.
Qed.

(** ** _createRowTemplate: tokens and placeholders *)

Lemma same_config_refl c : same_config c c.
Proof. done. Qed.

Lemma same_config_next_token c col tokens :
  same_config c col → next_token c tokens = next_token col tokens.
Proof.
  intros H. unfold next_token.
  pose proof (f_equal key H) as Hk. pose proof (f_equal name H) as Hn.
  pose proof (f_equal _yuid H) as Hy. simpl in *. by rewrite Hk, Hn, Hy.
Qed.

Lemma same_config_cell_html this c col t :
  same_config c col → cell_html this c t = cell_html this col t.
Proof.
  intros H. unfold cell_html.
  pose proof (f_equal key H) as Hk. pose proof (f_equal headers H) as Hh.
  pose proof (f_equal nodeFormatter H) as Hn. simpl in *.
  by rewrite Hk, Hh, Hn.
Qed.

(** The markup the loop builds is that of the cells of the columns as they
    were when the loop began, also when a column is listed twice. *)
Lemma _createRowTemplate_loop_cells this cols columns :
  ∀ h tokens html,
  Forall2 (fun r col => ∃ c, h !! r = Some c ∧ same_config c col) cols columns →
  snd <$> _createRowTemplate_loop this cols h tokens html
  = String.append html <$> cells_html this columns (assigned_tokens columns tokens).
Proof.
  intros h tokens html Hall. revert columns h tokens html Hall.
  induction cols as [|r cols IH]; intros columns h tokens html Hall.
  - apply Forall2_nil_inv_l in Hall as ->. simpl. by rewrite string_app_nil_r.
  - apply Forall2_cons_inv_l in Hall
      as (col & columns' & (c & Hr & Hc) & Hall & ->).
    simpl. rewrite Hr. simpl.
    rewrite (same_config_next_token c col) by done.
    destruct (next_token col tokens) as [token tokens'] eqn:Hnext. simpl.
    rewrite (same_config_cell_html this c col) by done.
    destruct (cell_html this col token) as [cell|]; [|done]. simpl.
    rewrite (IH columns').
    + destruct (cells_html this columns' _) as [cells|]; [|done]. simpl.
      by rewrite string_app_assoc.
    + eapply Forall2_impl; [exact Hall|]. intros r' col' (c' & Hr' & Hc').
      destruct (decide (r' = r)) as [->|Hne].
      * rewrite lookup_insert_eq. eexists. split; [done|].
        rewrite Hr in Hr'. injection Hr' as ->. done.
      * rewrite lookup_insert_ne by done. eauto.
Qed.

Lemma assigned_tokens_length columns :
  ∀ tokens, List.length (assigned_tokens columns tokens) = List.length columns.
Proof.
  induction columns as [|col columns IH]; intros tokens; [done|].
  simpl. destruct (next_token col tokens). simpl. by rewrite IH.
Qed.

(** When no column is listed twice, every column holds the token the loop
    gave it, and objects that are no columns are left alone. *)
Lemma _createRowTemplate_loop_tokens this cols :
  ∀ columns h tokens html h' html',
  Forall2 (fun r col => ∃ c, h !! r = Some c ∧ same_config c col) cols columns →
  NoDup cols →
  _createRowTemplate_loop this cols h tokens html = Some (h', html') →
  Forall2 (fun r t => _renderToken <$> h' !! r = Some t)
          cols (assigned_tokens columns tokens)
  ∧ ∀ r, r ∉ cols → h' !! r = h !! r.
Proof.
  induction cols as [|r cols IH]; intros columns h tokens html h' html' Hall Hnd Hloop.
  - apply Forall2_nil_inv_l in Hall as ->. simpl in *.
    injection Hloop as <- <-. split; [constructor|done].
  - apply Forall2_cons_inv_l in Hall
      as (col & columns' & (c & Hr & Hc) & Hall & ->).
    apply NoDup_cons in Hnd as [Hnotin Hnd].
    simpl in Hloop. rewrite Hr in Hloop. simpl in Hloop.
    rewrite (same_config_next_token c col) in Hloop by done.
    simpl. destruct (next_token col tokens) as [token tokens'] eqn:Hnext.
    simpl in Hloop.
    destruct (cell_html this c token) as [cell|]; [|done]. simpl in Hloop.
    assert (Hall' : Forall2 (fun r' col' => ∃ c0,
                        <[r := set_renderToken token c]> h !! r' = Some c0
                        ∧ same_config c0 col') cols columns').
    { eapply Forall2_impl; [exact Hall|]. intros r' col' (c' & Hr' & Hc').
      destruct (decide (r' = r)) as [->|Hne].
      - rewrite lookup_insert_eq. eexists. split; [done|].
        rewrite Hr in Hr'. injection Hr' as ->. done.
      - rewrite lookup_insert_ne by done. eauto. }
    destruct (IH columns' _ _ _ _ _ Hall' Hnd Hloop) as [Htokens Hframe].
    split.
    + constructor; [|done].
      rewrite (Hframe r Hnotin), lookup_insert_eq. done.
    + intros r' Hr'. apply not_elem_of_cons in Hr' as [Hne Hr'].
      rewrite (Hframe r' Hr'). by rewrite lookup_insert_ne.
Qed.

Lemma _createRowTemplate_tokens this cols columns h h' this' :
  Forall2 (fun r col => h !! r = Some col) cols columns →
  NoDup cols →
  _createRowTemplate this cols h = Some (h', this') →
  renderTokens h' cols = Some <$> assigned_tokens columns ∅.
Proof.
  intros Hcols Hnd Hrun. unfold _createRowTemplate in Hrun.
  destruct (_createRowTemplate_loop this cols h ∅ "") as [[h1 html]|] eqn:Hloop;
    [|done].
  simpl in Hrun. injection Hrun as <- <-.
  destruct (_createRowTemplate_loop_tokens this cols columns h ∅ "" h1 html)
    as [Htokens _]; [|done..|].
  { eapply Forall2_impl; [exact Hcols|]. intros r col Hr.
    exists col. split; [done|]. apply same_config_refl. }
  unfold renderTokens. clear -Htokens.
  induction Htokens as [|r t cols' ts Hr Hall IH]; [done|].
  simpl. by rewrite Hr, IH.
Qed.

(** With no column listed twice, every column holds its token as its
    [_renderToken] and is otherwise as it was. *)
Lemma _createRowTemplate_loop_store this cols :
  ∀ columns h tokens html h' html',
  Forall2 (fun r col => h !! r = Some col) cols columns →
  NoDup cols →
  _createRowTemplate_loop this cols h tokens html = Some (h', html') →
  Forall2 (fun r c => h' !! r = Some c) cols
          (zip_with (fun col t => set_renderToken t col)
                    columns (assigned_tokens columns tokens))
  ∧ ∀ r, r ∉ cols → h' !! r = h !! r.
Proof.
  induction cols as [|r cols IH];
    intros columns h tokens html h' html' Hall Hnd Hloop.
  - apply Forall2_nil_inv_l in Hall as ->. simpl in *.
    injection Hloop as <- <-. split; [constructor|done].
  - apply Forall2_cons_inv_l in Hall as (col & columns' & Hr & Hall & ->).
    apply NoDup_cons in Hnd as [Hnotin Hnd].
    simpl in Hloop. rewrite Hr in Hloop. simpl in Hloop.
    simpl. destruct (next_token col tokens) as [token tokens'] eqn:Hnext.
    simpl in Hloop.
    destruct (cell_html this col token) as [cell|]; [|done]. simpl in Hloop.
    assert (Hall' : Forall2 (fun r' col' =>
                        <[r := set_renderToken token col]> h !! r' = Some col')
                      cols columns').
    { apply Forall2_same_length_lookup_2; [by eapply Forall2_length|].
      intros i r' col' Hi Hc.
      assert (r' ≠ r).
      { intros ->. apply Hnotin. by eapply list_elem_of_lookup_2. }
      rewrite lookup_insert_ne by done.
      by eapply (Forall2_lookup_lr _ _ _ i) in Hall. }
    destruct (IH columns' _ _ _ _ _ Hall' Hnd Hloop) as [Hstore Hframe].
    split.
    + simpl. constructor; [|done].
      rewrite (Hframe r Hnotin). by rewrite lookup_insert_eq.
    + intros r' Hr'. apply not_elem_of_cons in Hr' as [Hne Hr'].
      rewrite (Hframe r' Hr'). by rewrite lookup_insert_ne.
Qed.







(** The clash is there for every key: a column whose key is an earlier,
    repeated key with 1 behind it gets the token of the repetition. *)
Lemma assigned_tokens_clash k :
  k ≠ "" →
  assigned_tokens [key_column k; key_column k; key_column (k +:+ "1")] ∅
  = [Some k; Some (k +:+ "1"); Some (k +:+ "1")].
Proof.
  intros Hk.
  assert (Hk1 : k +:+ "1" ≠ k).
  { clear. induction k as [|c k IH]; [done|]. intros [= H]. by apply IH. }
  assert (Ht : ∀ s, s ≠ "" → prop_truthy (Some s) = true).
  { intros s Hs. unfold prop_truthy. simpl. by destruct s. }
  assert (Ht1 : prop_truthy (Some (k +:+ "1")) = true).
  { apply Ht. by destruct k. }
  cbn [assigned_tokens]. unfold next_token. cbn [key key_column].
  rewrite (Ht k Hk), Ht1. change (prop_name (Some ?s)) with s.
  rewrite lookup_empty. cbn [fst snd].
  rewrite lookup_insert_eq. cbn [fst snd].
  rewrite lookup_insert_ne by done. rewrite lookup_insert_ne by done.
  rewrite lookup_empty. done.
Qed.

(** C1 (defect of the code).  The specification has the tokens of one
    build pairwise different, also when a key reads like an earlier key
    with a number behind it.  The code counts per key only: for the keys
    x, x and x1 the second column gets x with the counter 1 behind it,
    which is the key, and so the token, of the third. *)
Theorem repeated_key_tokens_clash :
  ∃ h' this',
    _createRowTemplate (a_view [0; 1; 2] None) [0; 1; 2] x_x_x1
    = Some (h', this')
    ∧ renderTokens h' [0; 1; 2]
      = [Some (Some "x"); Some (Some "x1"); Some (Some "x1")]
    ∧ ¬ NoDup (renderTokens h' [0; 1; 2]).
Proof.
  eexists _, _. split; [reflexivity|].
  set (l := renderTokens _ _).
  assert (Hl : l = [Some (Some "x"); Some (Some "x1"); Some (Some "x1")])
    by reflexivity.
  split; [exact Hl|]. rewrite Hl.
  intros Hnd. apply NoDup_cons in Hnd as [_ Hnd].
  apply NoDup_cons in Hnd as [Hin _]. apply Hin. left.
Qed.

(** C4, as the code has it.  For a flat list of columns whose cell markup
    reads as intended (headers present, no opening brace in headers or
    class name, tokens that are no-frills placeholder names), the row
    template is built and its placeholders are, in order: clientId,
    rowClasses, and for every column without a nodeFormatter the classes
    placeholder of its token and its token.  A column with a nodeFormatter
    brings no placeholder.  The tokens are those the columns hold as their
    _renderToken afterwards, when no column is listed twice. *)
Theorem row_template_placeholders this h cols columns :
  Forall2 (fun r col => h !! r = Some col) cols columns →
  Forall2 (fun col token => plain_column this col token = true)
          columns (assigned_tokens columns ∅) →
  ∃ h' this' t,
    _createRowTemplate this cols h = Some (h', this')
    ∧ _rowTemplate this' = Some t
    ∧ placeholders t
      = "clientId" :: "rowClasses"
        :: concat (zip_with holes_of_column columns (assigned_tokens columns ∅))
    ∧ (NoDup cols → renderTokens h' cols = Some <$> assigned_tokens columns ∅).
Proof.
  intros Hcols Hplain.
  destruct (plain_cells_html _ _ _ Hplain) as [cells Hcells].
  assert (Hloop : snd <$> _createRowTemplate_loop this cols h ∅ ""
                  = Some cells).
  { rewrite (_createRowTemplate_loop_cells this cols columns), Hcells; [done|].
    eapply Forall2_impl; [exact Hcols|]. intros r col Hr.
    exists col. split; [done|]. apply same_config_refl. }
  destruct (_createRowTemplate this cols h) as [[h' this']|] eqn:Hrun.
  - exists h', this'. unfold _createRowTemplate in Hrun.
    destruct (_createRowTemplate_loop this cols h ∅ "") as [[h1 html]|] eqn:Hl;
      [|done].
    simpl in Hloop, Hrun. injection Hloop as ->. injection Hrun as <- <-.
    eexists. split; [done|]. split; [done|]. split.
    + by apply (placeholders_row_template cells this columns).
    + intros Hnd.
      apply (_createRowTemplate_tokens this cols columns h h1
               (set_rowTemplate
                  (fromTemplate ROW_TEMPLATE {[ "content" := JStr cells ]}) this));
        [done..|].
      unfold _createRowTemplate. by rewrite Hl.
  - unfold _createRowTemplate in Hrun.
    by destruct (_createRowTemplate_loop this cols h ∅ "") as [[h1 html]|].
Qed.

Lemma row_template_placeholders_witness :
  ∃ h' this' t,
    _createRowTemplate (a_view [0; 1] None) [0; 1]
      {[ 0 := key_column "name"; 1 := deferred_column ]} = Some (h', this')
    ∧ _rowTemplate this' = Some t
    ∧ placeholders t = ["clientId"; "rowClasses"; "name-classes"; "name"].
Proof.
  destruct (row_template_placeholders (a_view [0; 1] None)
              {[ 0 := key_column "name"; 1 := deferred_column ]} [0; 1]
              [key_column "name"; deferred_column])
    as (h' & this' & t & Hrun & Ht & Hholes & _).
  - repeat constructor.
  - repeat constructor.
  - exists h', this', t. split; [exact Hrun|]. split; [exact Ht|exact Hholes].
Defined.

(** C4 as stated fails: the column has a nodeFormatter and the token a,
    but neither a nor its classes placeholder is in the row template, while
    clientId is. *)
Lemma row_template_nodeFormatter_counterexample :
  ∃ h' this' t,
    _createRowTemplate (a_view [0] None) [0] {[ 0 := deferred_column ]}
    = Some (h', this')
    ∧ _rowTemplate this' = Some t
    ∧ renderTokens h' [0] = [Some (Some "a")]
    ∧ placeholders t = ["clientId"; "rowClasses"]
    ∧ placeholders t ≠ ["a"; "a-classes"; "rowClasses"]
    ∧ ("a" ∉ placeholders t)
    ∧ ("clientId" ∈ placeholders t).
Proof.
  eexists _, _, _. split; [reflexivity|]. split; [reflexivity|].
  split; [reflexivity|].
  set (l := placeholders _).
  assert (Hl : l = ["clientId"; "rowClasses"]) by reflexivity.
  rewrite Hl. split; [done|]. split; [done|]. split.
  - intros Hin. by repeat (apply elem_of_cons in Hin as [?|Hin]; [done|]);
      apply elem_of_nil in Hin.
  - left.
Qed.

(** ** _createRowHTML: one column of one row *)

Lemma _createRowHTML_col_eq h model index r col values data :
  h !! r = Some col →
  _createRowHTML_col h model index r values data =
    let token := prop_name (row_token col) in
    let st := formatter_step col r model index token
                (js_get data (prop_name (key col)))
                (<[token +:+ "-classes" := JStr ""]> values) data in
    Some (<[token := escaped col (empty_fallback col st.1.1)]> st.1.2, st.2).
Proof.
  intros Hr. unfold _createRowHTML_col. rewrite Hr. simpl.
  by destruct (formatter_step _ _ _ _ _ _ _ _) as [[v vs] ds].
Qed.


Lemma formatter_step_function col r model index token value values data f :
  formatter col = Some (FunctionFormatter f) →
  formatter_step col r model index token value values data =
    let res := f {| fd_value := value; fd_data := data; fd_column := r;
                    fd_record := model; fd_classnames := JStr "";
                    fd_rowindex := index |} in
    (value_of_call res,
     <[token +:+ "-classes" := classnames_after res]> values,
     data_after res).
Proof.
  intros Hf. unfold formatter_step, value_of_call. rewrite Hf. simpl.
  by destruct (returned _).
Qed.

Lemma formatter_step_template col r model index token value values data s :
  formatter col = Some (TemplateFormatter s) →
  s ≠ "" →
  formatter_step col r model index token value values data =
    (JStr (fromTemplate s (formatterData_object
             {| fd_value := value; fd_data := data; fd_column := r;
                fd_record := model; fd_classnames := JStr "";
                fd_rowindex := index |})),
     values, data).
Proof.
  intros Hf Hs. unfold formatter_step. rewrite Hf. simpl.
  destruct (String.eqb_spec s ""); done.
Qed.

Lemma formatter_step_none col r model index token value values data :
  formatter_truthy (formatter col) = false →
  formatter_step col r model index token value values data
  = (value, values, data).
Proof. intros Hf. unfold formatter_step. by rewrite Hf. Qed.











(** ** _createRowHTML: the row *)

Lemma _createRowHTML_col_other h model index r col values data values' data' k :
  h !! r = Some col →
  _createRowHTML_col h model index r values data = Some (values', data') →
  k ≠ prop_name (row_token col) →
  k ≠ prop_name (row_token col) +:+ "-classes" →
  values' !! k = values !! k.
Proof.
  intros Hr Heq Hk1 Hk2.
  rewrite (_createRowHTML_col_eq _ _ _ _ col) in Heq by done.
  cbv zeta in Heq. injection Heq as <- <-.
  rewrite lookup_insert_ne by done.
  unfold formatter_step.
  destruct (formatter_truthy (formatter col)); simpl;
    [destruct (formatter col) as [[s|f]|]; simpl|];
    rewrite ?lookup_insert_ne by done; done.
Qed.

(** Whatever the formatters of a row do, and whatever they write into the
    attribute map they are handed: as long as no column has rowClasses (or
    a name that gives rowClasses with the suffix of the classes) for its
    token, the row is rendered with the class of line 500. *)
Lemma rowClasses_is_default h model index cols :
  ∀ values data values' data',
  Forall (fun r => ∃ col, h !! r = Some col
            ∧ "rowClasses" ≠ prop_name (row_token col)
            ∧ "rowClasses" ≠ prop_name (row_token col) +:+ "-classes") cols →
  _createRowHTML_loop h model index cols values data = Some (values', data') →
  values' !! "rowClasses" = values !! "rowClasses".
Proof.
  induction cols as [|r cols IH]; intros values data values' data' Hcols Hloop.
  - by injection Hloop as <- <-.
  - apply Forall_cons in Hcols as [(col & Hr & Hk1 & Hk2) Hcols].
    simpl in Hloop.
    destruct (_createRowHTML_col h model index r values data)
      as [[values1 data1]|] eqn:Hcol; [|done].
    simpl in Hloop. rewrite (IH _ _ _ _ Hcols Hloop).
    by eapply _createRowHTML_col_other.
Qed.

(** C2 (defect of the code).  The specification, like the comment before
    _createRowHTML, has the value that a formatter writes as rowClasses
    into the attribute map it is handed ([o.data]) rendered in place of the
    odd or even class.  The code fills the row template from the [values]
    object, which is not the attribute map: for the formatter
    [function (o) { o.data.rowClasses = 'custom'; }] the attribute map
    holds custom after the row, the rendered row has the even class. *)
Theorem rowClasses_of_formatter_is_lost :
  ∃ h' this' values data,
    _createRowTemplate (a_view [0] None) [0]
      {[ 0 := formatter_column "name" custom_row ]} = Some (h', this')
    ∧ _createRowHTML_values this' h' (a_model {[ "name" := JStr "Ann" ]}) 0
      = Some (values, data)
    ∧ data !! "rowClasses" = Some (JStr "custom")
    ∧ values !! "rowClasses" = Some (JStr "yui3-table-even")
    ∧ _createRowHTML this' h' (a_model {[ "name" := JStr "Ann" ]}) 0
      = Some ("<tr id=" +:+ q +:+ "{clientId}" +:+ q +:+ " class=" +:+ q
              +:+ "yui3-table-even" +:+ q +:+ "><td headers=" +:+ q +:+ q
              +:+ " class=" +:+ q +:+ "yui3-table-name " +:+ q
              +:+ ">Ann</td></tr>").
Proof.
  eexists _, _, _, _. split; [reflexivity|].
  split; [reflexivity|]. split; [reflexivity|]. split; [reflexivity|].
  vm_compute. reflexivity.
Qed.

(** A column binds its classes and its content, and nothing else. *)
Lemma _createRowHTML_col_result h model index r col values data :
  h !! r = Some col →
  _createRowHTML_col h model index r values data
  = let res := cell_result col r model index data in
    Some (<[prop_name (row_token col) := res.1.2]>
            (<[prop_name (row_token col) +:+ "-classes" := res.1.1]> values),
          res.2).
Proof.
  intros Hr. rewrite (_createRowHTML_col_eq _ _ _ _ col) by done.
  unfold cell_result. cbv zeta.
  destruct (formatter_truthy (formatter col)) eqn:Hf.
  - destruct (formatter col) as [[s|f]|] eqn:Hfmt; [| |done].
    + assert (s ≠ "") by (intros ->; done).
      rewrite !(formatter_step_template _ _ _ _ _ _ _ _ s) by done. simpl.
      unfold js_get. by rewrite lookup_singleton_eq.
    + rewrite !(formatter_step_function _ _ _ _ _ _ _ _ f) by done. simpl.
      unfold js_get. rewrite lookup_insert_eq. simpl.
      by rewrite insert_insert_eq.
  - rewrite !formatter_step_none by done. simpl.
    unfold js_get. by rewrite lookup_singleton_eq.
Qed.

(** The loop over the columns of a row, read off the values object it
    leaves: the cells are filled with what [row_results] says, and names
    that no column binds are as before. *)
Lemma _createRowHTML_loop_filled this h model index cols :
  ∀ columns tokens values data,
  Forall2 (fun r col => h !! r = Some col) cols columns →
  Forall2 (fun col token => nodeFormatter col = None →
             prop_name (row_token col) = prop_name token) columns tokens →
  NoDup (bound_names ((fun col => prop_name (row_token col)) <$> columns)) →
  ∃ values' data' results,
    _createRowHTML_loop h model index cols values data = Some (values', data')
    ∧ row_results h model index cols data = Some results
    ∧ fill_all values' (concat (zip_with (cell_segments this) columns tokens))
      = cells_markup this columns tokens results
    ∧ ∀ k, k ∉ bound_names ((fun col => prop_name (row_token col)) <$> columns) →
        values' !! k = values !! k.
Proof.
  induction cols as [|r cols IH];
    intros columns tokens values data Hcols Htokens Hnd.
  - apply Forall2_nil_inv_l in Hcols as ->.
    apply Forall2_nil_inv_l in Htokens as ->.
    by exists values, data, [].
  - apply Forall2_cons_inv_l in Hcols as (col & columns' & Hr & Hcols & ->).
    apply Forall2_cons_inv_l in Htokens as (t & tokens' & Ht & Htokens & ->).
    simpl in Hnd. apply NoDup_cons in Hnd as [Hn1 Hnd].
    apply NoDup_cons in Hnd as [Hn2 Hnd].
    apply not_elem_of_cons in Hn1 as [_ Hn1].
    cbn [_createRowHTML_loop].
    rewrite (_createRowHTML_col_result _ _ _ _ col) by done.
    cbv zeta.
    destruct (cell_result col r model index data) as [[cl ct] d] eqn:Hcell.
    cbn [fst snd mbind option_bind].
    destruct (IH columns' tokens'
                (<[prop_name (row_token col) := ct]>
                   (<[prop_name (row_token col) +:+ "-classes" := cl]> values))
                d Hcols Htokens Hnd)
      as (values' & data' & results & Hloop & Hres & Hfill & Hframe).
    exists values', data', ((cl, ct) :: results).
    split; [done|]. split; [|split].
    + cbn [row_results]. rewrite Hr. cbn [mbind option_bind].
      rewrite Hcell. cbn [fst snd]. by rewrite Hres.
    + cbn [zip_with concat cells_markup].
      rewrite fill_all_app, Hfill, fill_cell_segments. f_equal.
      unfold cell_markup. destruct (nodeFormatter col) eqn:Hnf; [done|].
      rewrite <-(Ht eq_refl). unfold js_get.
      rewrite (Hframe _ Hn1), (Hframe _ Hn2).
      rewrite (lookup_insert_ne _ (prop_name (row_token col)))
        by apply token_ne_classes.
      by rewrite !lookup_insert_eq.
    + intros k Hk. cbn [fmap list_fmap bound_names] in Hk.
      apply not_elem_of_cons in Hk as [Hk1 Hk].
      apply not_elem_of_cons in Hk as [Hk2 Hk].
      rewrite (Hframe k Hk). by rewrite !lookup_insert_ne.
Qed.

Lemma bound_name_next_token col tokens :
  (next_token col tokens).1 ≠ Some "" →
  bound_name col (next_token col tokens).1
  = prop_name (next_token col tokens).1.
Proof.
  unfold bound_name, row_token, next_token. simpl.
  destruct (prop_truthy (key col)) eqn:Hkey.
  - destruct (key col) as [k|] eqn:Hk; [|done].
    assert (Hne : k ≠ "").
    { intros ->. done. }
    assert (Htr : ∀ s, prop_truthy (Some (k +:+ s)) = true).
    { intros s. unfold prop_truthy. simpl. by destruct k. }
    change (prop_name (Some k)) with k.
    destruct (tokens !! k) as [[|n]|]; simpl; intros _;
      unfold prop_or at 2; rewrite ?Htr, ?Hkey; unfold prop_or;
      by rewrite ?Htr, ?Hkey.
  - simpl. intros Hne.
    destruct (prop_or (name col) (_yuid col)) as [s|] eqn:Ht.
    + assert (prop_truthy (Some s) = true) as Hs.
      { unfold prop_truthy. simpl. destruct s; [done|done]. }
      unfold prop_or at 2. rewrite Hs. unfold prop_or. by rewrite Hs.
    + unfold prop_or at 2. simpl. unfold prop_or at 1. rewrite Hkey.
      unfold prop_or in Ht.
      destruct (prop_truthy (name col)) eqn:Hn; [by rewrite Ht in Hn|].
      by rewrite Ht.
Qed.

Lemma assigned_tokens_bound_names this columns :
  ∀ tokens,
  Forall2 (fun col t => plain_column this col t = true)
          columns (assigned_tokens columns tokens) →
  Forall2 (fun col t => nodeFormatter col = None →
             prop_name (row_token col) = prop_name t)
          (zip_with (fun col t => set_renderToken t col)
                    columns (assigned_tokens columns tokens))
          (assigned_tokens columns tokens).
Proof.
  induction columns as [|col columns IH]; intros tokens Hplain; [constructor|].
  simpl in *. destruct (next_token col tokens) as [t tokens'] eqn:Hnext.
  apply Forall2_cons in Hplain as [Hcol Hplain].
  simpl. constructor; [|by apply IH].
  simpl. intros Hnf. unfold plain_column in Hcol. rewrite Hnf in Hcol.
  destruct (headers col); [|done].
  apply andb_prop in Hcol as [_ Hcol]. apply andb_prop in Hcol as [Hcol _].
  apply andb_prop in Hcol as [_ Hcol].
  pose proof (bound_name_next_token col tokens) as Hb.
  rewrite Hnext in Hb. unfold bound_name in Hb. simpl in Hb. apply Hb.
  intros ->. done.
Qed.

Lemma cell_segments_stored this columns tokens :
  zip_with (cell_segments this)
    (zip_with (fun col t => set_renderToken t col) columns tokens) tokens
  = zip_with (cell_segments this) columns tokens.
Proof.
  revert tokens. induction columns as [|col columns IH]; intros [|t tokens];
    simpl; try done. by rewrite IH.
Qed.

Lemma cells_markup_stored this columns tokens results :
  cells_markup this
    (zip_with (fun col t => set_renderToken t col) columns tokens) tokens results
  = cells_markup this columns tokens results.
Proof.
  revert tokens results.
  induction columns as [|col columns IH]; intros [|t tokens] [|[cl ct] results];
    simpl; try done. by rewrite IH.
Qed.

Lemma bound_names_stored columns tokens :
  (fun col => prop_name (row_token col))
    <$> zip_with (fun col t => set_renderToken t col) columns tokens
  = zip_with bound_name columns tokens.
Proof.
  revert tokens. induction columns as [|col columns IH]; intros [|t tokens];
    simpl; try done. by rewrite IH.
Qed.

(** The bulk pass for one record, start to end.  For columns that are not
    listed twice, whose cell markup reads as intended and whose cells are
    bound under names that differ from one another, from their classes
    names, from rowClasses and from clientId: the row is the row markup
    with the odd or even class, the identity placeholder left as it is, and
    one cell per column, filled with the classes and the content that the
    columns yield from left to right, or the fixed empty cell for a column
    with a nodeFormatter. *)
Theorem rendered_row this h cols configs model index :
  columns this = cols →
  Forall2 (fun r col => h !! r = Some col) cols configs →
  NoDup cols →
  Forall2 (fun col token => plain_column this col token = true)
          configs (assigned_tokens configs ∅) →
  NoDup ("clientId" :: "rowClasses"
         :: bound_names (zip_with bound_name configs (assigned_tokens configs ∅))) →
  ∃ h' this' results,
    _createRowTemplate this cols h = Some (h', this')
    ∧ row_results h' model index cols (getAttrs model) = Some results
    ∧ _createRowHTML this' h' model index
      = Some (row_markup this index
                (cells_markup this configs (assigned_tokens configs ∅) results)).
Proof.
  intros Hthis Hcols Hnd Hplain Hnames.
  destruct (plain_cells_html _ _ _ Hplain) as [cells Hcells].
  assert (Hloop : snd <$> _createRowTemplate_loop this cols h ∅ ""
                  = Some cells).
  { rewrite (_createRowTemplate_loop_cells this cols configs), Hcells; [done|].
    eapply Forall2_impl; [exact Hcols|]. intros r col Hr.
    exists col. split; [done|]. apply same_config_refl. }
  unfold _createRowTemplate.
  destruct (_createRowTemplate_loop this cols h ∅ "") as [[h' html]|] eqn:Hl;
    [|done].
  simpl in Hloop. injection Hloop as ->.
  destruct (_createRowTemplate_loop_store this cols configs h ∅ "" h' cells)
    as [Hstore _]; [done..|].
  apply NoDup_cons in Hnames as [Hid Hnames].
  apply NoDup_cons in Hnames as [Hrow Hnames].
  apply not_elem_of_cons in Hid as [_ Hid].
  destruct (_createRowHTML_loop_filled this h' model index cols _
              (assigned_tokens configs ∅)
              {[ "rowClasses" := JStr (row_class this index) ]}
              (getAttrs model) Hstore)
    as (values' & data' & results & Hrun & Hres & Hfill & Hframe).
  { by apply (assigned_tokens_bound_names this). }
  { by rewrite bound_names_stored. }
  rewrite bound_names_stored in Hframe.
  rewrite cell_segments_stored in Hfill. rewrite cells_markup_stored in Hfill.
  simpl. eexists _, _, results. split; [done|]. split; [done|].
  unfold _createRowHTML, _createRowHTML_values. simpl. rewrite Hthis.
  change (row_class (set_rowTemplate _ this) index) with (row_class this index).
  rewrite Hrun. simpl. f_equal. unfold fromTemplate at 1.
  rewrite (scan_row_template cells this configs (assigned_tokens configs ∅))
    by done.
  rewrite fill_all_app, fill_all_chars. cbn [fill_all].
  rewrite fill_shown, fill_all_app, fill_all_chars. cbn [fill_all].
  rewrite fill_shown, !fill_all_app, !fill_all_chars, Hfill.
  unfold js_get. rewrite (Hframe _ Hid), (Hframe _ Hrow).
  rewrite lookup_singleton_ne by done. rewrite lookup_singleton_eq. simpl.
  unfold row_markup. by rewrite !string_app_assoc.
Qed.

(** The theorem at the first scenario of the specification. *)
Example rendered_row_name_age :
  ∃ h' this' results,
    _createRowTemplate (a_view [0; 1] (Some [Ann; Bo])) [0; 1] name_age
    = Some (h', this')
    ∧ row_results h' Bo 1 [0; 1] (getAttrs Bo) = Some results
    ∧ _createRowHTML this' h' Bo 1
      = Some (row_markup (a_view [0; 1] (Some [Ann; Bo])) 1
                (cells_markup (a_view [0; 1] (Some [Ann; Bo]))
                   [key_column "name"; age_column]
                   [Some "name"; Some "age"] results)).
Proof.
  apply (rendered_row (a_view [0; 1] (Some [Ann; Bo])) name_age [0; 1]
           [key_column "name"; age_column] Bo 1).
  - reflexivity.
  - repeat constructor.
  - apply (bool_decide_unpack _). vm_compute. exact I.
  - repeat constructor.
  - apply (bool_decide_unpack _). vm_compute. exact I.
Qed.

(** ** _applyNodeFormatters *)

Lemma elem_of_Y_one e e' t :
  e' ∈ instances (Y_one e t) ↔ e' = e ∨ e' ∈ instances t.
Proof.
  unfold Y_one. case_bool_decide as He; simpl.
  - split; [auto|]. intros [->|?]; done.
  - apply elem_of_cons.
Qed.

Lemma rows_Y_one e t : rows (Y_one e t) = rows t.
Proof. unfold Y_one. by case_bool_decide. Qed.

Lemma content_Y_one e t : content (Y_one e t) = content t.
Proof. unfold Y_one. by case_bool_decide. Qed.



(** ** bindUI and render *)

Lemma bindUI_no_modelList this :
  modelList this = None →
  dataChange (_eventHandles this) = false →
  bindUI this = None.
Proof.
  intros Hdata Hhandle. unfold bindUI. rewrite Hdata.
  destruct (source this && negb (columnsChange (_eventHandles this)));
    simpl; by rewrite Hhandle.
Qed.

Lemma bindUI_with_modelList this l :
  modelList this = Some l →
  ∃ this', bindUI this = Some this'
    ∧ container this' = container this
    ∧ dataChange (_eventHandles this') = true.
Proof.
  intros Hdata. unfold bindUI. rewrite Hdata.
  destruct (source this && negb (columnsChange (_eventHandles this)));
    simpl; destruct (dataChange (_eventHandles this)) eqn:E; simpl;
    eexists; (split; [done|]); split; done.
Qed.

(** When only the container is missing, render gets through: nothing is
    written and the view comes back with its subscriptions made. *)
Lemma render_without_container realise this h h' this1 l :
  container this = None →
  modelList this = Some l →
  _createRowTemplate this (columns this) h = Some (h', this1) →
  ∃ this', render realise this h = Some (h', this')
    ∧ container this' = None.
Proof.
  intros Hc Hd Ht. unfold render. rewrite Ht. simpl.
  unfold _createRowTemplate in Ht.
  destruct (_createRowTemplate_loop _ _ _ _ _) as [[h1 html]|]; [|done].
  simpl in Ht. injection Ht as <- <-. simpl. rewrite Hc. simpl.
  destruct (bindUI_with_modelList
              (set_rowTemplate (fromTemplate ROW_TEMPLATE {["content" := JStr html]}) this) l)
    as (this' & -> & Hc' & _); [done|].
  simpl. eexists; split; [done|]. by rewrite Hc'.
Qed.

(** With the modelList missing but the subscription made earlier, render
    gets through and writes nothing. *)
Lemma render_without_modelList_subscribed realise this h h' this1 :
  modelList this = None →
  dataChange (_eventHandles this) = true →
  _createRowTemplate this (columns this) h = Some (h', this1) →
  ∃ this', render realise this h = Some (h', this')
    ∧ container this' = container this.
Proof.
  intros Hd Hh Ht. unfold render. rewrite Ht. simpl.
  unfold _createRowTemplate in Ht.
  destruct (_createRowTemplate_loop _ _ _ _ _) as [[h1 html]|]; [|done].
  simpl in Ht. injection Ht as <- <-. simpl. rewrite Hd.
  assert (Hb : ∀ this0, modelList this0 = None →
                 dataChange (_eventHandles this0) = true →
                 ∃ this', bindUI this0 = Some this'
                          ∧ container this' = container this0).
  { intros this0 Hd0 Hh0. unfold bindUI.
    destruct (source this0 && negb (columnsChange (_eventHandles this0)));
      simpl; rewrite Hh0; simpl; eexists; split; done. }
  destruct (Hb (set_rowTemplate
                  (fromTemplate ROW_TEMPLATE {["content" := JStr html]}) this))
    as (this' & Hbind & Hc); [done..|].
  exists this'. split; [|done].
  destruct (container this); simpl; by rewrite Hbind.
Qed.

(** C3 (defect of the code).  The specification has render complete
    without error, write nothing and return the instance when the container
    or the modelList is missing.  The code: whenever the modelList is
    missing and no dataChange subscription has been made yet, render
    throws, because bindUI calls [data.after] without the guard that render
    itself, _createDataHTML and _applyNodeFormatters put before every use
    of the modelList. *)
Theorem render_throws_without_modelList realise this h :
  modelList this = None →
  dataChange (_eventHandles this) = false →
  render realise this h = None.
Proof.
  intros Hdata Hhandle. unfold render.
  destruct (_createRowTemplate this (columns this) h) as [[h' this']|] eqn:Ht;
    [|done].
  simpl. unfold _createRowTemplate in Ht.
  destruct (_createRowTemplate_loop _ _ _ _ _) as [[h1 html]|]; [|done].
  simpl in Ht. injection Ht as <- <-.
  assert (Hnone : ∀ x : option BodyView,
             x = Some (set_rowTemplate
                         (fromTemplate ROW_TEMPLATE {["content" := JStr html]}) this) →
             (x ≫= λ this0, bindUI this0 ≫= λ this1, Some (h1, this1)) = None).
  { intros x ->. simpl. by rewrite bindUI_no_modelList. }
  apply Hnone. simpl. rewrite Hdata. by destruct (container this).
Qed.

Lemma render_throws_without_modelList_witness :
  render (fun _ => []) (a_view [] None) ∅ = None.
Proof. apply render_throws_without_modelList; reflexivity. Defined.

(** ** _createRowTemplate: when it throws, building again, distinct tokens *)

Lemma join_empty_cons s l : join "" (s :: l) = s +:+ join "" l.
Proof.
  unfold join. destruct l as [|s' l]; simpl; [by rewrite string_app_nil_r|done].
Qed.

Lemma cell_html_is_Some this col token :
  is_Some (cell_html this col token) ↔ is_Some (headers col).
Proof.
  unfold cell_html. destruct (headers col) as [hs|]; simpl.
  - split; intros _; by eexists.
  - split; intros [? ?]; done.
Qed.

Lemma has_headers_insert h r col t r' :
  h !! r = Some col →
  has_headers (<[r := set_renderToken t col]> h) r' ↔ has_headers h r'.
Proof.
  intros Hr. unfold has_headers. destruct (decide (r' = r)) as [->|Hne].
  - rewrite lookup_insert_eq, Hr. split; intros (c & [= <-] & Hh); eauto.
  - by rewrite lookup_insert_ne.
Qed.

Lemma _createRowTemplate_loop_is_Some this cols :
  ∀ h tokens html,
  is_Some (_createRowTemplate_loop this cols h tokens html)
  ↔ Forall (has_headers h) cols.
Proof.
  induction cols as [|r cols IH]; intros h tokens html.
  - simpl. split; [constructor|by eexists].
  - rewrite Forall_cons. cbn [_createRowTemplate_loop].
    destruct (h !! r) as [col|] eqn:Hr; cbn [mbind option_bind].
    + destruct (next_token col tokens) as [token tokens'].
      destruct (cell_html this col token) as [cell|] eqn:Hcell;
        cbn [mbind option_bind].
      * rewrite IH.
        assert (Hh : is_Some (headers col)).
        { apply (cell_html_is_Some this col token). by eexists. }
        split.
        -- intros Hall. split; [by exists col|].
           eapply Forall_impl; [exact Hall|]. intros r'.
           by apply has_headers_insert.
        -- intros [_ Hall]. eapply Forall_impl; [exact Hall|]. intros r'.
           by apply has_headers_insert.
      * split; [by intros [? ?]|]. intros [(c & Hc & Hh) _].
        rewrite Hr in Hc. injection Hc as <-.
        apply (cell_html_is_Some this col token) in Hh.
        rewrite Hcell in Hh. by destruct Hh.
    + split; [by intros [? ?]|]. intros [(c & Hc & _) _]. congruence.
Qed.

(** The row template is built exactly when every column is there and has
    headers to join. *)
Lemma _createRowTemplate_is_Some this cols h :
  is_Some (_createRowTemplate this cols h) ↔ Forall (has_headers h) cols.
Proof.
  rewrite <-(_createRowTemplate_loop_is_Some this cols h ∅ "").
  unfold _createRowTemplate.
  destruct (_createRowTemplate_loop this cols h ∅ "") as [[h' html]|]; simpl.
  - split; intros _; by eexists.
  - split; intros [? ?]; done.
Qed.

Lemma not_has_headers h r : ¬ has_headers h r ↔ lacks_headers h r.
Proof.
  unfold has_headers, lacks_headers. split.
  - intros Hn col Hr. destruct (headers col) as [hs|] eqn:Hh; [|done].
    destruct Hn. exists col. split; [done|]. by rewrite Hh.
  - intros Hl (col & Hr & [hs Hh]). rewrite (Hl col Hr) in Hh. done.
Qed.

Lemma has_headers_dec h r : has_headers h r ∨ lacks_headers h r.
Proof.
  destruct (h !! r) as [col|] eqn:Hr.
  - destruct (headers col) as [hs|] eqn:Hh.
    + left. exists col. split; [done|]. by rewrite Hh.
    + right. intros c Hc. congruence.
  - right. intros c Hc. congruence.
Qed.

Lemma not_all_have_headers h cols :
  ¬ Forall (has_headers h) cols ↔ ∃ r, r ∈ cols ∧ lacks_headers h r.
Proof.
  split.
  - induction cols as [|r cols IH]; intros Hn; [by destruct Hn|].
    destruct (has_headers_dec h r) as [Hr|Hr].
    + destruct IH as (r' & Hin & Hl).
      { intros Hall. apply Hn. by constructor. }
      exists r'. split; [by right|done].
    + exists r. split; [left|done].
  - intros (r & Hin & Hl) Hall. rewrite Forall_forall in Hall.
    apply (proj2 (not_has_headers h r) Hl). by apply Hall.
Qed.

(** X1.  _createRowTemplate throws exactly when one of the columns it is
    handed is missing or has no [headers] to join (line 581); nothing else
    makes it fail, whatever the keys, names and formatters are. *)
Theorem createRowTemplate_throws_iff this cols h :
  _createRowTemplate this cols h = None ↔ ∃ r, r ∈ cols ∧ lacks_headers h r.
Proof.
  rewrite eq_None_not_Some, _createRowTemplate_is_Some.
  apply not_all_have_headers.
Qed.

Lemma same_config_set_renderToken t c c' :
  same_config c c' → set_renderToken t c = set_renderToken t c'.
Proof.
  unfold same_config. intros H.
  pose proof (f_equal (set_renderToken t) H) as Ht. exact Ht.
Qed.

Lemma cell_html_prefix this this' col t :
  _cssPrefix this = _cssPrefix this' →
  cell_html this col t = cell_html this' col t.
Proof. intros Hp. unfold cell_html, getClassName. by rewrite Hp. Qed.

(** Two runs of the loop from stores that hold the same columns, up to
    their tokens: the markup is the same, and the columns of the array
    are left equal. *)
Lemma _createRowTemplate_loop_rel this this' cols :
  _cssPrefix this = _cssPrefix this' →
  ∀ h g tokens html h1 html1,
  (∀ r, r ∈ cols → ∃ c c', h !! r = Some c ∧ g !! r = Some c' ∧ same_config c c') →
  _createRowTemplate_loop this cols h tokens html = Some (h1, html1) →
  ∃ g1, _createRowTemplate_loop this' cols g tokens html = Some (g1, html1)
    ∧ (∀ r, r ∈ cols → g1 !! r = h1 !! r)
    ∧ (∀ r, r ∉ cols → g1 !! r = g !! r)
    ∧ (∀ r, r ∉ cols → h1 !! r = h !! r).
Proof.
  intros Hp. induction cols as [|r cols IH]; intros h g tokens html h1 html1 Hrel Hloop.
  - simpl in *. injection Hloop as <- <-. exists g. split; [done|].
    split; [by intros r ?%elem_of_nil|]. done.
  - destruct (Hrel r) as (c & c' & Hr & Hr' & Hc); [left|].
    cbn [_createRowTemplate_loop] in *. rewrite Hr in Hloop. rewrite Hr'.
    cbn [mbind option_bind] in *.
    rewrite <-(same_config_next_token c c') by done.
    destruct (next_token c tokens) as [token tokens'].
    rewrite <-(same_config_cell_html this' c c'), <-(cell_html_prefix this this')
      by done.
    destruct (cell_html this c token) as [cell|]; [|done].
    cbn [mbind option_bind] in *.
    rewrite <-(same_config_set_renderToken token c c') by done.
    destruct (IH (<[r := set_renderToken token c]> h)
                 (<[r := set_renderToken token c]> g) tokens' (html +:+ cell)
                 h1 html1) as (g1 & Hrun & Hin & Hg & Hh); [|done|].
    { intros r' Hr0. destruct (decide (r' = r)) as [->|Hne].
      - rewrite !lookup_insert_eq. eauto using same_config_refl.
      - rewrite !lookup_insert_ne by done. apply Hrel. by right. }
    exists g1. split; [done|]. split; [|split].
    + intros r' Hr0. destruct (decide (r' ∈ cols)) as [Hcols|Hcols]; [by apply Hin|].
      apply elem_of_cons in Hr0 as [->|?]; [|done].
      rewrite (Hg r Hcols), (Hh r Hcols). by rewrite !lookup_insert_eq.
    + intros r' [Hne Hr0]%not_elem_of_cons.
      rewrite (Hg r' Hr0). by rewrite lookup_insert_ne.
    + intros r' [Hne Hr0]%not_elem_of_cons.
      rewrite (Hh r' Hr0). by rewrite lookup_insert_ne.
Qed.

(** The loop changes the tokens of the columns and nothing else. *)
Lemma _createRowTemplate_loop_same_config this cols :
  ∀ h tokens html h1 html1,
  _createRowTemplate_loop this cols h tokens html = Some (h1, html1) →
  ∀ r c, h !! r = Some c → ∃ c', h1 !! r = Some c' ∧ same_config c c'.
Proof.
  induction cols as [|r cols IH]; intros h tokens html h1 html1 Hloop r0 c0 Hr0.
  - simpl in Hloop. injection Hloop as <- <-. eauto using same_config_refl.
  - cbn [_createRowTemplate_loop] in Hloop.
    destruct (h !! r) as [c|] eqn:Hr; [|done]. cbn [mbind option_bind] in Hloop.
    destruct (next_token c tokens) as [token tokens'].
    destruct (cell_html this c token) as [cell|]; [|done].
    cbn [mbind option_bind] in Hloop.
    destruct (decide (r0 = r)) as [->|Hne].
    + destruct (IH _ _ _ _ _ Hloop r (set_renderToken token c))
        as (c' & Hc' & Hsame); [by rewrite lookup_insert_eq|].
      exists c'. split; [done|]. rewrite Hr in Hr0. injection Hr0 as <-.
      unfold same_config in *. by rewrite <-Hsame.
    + apply (IH _ _ _ _ _ Hloop). by rewrite lookup_insert_ne.
Qed.

Lemma _createRowTemplate_loop_refs this cols :
  ∀ h tokens html,
  is_Some (_createRowTemplate_loop this cols h tokens html) →
  ∀ r, r ∈ cols → is_Some (h !! r).
Proof.
  intros h tokens html Hsome r Hr.
  apply _createRowTemplate_loop_is_Some in Hsome.
  rewrite Forall_forall in Hsome. destruct (Hsome r Hr) as (c & -> & _).
  by eexists.
Qed.

Lemma _createRowTemplate_again this cols h h' this' :
  _createRowTemplate this cols h = Some (h', this') →
  _createRowTemplate this' cols h' = Some (h', this').
Proof.
  unfold _createRowTemplate. intros Hrun.
  destruct (_createRowTemplate_loop this cols h ∅ "") as [[h1 html]|] eqn:Hloop;
    [|done].
  simpl in Hrun. injection Hrun as <- <-.
  destruct (_createRowTemplate_loop_rel this
              (set_rowTemplate (fromTemplate ROW_TEMPLATE {["content" := JStr html]}) this)
              cols eq_refl h h1 ∅ "" h1 html) as (g1 & Hrun & Hin & Hg & _);
    [|done|].
  { intros r Hr.
    destruct (_createRowTemplate_loop_refs this cols h ∅ "" (mk_is_Some _ _ Hloop) r Hr)
      as [c Hc].
    destruct (_createRowTemplate_loop_same_config this cols h ∅ "" h1 html Hloop r c Hc)
      as (c' & Hc' & Hsame).
    eauto. }
  rewrite Hrun. simpl. do 2 f_equal.
  apply map_eq. intros r. destruct (decide (r ∈ cols)); auto.
Qed.

Lemma _createRowTemplate_loop_prefix this this' cols :
  _cssPrefix this = _cssPrefix this' →
  ∀ h tokens html,
  _createRowTemplate_loop this cols h tokens html
  = _createRowTemplate_loop this' cols h tokens html.
Proof.
  intros Hp. induction cols as [|r cols IH]; intros h tokens html; [done|].
  cbn [_createRowTemplate_loop]. destruct (h !! r) as [col|]; [|done].
  cbn [mbind option_bind]. destruct (next_token col tokens) as [token tokens'].
  rewrite (cell_html_prefix this this') by done.
  destruct (cell_html this' col token); [|done]. cbn [mbind option_bind].
  apply IH.
Qed.

(** What _createRowTemplate gives: the view with its row template set. *)
Lemma _createRowTemplate_result this cols h h1 this1 :
  _createRowTemplate this cols h = Some (h1, this1) →
  ∃ t, this1 = set_rowTemplate t this
    ∧ ∀ this', _cssPrefix this' = _cssPrefix this →
        _createRowTemplate this' cols h = Some (h1, set_rowTemplate t this').
Proof.
  unfold _createRowTemplate. intros Hrun.
  destruct (_createRowTemplate_loop this cols h ∅ "") as [[h2 html]|] eqn:Hloop;
    [|done].
  simpl in Hrun. injection Hrun as <- <-. eexists. split; [done|].
  intros this' Hp.
  rewrite <-(_createRowTemplate_loop_prefix this this') by done.
  by rewrite Hloop.
Qed.

Lemma _createRowTemplate_refs this cols h h1 this1 :
  _createRowTemplate this cols h = Some (h1, this1) →
  Forall (fun r => is_Some (h1 !! r)) cols.
Proof.
  intros Hrun.
  assert (Hh : Forall (has_headers h) cols).
  { apply (_createRowTemplate_is_Some this). by rewrite Hrun. }
  unfold _createRowTemplate in Hrun.
  destruct (_createRowTemplate_loop this cols h ∅ "") as [[h2 html]|] eqn:Hloop;
    [|done].
  simpl in Hrun. injection Hrun as <- <-.
  eapply Forall_impl; [exact Hh|]. intros r (c & Hc & _).
  destruct (_createRowTemplate_loop_same_config this cols h ∅ "" h2 html Hloop r c Hc)
    as (c' & -> & _). by eexists.
Qed.

(** X2.  Building the row template again changes nothing: from the
    columns as the first build left them, a second build, from any view
    with the same class prefix, gives the same row template and leaves
    every column, its [_renderToken] included, as it is.  This holds also
    when a configuration object is listed more than once. *)
Theorem createRowTemplate_idempotent this cols h h' this' :
  _createRowTemplate this cols h = Some (h', this') →
  ∃ t, _rowTemplate this' = Some t
    ∧ ∀ v, _cssPrefix v = _cssPrefix this →
        _createRowTemplate v cols h' = Some (h', set_rowTemplate t v).
Proof.
  intros Hrun.
  destruct (_createRowTemplate_result _ _ _ _ _ Hrun) as (t0 & Hthis' & _).
  pose proof (_createRowTemplate_again _ _ _ _ _ Hrun) as Hagain.
  destruct (_createRowTemplate_result _ _ _ _ _ Hagain) as (t & Heq & Hany).
  exists t. split; [by rewrite Heq|].
  intros v Hv. apply Hany. by rewrite Hv, Hthis'.
Qed.

Lemma createRowTemplate_idempotent_witness :
  ∃ h' this' t,
    _createRowTemplate (a_view [0; 1; 1] None) [0; 1; 1]
      {[ 0 := key_column "x"; 1 := key_column "x" ]} = Some (h', this')
    ∧ _rowTemplate this' = Some t
    ∧ _createRowTemplate this' [0; 1; 1] h' = Some (h', set_rowTemplate t this').
Proof.
  destruct (_createRowTemplate (a_view [0; 1; 1] None) [0; 1; 1]
              {[ 0 := key_column "x"; 1 := key_column "x" ]})
    as [[h' this']|] eqn:E; [|vm_compute in E; discriminate E].
  destruct (createRowTemplate_idempotent _ _ _ _ _ E) as (t & Ht & Hany).
  exists h', this', t. split; [reflexivity|]. split; [exact Ht|].
  apply Hany. vm_compute in E. injection E as _ <-. reflexivity.
Defined.

Lemma _createRowTemplate_loop_frame this cols :
  ∀ h tokens html h1 html1,
  _createRowTemplate_loop this cols h tokens html = Some (h1, html1) →
  ∀ r, r ∉ cols → h1 !! r = h !! r.
Proof.
  induction cols as [|r cols IH]; intros h tokens html h1 html1 Hloop r0 Hr0.
  - simpl in Hloop. by injection Hloop as <- <-.
  - apply not_elem_of_cons in Hr0 as [Hne Hr0].
    cbn [_createRowTemplate_loop] in Hloop.
    destruct (h !! r) as [c|]; [|done]. cbn [mbind option_bind] in Hloop.
    destruct (next_token c tokens) as [token tokens'].
    destruct (cell_html this c token) as [cell|]; [|done].
    cbn [mbind option_bind] in Hloop.
    rewrite (IH _ _ _ _ _ Hloop r0 Hr0). by rewrite lookup_insert_ne.
Qed.

(** X26.  What _createRowTemplate leaves alone: of a column object it
    changes the [_renderToken] and nothing else, objects that are not among
    the columns are untouched, no object is added, and of the view only the
    row template is set. *)
Theorem createRowTemplate_changes_tokens_only this cols h h' this' :
  _createRowTemplate this cols h = Some (h', this') →
  (∀ r c, h !! r = Some c → ∃ c', h' !! r = Some c' ∧ same_config c c')
  ∧ (∀ r, r ∉ cols → h' !! r = h !! r)
  ∧ (∀ r, h !! r = None → h' !! r = None)
  ∧ ∃ t, this' = set_rowTemplate t this.
Proof.
  intros Hrun.
  destruct (_createRowTemplate_result _ _ _ _ _ Hrun) as (t & Hthis & _).
  unfold _createRowTemplate in Hrun.
  destruct (_createRowTemplate_loop this cols h ∅ "") as [[h1 html]|] eqn:Hloop;
    [|done].
  cbn [mbind option_bind] in Hrun. injection Hrun as <- _.
  split; [|split; [|split]].
  - by eapply _createRowTemplate_loop_same_config.
  - by eapply _createRowTemplate_loop_frame.
  - intros r Hr. destruct (decide (r ∈ cols)) as [Hin|Hout].
    + destruct (_createRowTemplate_loop_refs this cols h ∅ ""
                  (mk_is_Some _ _ Hloop) r Hin) as [c Hc]. congruence.
    + rewrite <-Hr. by eapply _createRowTemplate_loop_frame.
  - by exists t.
Qed.

Lemma createRowTemplate_changes_tokens_only_witness :
  ∃ h' this' c',
    _createRowTemplate (a_view [0] None) [0] name_age = Some (h', this')
    ∧ h' !! 0 = Some c'
    ∧ same_config (key_column "name") c'
    ∧ h' !! 1 = name_age !! 1.
Proof.
  destruct (_createRowTemplate (a_view [0] None) [0] name_age)
    as [[h' this']|] eqn:E; [|vm_compute in E; discriminate E].
  destruct (createRowTemplate_changes_tokens_only _ _ _ _ _ E)
    as (Hsame & Hframe & _).
  destruct (Hsame 0 (key_column "name") eq_refl) as (c' & Hc' & Hs).
  exists h', this', c'. split; [reflexivity|]. split; [exact Hc'|].
  split; [exact Hs|]. apply Hframe.
  intros Hin. apply list_elem_of_singleton in Hin. discriminate Hin.
Defined.



















Lemma cells_html_cells this columns :
  ∀ tokens html,
  List.length tokens = List.length columns →
  cells_html this columns tokens = Some html →
  ∃ cells, Forall2 (fun ct cell => cell_html this ct.1 ct.2 = Some cell)
             (zip columns tokens) cells
    ∧ html = join "" cells.
Proof.
  induction columns as [|col columns IH]; intros [|t tokens] html Hlen Hcells;
    try done.
  - injection Hcells as <-. by exists [].
  - simpl in Hcells.
    destruct (cell_html this col t) as [cell|] eqn:Hcell; [|done].
    destruct (cells_html this columns tokens) as [rest|] eqn:Hrest; [|done].
    simpl in Hcells. injection Hcells as <-.
    destruct (IH tokens rest) as (cells & Hall & ->); [simpl in Hlen; lia|done|].
    exists (cell :: cells). split; [by constructor|].
    by rewrite join_empty_cons.
Qed.

(** X25.  The row template has one cell per column, in the order of the
    columns, a column with a nodeFormatter included: it is the row markup
    of ROW_TEMPLATE around the cells that CELL_TEMPLATE gives for each
    column and the token assigned to it, so that the position of a cell in
    a row is the position of its column. *)
Theorem row_template_has_a_cell_per_column this cols columns h h' this' :
  Forall2 (fun r col => h !! r = Some col) cols columns →
  _createRowTemplate this cols h = Some (h', this') →
  ∃ cells,
    List.length cells = List.length cols
    ∧ Forall2 (fun ct cell => cell_html this ct.1 ct.2 = Some cell)
        (zip columns (assigned_tokens columns ∅)) cells
    ∧ _rowTemplate this'
      = Some ("<tr id=" +:+ q +:+ "{clientId}" +:+ q +:+ " class=" +:+ q
              +:+ "{rowClasses}" +:+ q +:+ ">" +:+ join "" cells +:+ "</tr>").
Proof.
  intros Hcols Hrun. unfold _createRowTemplate in Hrun.
  pose proof (_createRowTemplate_loop_cells this cols columns h ∅ "") as Hloop.
  destruct (_createRowTemplate_loop this cols h ∅ "") as [[h1 html]|]; [|done].
  cbn [mbind option_bind] in Hrun. injection Hrun as <- <-.
  simpl in Hloop.
  destruct (cells_html this columns (assigned_tokens columns ∅)) as [html'|] eqn:Hc.
  2:{ exfalso. enough (Some html = None) by done. apply Hloop.
      eapply Forall2_impl; [exact Hcols|]. intros r col Hr.
      exists col. split; [done|]. apply same_config_refl. }
  assert (html = html') as ->.
  { enough (Some html = Some html') as [= ->] by done. apply Hloop.
    eapply Forall2_impl; [exact Hcols|]. intros r col Hr.
    exists col. split; [done|]. apply same_config_refl. }
  destruct (cells_html_cells this columns _ html' (assigned_tokens_length _ _) Hc)
    as (cells & Hall & ->).
  exists cells. split; [|split; [done|]].
  - apply Forall2_length in Hall, Hcols.
    rewrite length_zip, assigned_tokens_length in Hall. lia.
  - simpl. by rewrite fromTemplate_ROW_TEMPLATE.
Qed.

Lemma row_template_has_a_cell_per_column_witness :
  ∃ h' this' cells,
    _createRowTemplate (a_view [0; 1] None) [0; 1]
      {[ 0 := key_column "name"; 1 := deferred_column ]} = Some (h', this')
    ∧ List.length cells = 2
    ∧ _rowTemplate this'
      = Some ("<tr id=" +:+ q +:+ "{clientId}" +:+ q +:+ " class=" +:+ q
              +:+ "{rowClasses}" +:+ q +:+ ">" +:+ join "" cells +:+ "</tr>").
Proof.
  destruct (_createRowTemplate (a_view [0; 1] None) [0; 1]
              {[ 0 := key_column "name"; 1 := deferred_column ]})
    as [[h' this']|] eqn:E; [|vm_compute in E; discriminate E].
  destruct (row_template_has_a_cell_per_column (a_view [0; 1] None) [0; 1]
              [key_column "name"; deferred_column]
              {[ 0 := key_column "name"; 1 := deferred_column ]} h' this')
    as (cells & Hlen & _ & Ht).
  - repeat constructor.
  - exact E.
  - exists h', this', cells. split; [reflexivity|]. split; [exact Hlen|exact Ht].
Defined.

(** ** _parseColumns: objects listed twice, flattening the result again *)

Lemma indexed_last_push h cols r c :
  indexed_last h cols →
  indexed_last (<[r := set_index (List.length cols) c]> h) (cols ++ [r]).
Proof.
  intros Hind i r' Hi Hlast.
  destruct (decide (i < List.length cols)) as [Hlt|Hge].
  - rewrite lookup_app_l in Hi by done.
    rewrite drop_app_le in Hlast by lia.
    apply not_elem_of_app in Hlast as [Hlast Hne].
    apply not_elem_of_cons in Hne as [Hne _].
    rewrite lookup_insert_ne by done. by apply Hind.
  - rewrite lookup_app_r in Hi by lia.
    destruct (i - List.length cols) as [|n] eqn:E; [|done].
    injection Hi as <-. rewrite lookup_insert_eq. simpl.
    do 2 f_equal. lia.
Qed.

Lemma data_columns_push h cols r c :
  is_data_column c = true →
  (∀ c0, h !! r = Some c0 → same_but_index c c0) →
  data_columns h cols →
  data_columns (<[r := set_index (List.length cols) c]> h) (cols ++ [r]).
Proof.
  intros Hc Hsame Hall. apply Forall_app. split.
  - eapply Forall_impl; [exact Hall|]. intros r' (c' & Hr' & Hc').
    destruct (decide (r' = r)) as [->|Hne].
    + rewrite lookup_insert_eq. eexists. split; [done|].
      by rewrite (same_but_index_is_data_column _ c)
        by apply same_but_index_set_index.
    + rewrite lookup_insert_ne by done. eauto.
  - constructor; [|constructor]. rewrite lookup_insert_eq.
    eexists. split; [done|].
    by rewrite (same_but_index_is_data_column _ c)
      by apply same_but_index_set_index.
Qed.


Lemma gathered_push r c st :
  is_data_column c = true →
  (∀ c0, st.1 !! r = Some c0 → same_but_index c c0) →
  gathered st → gathered (push_column r c st).
Proof.
  intros Hc Hsame [Hind Hdata]. destruct st as [h cols]. split; simpl in *.
  - by apply indexed_last_push.
  - by apply data_columns_push.
Qed.

Lemma each_gathered data :
  Forall (fun e => ∀ st st',
            _parseColumns_col e st = Some st' → gathered st → gathered st') data →
  ∀ st st', each _parseColumns_col data st = Some st' → gathered st → gathered st'.
Proof.
  induction 1 as [|e data He Hdata IH]; intros st st' Hrun Hst.
  - simpl in Hrun. by injection Hrun as <-.
  - simpl in Hrun.
    destruct (_parseColumns_col e st) as [st1|] eqn:Hcol; [|done].
    simpl in Hrun. eauto.
Qed.

Lemma _parseColumns_col_gathered e :
  ∀ st st', _parseColumns_col e st = Some st' → gathered st → gathered st'.
Proof.
  induction e as [s|r|r|r data IH] using colconf_nested_ind;
    intros st st' Hrun Hst; cbn [_parseColumns_col] in Hrun.
  - destruct (is_data_column (new_column s)) eqn:Hs;
      injection Hrun as <-; [|done].
    apply gathered_push; [done| |done].
    intros c0 Hc0.
    assert (st.1 !! fresh (dom st.1) = None) by apply not_elem_of_dom, is_fresh.
    congruence.
  - destruct (st.1 !! r) as [c|] eqn:Hr; [|done]. simpl in Hrun.
    destruct (is_data_column c) eqn:Hc; injection Hrun as <-; [|done].
    apply gathered_push; [done| |done]. intros c0 Hc0.
    rewrite Hr in Hc0. by injection Hc0 as <-.
  - destruct (st.1 !! r) as [c|] eqn:Hr; [|done]. simpl in Hrun.
    destruct (is_data_column c) eqn:Hc; injection Hrun as <-; [|done].
    apply gathered_push; [done| |done]. intros c0 Hc0.
    rewrite Hr in Hc0. by injection Hc0 as <-.
  - destruct (st.1 !! r) as [c|] eqn:Hr; [|done]. simpl in Hrun.
    destruct (is_data_column c) eqn:Hc.
    + injection Hrun as <-.
      apply gathered_push; [done| |done]. intros c0 Hc0.
      rewrite Hr in Hc0. by injection Hc0 as <-.
    + by eapply each_gathered.
Qed.

Lemma _parseColumns_gathered data h h' out :
  _parseColumns data None h = Some (h', out) → gathered (h', out).
Proof.
  intros Hrun. unfold _parseColumns in Hrun. simpl in Hrun.
  assert (Hnil : gathered (h, [])).
  { split; [by intros i r ?|constructor]. }
  destruct data as [| |data]; try (by injection Hrun as <- <-).
  eapply each_gathered; [|exact Hrun|exact Hnil].
  apply Forall_forall. intros e _. apply _parseColumns_col_gathered.
Qed.

(** X4.  Whatever configuration the flattener is handed, also one that
    lists a configuration object several times: every column it returns is
    an object with a truthy key, formatter or nodeFormatter, and the index
    the object holds is the position at which it occurs last in the
    result. *)
Theorem parseColumns_index_is_last_position data h h' out :
  _parseColumns data None h = Some (h', out) →
  ∀ i r, out !! i = Some r →
    ∃ c, h' !! r = Some c
      ∧ is_data_column c = true
      ∧ (r ∉ drop (S i) out → index c = Some i).
Proof.
  intros Hrun i r Hi.
  destruct (_parseColumns_gathered data h h' out Hrun) as [Hind Hdata].
  simpl in *. unfold data_columns in Hdata. rewrite Forall_forall in Hdata.
  destruct (Hdata r) as (c & Hc & Hd); [by eapply list_elem_of_lookup_2|].
  exists c. split; [done|]. split; [done|].
  intros Hlast. specialize (Hind i r Hi Hlast). rewrite Hc in Hind.
  simpl in Hind. by injection Hind.
Qed.

Lemma parseColumns_index_is_last_position_witness :
  ∃ h' c,
    _parseColumns (Array listed_twice) None {[ 0 := key_column "a" ]}
    = Some (h', [0; 0])
    ∧ h' !! 0 = Some c ∧ index c = Some 1.
Proof.
  destruct (_parseColumns (Array listed_twice) None {[ 0 := key_column "a" ]})
    as [[h' out]|] eqn:E; [|vm_compute in E; discriminate E].
  assert (Hout : out = [0; 0]).
  { vm_compute in E. injection E as _ <-. reflexivity. }
  subst out.
  destruct (parseColumns_index_is_last_position _ _ _ _ E 1 0 eq_refl)
    as (c & Hc & _ & Hi).
  exists h', c. split; [reflexivity|]. split; [exact Hc|].
  apply Hi. simpl. apply not_elem_of_nil.
Defined.

Lemma set_index_set_index i j c : set_index i (set_index j c) = set_index i c.
Proof. done. Qed.

Lemma set_index_same i c : index c = Some i → set_index i c = c.
Proof. destruct c. simpl. by intros ->. Qed.

Lemma last_occurrence {A} `{EqDecision A} (l : list A) x :
  x ∈ l → ∃ i, l !! i = Some x ∧ x ∉ drop (S i) l.
Proof.
  induction l as [|y l IH]; [by intros ?%elem_of_nil|].
  intros Hin. destruct (decide (x ∈ l)) as [Hl|Hl].
  - destruct (IH Hl) as (i & Hi & Hlast). by exists (S i).
  - apply elem_of_cons in Hin as [->|?]; [|done].
    exists 0. split; [done|]. simpl. by rewrite drop_0.
Qed.

(** The flattener on a configuration that lists columns with something
    to show: every column is appended and gets the position of its last
    occurrence; the children are not looked at. *)
Lemma each_listed confs l :
  lists confs l →
  ∀ g acc,
  data_columns g l →
  ∃ g', each _parseColumns_col confs (g, acc) = Some (g', acc ++ l)
    ∧ (∀ r, r ∉ l → g' !! r = g !! r)
    ∧ (∀ i r, l !! i = Some r → r ∉ drop (S i) l →
         g' !! r = set_index (List.length acc + i) <$> g !! r).
Proof.
  induction 1 as [|e a confs l [children ->] Hall IH]; intros g acc Hdata.
  - exists g. rewrite app_nil_r. split; [done|]. split; [done|].
    by intros i r ?.
  - apply Forall_cons in Hdata as [(c & Ha & Hc) Hdata].
    destruct (IH (<[a := set_index (List.length acc) c]> g) (acc ++ [a]))
      as (g' & Hrun & Hout & Hin).
    { eapply Forall_impl; [exact Hdata|]. intros r (c' & Hr & Hc').
      destruct (decide (r = a)) as [->|Hne].
      - rewrite lookup_insert_eq. eexists. split; [done|].
        by rewrite (same_but_index_is_data_column _ c)
          by apply same_but_index_set_index.
      - rewrite lookup_insert_ne by done. eauto. }
    exists g'. split; [|split].
    + cbn [each _parseColumns_col fst snd].
      rewrite Ha. cbn [mbind option_bind]. rewrite Hc.
      cbn [mbind option_bind]. unfold push_column. cbn [fst snd].
      rewrite Hrun. by rewrite <-app_assoc.
    + intros r [Hne Hr]%not_elem_of_cons.
      rewrite (Hout r Hr). by rewrite lookup_insert_ne.
    + intros [|i] r Hi Hlast.
      * injection Hi as <-. simpl in Hlast. rewrite drop_0 in Hlast.
        rewrite (Hout a Hlast), lookup_insert_eq, Ha. simpl.
        by rewrite Nat.add_0_r.
      * simpl in Hi, Hlast. rewrite (Hin i r Hi Hlast).
        rewrite length_app. simpl.
        replace (List.length acc + 1 + i) with (List.length acc + S i) by lia.
        destruct (decide (r = a)) as [->|Hne].
        -- by rewrite lookup_insert_eq, Ha.
        -- by rewrite lookup_insert_ne.
Qed.

Lemma listed_gathered confs h out :
  lists confs out →
  gathered (h, out) →
  _parseColumns (Array confs) None h = Some (h, out).
Proof.
  intros Hlists [Hind Hdata]. simpl in *.
  destruct (each_listed confs out Hlists h [] Hdata) as (g' & Hrun & Hout & Hin).
  unfold _parseColumns. simpl. rewrite Hrun. do 2 f_equal.
  apply map_eq. intros r.
  destruct (decide (r ∈ out)) as [Hr|Hr]; [|by apply Hout].
  destruct (last_occurrence out r Hr) as (i & Hi & Hlast).
  rewrite (Hin i r Hi Hlast). simpl.
  specialize (Hind i r Hi Hlast).
  destruct (h !! r) as [c|]; [|done]. simpl in *.
  injection Hind as Hind. by rewrite set_index_same.
Qed.

Lemma lists_flat_config cols : lists (flat_config cols) cols.
Proof.
  induction cols as [|r cols IH]; [constructor|].
  constructor; [by eexists|done].
Qed.

(** X5.  Flattening is idempotent: the column objects the flattener
    returned, handed to it again one by one, with or without their
    children, come back as the same array, and every configuration object
    is left as it is. *)
Theorem parseColumns_idempotent data h h' out confs :
  _parseColumns data None h = Some (h', out) →
  lists confs out →
  _parseColumns (Array confs) None h' = Some (h', out).
Proof.
  intros Hrun Hlists. apply listed_gathered; [done|].
  by eapply _parseColumns_gathered.
Qed.

Lemma parseColumns_idempotent_witness :
  ∃ h' out,
    _parseColumns (Array nested_data) None nested_store = Some (h', out)
    ∧ List.length out = 3
    ∧ _parseColumns (Array (flat_config out)) None h' = Some (h', out).
Proof.
  destruct (_parseColumns (Array nested_data) None nested_store)
    as [[h' out]|] eqn:E; [|vm_compute in E; discriminate E].
  exists h', out. split; [reflexivity|]. split.
  - vm_compute in E. injection E as _ <-. reflexivity.
  - exact (parseColumns_idempotent _ _ _ _ _ E (lists_flat_config out)).
Defined.

(** ** _createDataHTML and the columns of a row *)

Lemma _createDataHTML_each_rows this h models :
  ∀ index html0 html,
  _createDataHTML_each this h models index html0 = Some html
  ↔ ∃ rows, html = html0 +:+ join "" rows
      ∧ List.length rows = List.length models
      ∧ ∀ i model, models !! i = Some model →
          _createRowHTML this h model (index + i) = rows !! i.
Proof.
  induction models as [|m models IH]; intros index html0 html.
  - simpl. split.
    + intros [= <-]. exists []. split; [by rewrite string_app_nil_r|].
      split; [done|]. by intros i model ?.
    + intros (rows & -> & Hlen & _). destruct rows; [|done].
      by rewrite string_app_nil_r.
  - cbn [_createDataHTML_each]. split.
    + destruct (_createRowHTML this h m index) as [row|] eqn:Hrow; [|done].
      cbn [mbind option_bind]. intros (rows & -> & Hlen & Hrows)%IH.
      exists (row :: rows). split; [|split].
      * by rewrite join_empty_cons, string_app_assoc.
      * simpl. by rewrite Hlen.
      * intros [|i] model Hi; simpl in *.
        -- injection Hi as <-. by rewrite Nat.add_0_r.
        -- rewrite <-(Hrows i model Hi). f_equal. lia.
    + intros (rows & -> & Hlen & Hrows).
      destruct rows as [|row rows]; [done|].
      pose proof (Hrows 0 m eq_refl) as Hrow. rewrite Nat.add_0_r in Hrow.
      simpl in Hrow. rewrite Hrow. cbn [mbind option_bind].
      apply IH. exists rows. split; [|split].
      * by rewrite join_empty_cons, string_app_assoc.
      * simpl in Hlen. lia.
      * intros i model Hi. pose proof (Hrows (S i) model Hi) as Hi'.
        change ((row :: rows) !! S i) with (rows !! i) in Hi'.
        rewrite <-Hi'. f_equal. lia.
Qed.

(** X6.  The markup of _createDataHTML is the concatenation, in the order
    of the modelList, of the rows that _createRowHTML gives for each Model
    at its position, counted from 0; it throws exactly when one of these
    rows throws.  Without a modelList, or with an empty one, it is the
    empty string. *)
Theorem createDataHTML_is_the_rows_in_order this h html :
  _createDataHTML this h = Some html
  ↔ ∃ rows, html = join "" rows
      ∧ List.length rows = List.length (default [] (modelList this))
      ∧ ∀ i model, default [] (modelList this) !! i = Some model →
          _createRowHTML this h model i = rows !! i.
Proof.
  unfold _createDataHTML. destruct (modelList this) as [data|]; simpl.
  - apply (_createDataHTML_each_rows this h data 0 "" html).
  - split.
    + intros [= <-]. exists []. split; [done|]. split; [done|].
      by intros i model ?.
    + intros (rows & -> & Hlen & _). by destruct rows.
Qed.

Lemma _createRowHTML_loop_app h model index pre post :
  ∀ values data,
  _createRowHTML_loop h model index (pre ++ post) values data
  = '(values1, data1) ← _createRowHTML_loop h model index pre values data;
    _createRowHTML_loop h model index post values1 data1.
Proof.
  induction pre as [|r pre IH]; intros values data; [done|].
  simpl. destruct (_createRowHTML_col h model index r values data)
    as [[values1 data1]|]; [|done].
  simpl. apply IH.
Qed.

Lemma _createRowHTML_loop_other h model index cols k :
  ∀ values data values' data',
  Forall (fun r => ∃ c, h !! r = Some c
            ∧ k ≠ prop_name (row_token c)
            ∧ k ≠ prop_name (row_token c) +:+ "-classes") cols →
  _createRowHTML_loop h model index cols values data = Some (values', data') →
  values' !! k = values !! k.
Proof.
  induction cols as [|r cols IH]; intros values data values' data' Hcols Hloop.
  - by injection Hloop as <- <-.
  - apply Forall_cons in Hcols as [(col & Hr & Hk1 & Hk2) Hcols].
    simpl in Hloop.
    destruct (_createRowHTML_col h model index r values data)
      as [[values1 data1]|] eqn:Hcol; [|done].
    simpl in Hloop. rewrite (IH _ _ _ _ Hcols Hloop).
    by eapply _createRowHTML_col_other.
Qed.

(** X7.  When several columns of a row are bound under one name (two
    columns that hold the same token, or a token that is rowClasses or
    clientId), the value the row template is filled with under that name is
    the content of the last of them: the columns before it, and the odd or
    even class, are overwritten. *)
Theorem shared_name_shows_last_column
    h model index pre r post col values data values' data' :
  h !! r = Some col →
  Forall (fun r' => ∃ c, h !! r' = Some c
            ∧ prop_name (row_token col) ≠ prop_name (row_token c)
            ∧ prop_name (row_token col) ≠ prop_name (row_token c) +:+ "-classes")
         post →
  _createRowHTML_loop h model index (pre ++ r :: post) values data
  = Some (values', data') →
  ∃ values1 data1,
    _createRowHTML_loop h model index pre values data = Some (values1, data1)
    ∧ values' !! prop_name (row_token col)
      = Some (cell_result col r model index data1).1.2.
Proof.
  intros Hr Hpost Hloop. rewrite _createRowHTML_loop_app in Hloop.
  destruct (_createRowHTML_loop h model index pre values data)
    as [[values1 data1]|]; [|done].
  exists values1, data1. split; [done|].
  cbn [mbind option_bind _createRowHTML_loop] in Hloop.
  rewrite (_createRowHTML_col_result _ _ _ _ col) in Hloop by done.
  cbv zeta in Hloop. cbn [mbind option_bind] in Hloop.
  rewrite (_createRowHTML_loop_other _ _ _ _ _ _ _ _ _ Hpost Hloop).
  by rewrite lookup_insert_eq.
Qed.

(** X8.  The columns of a row share one attribute map: what the
    formatter function of a column writes into [o.data] is what the next
    column reads as its value (line 504), in place of the attribute of the
    Model. *)
Theorem formatter_changes_reach_later_columns
    h model index r1 r2 col1 col2 f values data :
  h !! r1 = Some col1 →
  h !! r2 = Some col2 →
  formatter col1 = Some (FunctionFormatter f) →
  formatter_truthy (formatter col2) = false →
  let res := f (context_of col1 r1 model index data) in
  ∃ values',
    _createRowHTML_loop h model index [r1; r2] values data
    = Some (values', data_after res)
    ∧ values' !! prop_name (row_token col2)
      = Some (escaped col2 (empty_fallback col2
                (js_get (data_after res) (prop_name (key col2))))).
Proof.
  intros Hr1 Hr2 Hf Hnone res. cbn [_createRowHTML_loop].
  rewrite (_createRowHTML_col_eq _ _ _ _ col1) by done. cbv zeta.
  rewrite (formatter_step_function _ _ _ _ _ _ _ _ f) by done.
  cbn [fst snd mbind option_bind].
  fold (context_of col1 r1 model index data). fold res.
  rewrite (_createRowHTML_col_eq _ _ _ _ col2) by done. cbv zeta.
  rewrite formatter_step_none by done. cbn [fst snd mbind option_bind].
  eexists. split; [done|]. by rewrite lookup_insert_eq.
Qed.

Lemma shared_name_shows_last_column_witness :
  ∃ values' data' values1 data1,
    _createRowHTML_loop clashing_store
      (a_model {[ "x" := JStr "first"; "x1" := JStr "third" ]}) 0 [0; 1] ∅
      {[ "x" := JStr "first"; "x1" := JStr "third" ]} = Some (values', data')
    ∧ _createRowHTML_loop clashing_store
        (a_model {[ "x" := JStr "first"; "x1" := JStr "third" ]}) 0 [0] ∅
        {[ "x" := JStr "first"; "x1" := JStr "third" ]} = Some (values1, data1)
    ∧ values' !! "x1"
      = Some (cell_result (set_renderToken (Some "x1") (key_column "x1")) 1
                (a_model {[ "x" := JStr "first"; "x1" := JStr "third" ]}) 0
                data1).1.2.
Proof.
  destruct (_createRowHTML_loop clashing_store
              (a_model {[ "x" := JStr "first"; "x1" := JStr "third" ]}) 0 [0; 1] ∅
              {[ "x" := JStr "first"; "x1" := JStr "third" ]})
    as [[values' data']|] eqn:E; [|vm_compute in E; discriminate E].
  assert (Hr : clashing_store !! 1
               = Some (set_renderToken (Some "x1") (key_column "x1")))
    by reflexivity.
  destruct (shared_name_shows_last_column clashing_store _ 0 [0] 1 [] _ _ _
              values' data' Hr (Forall_nil_2 _) E)
    as (values1 & data1 & Hpre & Hv).
  exists values', data', values1, data1.
  split; [reflexivity|]. split; [exact Hpre|exact Hv].
Defined.

Lemma formatter_changes_reach_later_columns_witness :
  ∃ values',
    _createRowHTML_loop overwriting_store
      (a_model {[ "a" := JStr "1"; "b" := JStr "orig" ]}) 0 [0; 1] ∅
      {[ "a" := JStr "1"; "b" := JStr "orig" ]}
    = Some (values', <["b" := JStr "changed"]>
                       {[ "a" := JStr "1"; "b" := JStr "orig" ]})
    ∧ values' !! "b" = Some (JStr "changed").
Proof.
  assert (Hr1 : overwriting_store !! 0 = Some (formatter_column "a" overwriting))
    by reflexivity.
  assert (Hr2 : overwriting_store !! 1 = Some (key_column "b")) by reflexivity.
  destruct (formatter_changes_reach_later_columns overwriting_store
              (a_model {[ "a" := JStr "1"; "b" := JStr "orig" ]}) 0 0 1
              (formatter_column "a" overwriting) (key_column "b") overwriting ∅
              {[ "a" := JStr "1"; "b" := JStr "orig" ]} Hr1 Hr2 eq_refl eq_refl)
    as (values' & Hrun & Hv).
  exists values'. split; [exact Hrun|exact Hv].
Defined.

(** X21.  The row template is filled from the [values] object alone, and
    that object holds nothing but rowClasses and, for each column, the
    classes and the content under its token.  A name that is none of these
    is not bound, whatever the attributes of the Model are and whatever the
    formatters write into [o.data]: so the id of the row, for which the
    template has the placeholder clientId, is left as it stands. *)
Theorem values_hold_the_cells_only this h model index values data k :
  _createRowHTML_values this h model index = Some (values, data) →
  k ≠ "rowClasses" →
  (∀ r col, r ∈ columns this → h !! r = Some col →
     k ≠ prop_name (row_token col)
     ∧ k ≠ prop_name (row_token col) +:+ "-classes") →
  values !! k = None
  ∧ ∀ raw, fill values (Hole k raw) = "{" +:+ raw +:+ "}".
Proof.
  unfold _createRowHTML_values. intros Hrun Hk Hcols.
  assert (Hnone : values !! k = None).
  { assert (Hall : Forall (fun r => ∃ c, h !! r = Some c
                      ∧ k ≠ prop_name (row_token c)
                      ∧ k ≠ prop_name (row_token c) +:+ "-classes")
                     (columns this)).
    { apply Forall_forall. intros r Hr.
      destruct (h !! r) as [col|] eqn:Hcol.
      - exists col. split; [done|]. by apply (Hcols r).
      - exfalso. clear Hcols.
        apply list_elem_of_split in Hr as (pre & post & Heq).
        rewrite Heq, _createRowHTML_loop_app in Hrun.
        destruct (_createRowHTML_loop h model index pre _ _) as [[v d]|];
          [|done].
        cbn [mbind option_bind _createRowHTML_loop] in Hrun.
        unfold _createRowHTML_col in Hrun. by rewrite Hcol in Hrun. }
    rewrite (_createRowHTML_loop_other _ _ _ _ _ _ _ _ _ Hall Hrun).
    by rewrite lookup_singleton_ne. }
  split; [done|]. intros raw. simpl. unfold js_get. by rewrite Hnone.
Qed.

Lemma values_hold_the_cells_only_witness :
  ∃ values data,
    _createRowHTML_values (a_view [0] None) {[ 0 := key_column "name" ]}
      (a_model {[ "clientId" := JStr "model_1"; "name" := JStr "Ann" ]}) 0
    = Some (values, data)
    ∧ data !! "clientId" = Some (JStr "model_1")
    ∧ values !! "clientId" = None.
Proof.
  destruct (_createRowHTML_values (a_view [0] None) {[ 0 := key_column "name" ]}
              (a_model {[ "clientId" := JStr "model_1"; "name" := JStr "Ann" ]}) 0)
    as [[values data]|] eqn:E; [|vm_compute in E; discriminate E].
  destruct (values_hold_the_cells_only _ _ _ _ _ _ "clientId" E) as [Hv _].
  - discriminate.
  - intros r col Hr Hcol. apply list_elem_of_singleton in Hr. subst r.
    apply lookup_singleton_Some in Hcol as [_ <-]. split; discriminate.
  - exists values, data. split; [reflexivity|]. split; [|exact Hv].
    vm_compute in E. injection E as _ <-. reflexivity.
Defined.

Lemma _createRowHTML_loop_is_Some h model index cols :
  Forall (fun r => is_Some (h !! r)) cols →
  ∀ values data, is_Some (_createRowHTML_loop h model index cols values data).
Proof.
  induction cols as [|r cols IH]; intros Hall values data; [by eexists|].
  apply Forall_cons in Hall as [[col Hr] Hall]. cbn [_createRowHTML_loop].
  rewrite (_createRowHTML_col_eq _ _ _ _ col) by done. cbv zeta.
  cbn [mbind option_bind]. by apply IH.
Qed.

Lemma _createRowHTML_is_Some this h model index :
  is_Some (_rowTemplate this) →
  Forall (fun r => is_Some (h !! r)) (columns this) →
  is_Some (_createRowHTML this h model index).
Proof.
  intros [t Ht] Hall. unfold _createRowHTML, _createRowHTML_values.
  destruct (_createRowHTML_loop_is_Some h model index (columns this) Hall
              {[ "rowClasses" := JStr (row_class this index) ]} (getAttrs model))
    as [[values data] ->].
  cbn [mbind option_bind]. rewrite Ht. by eexists.
Qed.

Lemma _createDataHTML_each_is_Some this h models :
  is_Some (_rowTemplate this) →
  Forall (fun r => is_Some (h !! r)) (columns this) →
  ∀ index html, is_Some (_createDataHTML_each this h models index html).
Proof.
  intros Ht Hall. induction models as [|m models IH]; intros index html;
    [by eexists|].
  cbn [_createDataHTML_each].
  destruct (_createRowHTML_is_Some this h m index Ht Hall) as [row ->].
  cbn [mbind option_bind]. apply IH.
Qed.

Lemma _createDataHTML_is_Some this h :
  is_Some (_rowTemplate this) →
  Forall (fun r => is_Some (h !! r)) (columns this) →
  is_Some (_createDataHTML this h).
Proof.
  intros Ht Hall. unfold _createDataHTML.
  destruct (modelList this); [|by eexists].
  by apply _createDataHTML_each_is_Some.
Qed.

Lemma _createRowHTML_ext this this' h model index :
  columns this = columns this' →
  CLASS_ODD this = CLASS_ODD this' →
  CLASS_EVEN this = CLASS_EVEN this' →
  _rowTemplate this = _rowTemplate this' →
  _createRowHTML this h model index = _createRowHTML this' h model index.
Proof.
  intros Hc Ho He Ht.
  unfold _createRowHTML, _createRowHTML_values, row_class.
  by rewrite Hc, Ho, He, Ht.
Qed.

(** The markup depends on the view through its columns, its records, its
    row classes and its row template. *)
Lemma _createDataHTML_ext this this' h :
  modelList this = modelList this' →
  columns this = columns this' →
  CLASS_ODD this = CLASS_ODD this' →
  CLASS_EVEN this = CLASS_EVEN this' →
  _rowTemplate this = _rowTemplate this' →
  _createDataHTML this h = _createDataHTML this' h.
Proof.
  intros Hm Hc Ho He Ht. unfold _createDataHTML. rewrite Hm.
  destruct (modelList this') as [data|]; [|done].
  assert (Heach : ∀ index html,
            _createDataHTML_each this h data index html
            = _createDataHTML_each this' h data index html).
  { clear Hm. induction data as [|m data IH]; intros index html; [done|].
    cbn [_createDataHTML_each].
    rewrite (_createRowHTML_ext this this') by done.
    destruct (_createRowHTML this' h m index); [|done].
    cbn [mbind option_bind]. apply IH. }
  apply Heach.
Qed.

(** ** _applyNodeFormatters: the whole pass *)

Lemma nodeFormatter_columns_spec h cols :
  ∀ k,
  Forall (fun r => is_Some (h !! r)) cols →
  ∃ fs, nodeFormatter_columns h cols k = Some fs
    ∧ ∀ i, i ∈ fs ↔ ∃ j r col, i = k + j ∧ cols !! j = Some r
                      ∧ h !! r = Some col ∧ is_Some (nodeFormatter col).
Proof.
  induction cols as [|r cols IH]; intros k Hall.
  - exists []. split; [done|]. intros i. split; [by intros ?%elem_of_nil|].
    by intros (j & r & col & _ & ? & _).
  - apply Forall_cons in Hall as [[col Hr] Hall].
    destruct (IH (S k) Hall) as (fs & Hrun & Hfs).
    cbn [nodeFormatter_columns]. rewrite Hr. cbn [mbind option_bind].
    rewrite Hrun. cbn [mbind option_bind]. eexists. split; [done|].
    intros i. case_bool_decide as Hnf.
    + rewrite elem_of_cons, Hfs. split.
      * intros [->|(j & r' & col' & -> & Hj & Hr' & Hnf')].
        -- exists 0, r, col. rewrite Nat.add_0_r. done.
        -- exists (S j), r', col'. split; [lia|done].
      * intros (j & r' & col' & -> & Hj & Hr' & Hnf').
        destruct j as [|j]; [left; lia|].
        right. exists j, r', col'. split; [lia|done].
    + rewrite Hfs. split.
      * intros (j & r' & col' & -> & Hj & Hr' & Hnf').
        exists (S j), r', col'. split; [lia|done].
      * intros (j & r' & col' & -> & Hj & Hr' & Hnf').
        destruct j as [|j].
        -- simpl in Hj. injection Hj as <-. rewrite Hr in Hr'.
           injection Hr' as <-. done.
        -- exists j, r', col'. split; [lia|done].
Qed.

Lemma nodeFormatter_columns_none h cols :
  ∀ k,
  Forall (fun r => ∃ col, h !! r = Some col ∧ nodeFormatter col = None) cols →
  nodeFormatter_columns h cols k = Some [].
Proof.
  induction cols as [|r cols IH]; intros k Hall; [done|].
  apply Forall_cons in Hall as [(col & Hr & Hnf) Hall].
  cbn [nodeFormatter_columns]. rewrite Hr. cbn [mbind option_bind].
  rewrite (IH (S k) Hall). cbn [mbind option_bind]. rewrite Hnf.
  by rewrite bool_decide_false by (by intros [? ?]).
Qed.

(** X9.  When no column has a nodeFormatter, _applyNodeFormatters leaves
    the container as it is: the rows are not visited and no Node instance
    is made (lines 353-360). *)
Theorem applyNodeFormatters_without_nodeFormatter this h t cols :
  Forall (fun r => ∃ col, h !! r = Some col ∧ nodeFormatter col = None) cols →
  _applyNodeFormatters this h t cols = Some t.
Proof.
  intros Hall. unfold _applyNodeFormatters.
  rewrite (nodeFormatter_columns_none h cols 0 Hall). simpl.
  by destruct (modelList this).
Qed.

Lemma applyNodeFormatters_without_nodeFormatter_witness :
  _applyNodeFormatters (a_view [0; 1] (Some [Ann; Bo])) name_age a_tbody [0; 1]
  = Some a_tbody.
Proof.
  apply applyNodeFormatters_without_nodeFormatter.
  repeat (constructor; [eexists; split; reflexivity|]). constructor.
Defined.

(** One cell of the pass: it gets through when the position is that of
    a column with a node formatter. *)
Lemma _applyNodeFormatters_cell_is_Some h cols record index data i t r col :
  cols !! i = Some r → h !! r = Some col → is_Some (nodeFormatter col) →
  ∃ t', _applyNodeFormatters_cell h cols record index data i t = Some t'
    ∧ content t' = content t.
Proof.
  intros Hi Hr [nf Hnf]. unfold _applyNodeFormatters_cell.
  destruct ((rows t !! index) ≫= (.!! i)) as [cell|]; [|by eexists].
  rewrite Hi. cbn [mbind option_bind]. rewrite Hr. cbn [mbind option_bind].
  rewrite Hnf. cbn [mbind option_bind].
  destruct (nf _ _) as [keep rs].
  destruct keep as [| |[]| | |]; eexists; (split; [done|]); simpl;
    by rewrite !content_Y_one.
Qed.

Lemma each_cells_is_Some h cols record index data fs :
  (∀ i, i ∈ fs → ∃ r col, cols !! i = Some r ∧ h !! r = Some col
                  ∧ is_Some (nodeFormatter col)) →
  ∀ t, ∃ t', each (_applyNodeFormatters_cell h cols record index data) fs t
             = Some t'
        ∧ content t' = content t.
Proof.
  induction fs as [|i fs IH]; intros Hfs t; [by exists t|].
  destruct (Hfs i) as (r & col & Hi & Hr & Hnf); [left|].
  destruct (_applyNodeFormatters_cell_is_Some h cols record index data i t r col
              Hi Hr Hnf) as (t1 & Hcell & Hc1).
  destruct (IH (fun j Hj => Hfs j (list_elem_of_further _ _ _ Hj)) t1)
    as (t' & Hrun & Hc').
  exists t'. simpl. rewrite Hcell. simpl. split; [done|]. congruence.
Qed.

Lemma _applyNodeFormatters_each_is_Some h cols fs records :
  (∀ i, i ∈ fs → ∃ r col, cols !! i = Some r ∧ h !! r = Some col
                  ∧ is_Some (nodeFormatter col)) →
  ∀ index t, ∃ t', _applyNodeFormatters_each h cols fs records index t = Some t'
               ∧ content t' = content t.
Proof.
  intros Hfs. induction records as [|record records IH]; intros index t;
    [by exists t|].
  cbn [_applyNodeFormatters_each]. unfold _applyNodeFormatters_row.
  destruct (rows t !! index).
  - destruct (each_cells_is_Some h cols record index (getAttrs record) fs Hfs t)
      as (t1 & -> & Hc1).
    cbn [mbind option_bind].
    destruct (IH (S index) t1) as (t' & -> & Hc'). exists t'.
    split; [done|]. congruence.
  - cbn [mbind option_bind]. apply IH.
Qed.

(** The pass over the cells gets through whenever the columns are there,
    and leaves the markup written into the container as it is. *)
Lemma _applyNodeFormatters_is_Some this h t cols :
  Forall (fun r => is_Some (h !! r)) cols →
  ∃ t', _applyNodeFormatters this h t cols = Some t' ∧ content t' = content t.
Proof.
  intros Hall. unfold _applyNodeFormatters.
  destruct (nodeFormatter_columns_spec h cols 0 Hall) as (fs & -> & Hfs).
  cbn [mbind option_bind].
  destruct (modelList this) as [data|]; [|by exists t].
  destruct fs as [|i fs]; [by exists t|].
  apply _applyNodeFormatters_each_is_Some.
  intros j Hj. apply Hfs in Hj as (k & r & col & -> & Hk & Hr & Hnf).
  by exists r, col.
Qed.

Lemma _applyNodeFormatters_ext this this' h t cols :
  modelList this = modelList this' →
  _applyNodeFormatters this h t cols = _applyNodeFormatters this' h t cols.
Proof. intros Hm. unfold _applyNodeFormatters. by rewrite Hm. Qed.

Lemma _applyNodeFormatters_cell_released h cols record index data i t t' :
  (∀ r col nf o rs, cols !! i = Some r → h !! r = Some col →
     nodeFormatter col = Some nf → (nf o rs).1 = JBool false) →
  _applyNodeFormatters_cell h cols record index data i t = Some t' →
  ∀ e, e ∈ instances t' → e ∈ instances t.
Proof.
  intros Hfalse. unfold _applyNodeFormatters_cell.
  destruct ((rows t !! index) ≫= (.!! i)) as [cell|]; [|by intros [= <-]].
  destruct (cols !! i) as [r|] eqn:Hi; [|done]. cbn [mbind option_bind].
  destruct (h !! r) as [col|] eqn:Hr; [|done]. cbn [mbind option_bind].
  destruct (nodeFormatter col) as [nf|] eqn:Hnf; [|done].
  cbn [mbind option_bind].
  match goal with |- context [nf ?o ?rs] =>
    pose proof (Hfalse r col nf o rs eq_refl Hr Hnf) as Hkeep;
    destruct (nf o rs) as [keep rs'] end.
  simpl in Hkeep. subst keep. intros [= <-] e.
  unfold destroy. simpl. rewrite list_elem_of_filter, !elem_of_Y_one.
  destruct (td_liner cell); naive_solver.
Qed.

Lemma each_cells_released h cols record index data fs :
  (∀ i r col nf o rs, i ∈ fs → cols !! i = Some r → h !! r = Some col →
     nodeFormatter col = Some nf → (nf o rs).1 = JBool false) →
  ∀ t t', each (_applyNodeFormatters_cell h cols record index data) fs t = Some t' →
  ∀ e, e ∈ instances t' → e ∈ instances t.
Proof.
  induction fs as [|i fs IH]; intros Hfalse t t' Hrun e He.
  - simpl in Hrun. by injection Hrun as <-.
  - simpl in Hrun.
    destruct (_applyNodeFormatters_cell h cols record index data i t)
      as [t1|] eqn:Hcell; [|done].
    simpl in Hrun.
    eapply (_applyNodeFormatters_cell_released h cols record index data i t t1);
      [|done|].
    + intros r col nf o rs. apply Hfalse. left.
    + eapply IH; [|done|done].
      intros j r col nf o rs Hj. apply Hfalse. by right.
Qed.

Lemma _applyNodeFormatters_each_released h cols fs records :
  (∀ i r col nf o rs, i ∈ fs → cols !! i = Some r → h !! r = Some col →
     nodeFormatter col = Some nf → (nf o rs).1 = JBool false) →
  ∀ index t t',
  _applyNodeFormatters_each h cols fs records index t = Some t' →
  ∀ e, e ∈ instances t' → e ∈ instances t.
Proof.
  intros Hfalse. induction records as [|record records IH];
    intros index t t' Hrun e He.
  - simpl in Hrun. by injection Hrun as <-.
  - cbn [_applyNodeFormatters_each] in Hrun.
    destruct (_applyNodeFormatters_row h cols fs record index t)
      as [t1|] eqn:Hrow; [|done].
    cbn [mbind option_bind] in Hrun.
    pose proof (IH _ _ _ Hrun e He) as He1.
    unfold _applyNodeFormatters_row in Hrow.
    destruct (rows t !! index); [|by injection Hrow as <-].
    by eapply each_cells_released.
Qed.

(** X10.  When every nodeFormatter returns false, the whole pass gets
    through and leaves no Node instance behind: the cache holds nothing
    that it did not hold before, and the markup written into the container
    is as it was. *)
Theorem applyNodeFormatters_all_false_keeps_no_Node this h t cols :
  Forall (fun r => is_Some (h !! r)) cols →
  returns_false h cols →
  ∃ t', _applyNodeFormatters this h t cols = Some t'
    ∧ content t' = content t
    ∧ ∀ e, e ∈ instances t' → e ∈ instances t.
Proof.
  intros Hall Hfalse.
  destruct (_applyNodeFormatters_is_Some this h t cols Hall) as (t' & Hrun & Hc).
  exists t'. split; [done|]. split; [done|].
  unfold _applyNodeFormatters in Hrun.
  destruct (nodeFormatter_columns h cols 0) as [fs|]; [|done].
  cbn [mbind option_bind] in Hrun.
  destruct (modelList this) as [data|]; [|by injection Hrun as <-].
  destruct fs as [|i fs]; [by injection Hrun as <-|].
  eapply _applyNodeFormatters_each_released; [|exact Hrun].
  intros j r col nf o rs _ Hj Hr Hnf.
  eapply Hfalse; [by eapply list_elem_of_lookup_2|done..].
Qed.

Lemma applyNodeFormatters_all_false_keeps_no_Node_witness :
  ∃ t',
    _applyNodeFormatters (a_view [0] (Some [a_model {[ "a" := JStr "Ann" ]}]))
      {[ 0 := nodeFormatter_column "a" (writing (JBool false)) ]} a_tbody [0]
    = Some t'
    ∧ content t' = content a_tbody
    ∧ ∀ e, e ∈ instances t' → e ∈ instances a_tbody.
Proof.
  apply applyNodeFormatters_all_false_keeps_no_Node.
  - constructor; [by eexists|constructor].
  - intros r col nf o rs Hr Hcol Hnf.
    apply list_elem_of_singleton in Hr. subst r.
    apply lookup_singleton_Some in Hcol as [_ <-]. simpl in Hnf.
    injection Hnf as <-. reflexivity.
Defined.

Lemma _applyNodeFormatters_cell_Nodes h cols record index data i t t' :
  _applyNodeFormatters_cell h cols record index data i t = Some t' →
  ∀ e, e ∈ instances t' →
    e ∈ instances t ∨ (of_cell e index i ∧ nodeFormatter_at h cols i).
Proof.
  unfold _applyNodeFormatters_cell.
  destruct ((rows t !! index) ≫= (.!! i)) as [cell|]; [|intros [= <-]; auto].
  destruct (cols !! i) as [r|] eqn:Hi; [|done]. cbn [mbind option_bind].
  destruct (h !! r) as [col|] eqn:Hr; [|done]. cbn [mbind option_bind].
  destruct (nodeFormatter col) as [nf|] eqn:Hnf; [|done].
  cbn [mbind option_bind].
  assert (Hat : nodeFormatter_at h cols i).
  { exists r, col. split; [done|]. split; [done|]. by rewrite Hnf. }
  destruct (nf _ _) as [keep rs].
  assert (Hin : ∀ e, e ∈ instances
                     (set_rows rs (Y_one (if td_liner cell
                                          then LinerElement index i
                                          else CellElement index i)
                                    (Y_one (CellElement index i) t))) →
                e ∈ instances t ∨ (of_cell e index i ∧ nodeFormatter_at h cols i)).
  { intros e. simpl. rewrite !elem_of_Y_one. unfold of_cell.
    destruct (td_liner cell); naive_solver. }
  destruct keep as [| |[]| | |]; intros [= <-] e He; try by apply Hin.
  apply Hin. unfold destroy in He. simpl in He.
  apply list_elem_of_filter in He as [_ He]. done.
Qed.

Lemma each_cells_Nodes h cols record index data fs :
  ∀ t t', each (_applyNodeFormatters_cell h cols record index data) fs t = Some t' →
  ∀ e, e ∈ instances t' →
    e ∈ instances t ∨ ∃ i, of_cell e index i ∧ nodeFormatter_at h cols i.
Proof.
  induction fs as [|i fs IH]; intros t t' Hrun e He.
  - simpl in Hrun. injection Hrun as <-. by left.
  - simpl in Hrun.
    destruct (_applyNodeFormatters_cell h cols record index data i t)
      as [t1|] eqn:Hcell; [|done].
    simpl in Hrun. destruct (IH _ _ Hrun e He) as [He1|?]; [|by right].
    destruct (_applyNodeFormatters_cell_Nodes _ _ _ _ _ _ _ _ Hcell e He1)
      as [?|?]; [by left|right; by exists i].
Qed.

Lemma _applyNodeFormatters_each_Nodes h cols fs records :
  ∀ index t t',
  _applyNodeFormatters_each h cols fs records index t = Some t' →
  ∀ e, e ∈ instances t' →
    e ∈ instances t
    ∨ ∃ n i, index ≤ n < index + List.length records
        ∧ of_cell e n i ∧ nodeFormatter_at h cols i.
Proof.
  induction records as [|record records IH]; intros index t t' Hrun e He.
  - simpl in Hrun. injection Hrun as <-. by left.
  - cbn [_applyNodeFormatters_each] in Hrun.
    destruct (_applyNodeFormatters_row h cols fs record index t)
      as [t1|] eqn:Hrow; [|done].
    cbn [mbind option_bind] in Hrun.
    destruct (IH _ _ _ Hrun e He) as [He1|(n & i & Hn & Hcell & Hat)].
    + unfold _applyNodeFormatters_row in Hrow.
      destruct (rows t !! index); [|injection Hrow as <-; by left].
      destruct (each_cells_Nodes _ _ _ _ _ _ _ _ Hrow e He1)
        as [?|(i & Hcell & Hat)]; [by left|].
      right. exists index, i. split; [simpl; lia|done].
    + right. exists n, i. split; [simpl; lia|done].
Qed.

(** X23.  The pass makes Node instances for the cells of columns with a
    nodeFormatter only, and only in rows that have a record: whatever the
    node formatters return, a Node that is in the cache afterwards was
    there before, or is the Node of such a cell or of its liner. *)
Theorem applyNodeFormatters_makes_Nodes_of_its_cells this h t cols t' :
  _applyNodeFormatters this h t cols = Some t' →
  ∀ e, e ∈ instances t' →
    e ∈ instances t
    ∨ ∃ n i, n < List.length (default [] (modelList this))
        ∧ of_cell e n i ∧ nodeFormatter_at h cols i.
Proof.
  unfold _applyNodeFormatters. intros Hrun e He.
  destruct (nodeFormatter_columns h cols 0) as [fs|]; [|done].
  cbn [mbind option_bind] in Hrun.
  destruct (modelList this) as [data|]; [|injection Hrun as <-; by left].
  destruct fs as [|i fs]; [injection Hrun as <-; by left|].
  destruct (_applyNodeFormatters_each_Nodes _ _ _ _ _ _ _ Hrun e He)
    as [?|(n & j & Hn & Hcell & Hat)]; [by left|].
  right. exists n, j. split; [simpl in *; lia|done].
Qed.

Lemma applyNodeFormatters_makes_Nodes_of_its_cells_witness :
  ∃ t',
    _applyNodeFormatters (a_view [0] (Some [a_model {[ "a" := JStr "Ann" ]}]))
      {[ 0 := nodeFormatter_column "a" (writing JUndefined) ]} a_tbody [0]
    = Some t'
    ∧ instances t' = [CellElement 0 0]
    ∧ ∀ e, e ∈ instances t' →
        e ∈ instances a_tbody
        ∨ ∃ n i, n < 1 ∧ of_cell e n i
            ∧ nodeFormatter_at
                {[ 0 := nodeFormatter_column "a" (writing JUndefined) ]} [0] i.
Proof.
  destruct (_applyNodeFormatters
              (a_view [0] (Some [a_model {[ "a" := JStr "Ann" ]}]))
              {[ 0 := nodeFormatter_column "a" (writing JUndefined) ]} a_tbody [0])
    as [t'|] eqn:E; [|vm_compute in E; discriminate E].
  exists t'. split; [reflexivity|]. split.
  - vm_compute in E. injection E as <-. reflexivity.
  - exact (applyNodeFormatters_makes_Nodes_of_its_cells _ _ _ _ _ E).
Defined.

(** ** bindUI and render: when they throw, rendering again, what is written *)

Lemma bindUI_is_Some this :
  is_Some (bindUI this)
  ↔ is_Some (modelList this) ∨ dataChange (_eventHandles this) = true.
Proof.
  unfold bindUI.
  destruct (source this && negb (columnsChange (_eventHandles this)));
    cbn [dataChange]; destruct (dataChange (_eventHandles this));
    cbn [negb]; destruct (modelList this);
    split; try (intros _; by eauto); intros H; try by (destruct H as [? ?]).
  all: destruct H as [[? ?]|?]; done.
Qed.

Lemma bindUI_result this this' :
  bindUI this = Some this' →
  this' = set_eventHandles (_eventHandles this') this
  ∧ dataChange (_eventHandles this') = true
  ∧ columnsChange (_eventHandles this')
    = columnsChange (_eventHandles this) || source this.
Proof.
  unfold bindUI.
  destruct this as [c m s cols p o e t [cc dc]]. cbn.
  destruct s, cc, dc, m; cbn; intros [= <-]; done.
Qed.

Lemma bindUI_again this this' :
  bindUI this = Some this' → bindUI this' = Some this'.
Proof.
  unfold bindUI.
  destruct this as [c m s cols p o e t [cc dc]]. cbn.
  destruct s, cc, dc, m; cbn; intros [= <-]; done.
Qed.

(** X11.  bindUI subscribes once: after a call that got through, the
    dataChange subscription is made, the columnsChange subscription is made
    if there is a source or was made before, nothing but the event handles
    of the view has changed, and a further call changes nothing at all. *)
Theorem bindUI_subscribes_once this this' :
  bindUI this = Some this' →
  bindUI this' = Some this'
  ∧ this' = set_eventHandles (_eventHandles this') this
  ∧ dataChange (_eventHandles this') = true
  ∧ columnsChange (_eventHandles this')
    = columnsChange (_eventHandles this) || source this.
Proof.
  intros Hb. split; [exact (bindUI_again _ _ Hb)|exact (bindUI_result _ _ Hb)].
Qed.

Lemma bindUI_subscribes_once_witness :
  ∃ this',
    bindUI (a_view [] (Some [])) = Some this'
    ∧ bindUI this' = Some this'
    ∧ dataChange (_eventHandles this') = true.
Proof.
  destruct (bindUI (a_view [] (Some []))) as [this'|] eqn:E;
    [|vm_compute in E; discriminate E].
  destruct (bindUI_subscribes_once _ _ E) as (Hagain & _ & Hd & _).
  exists this'. split; [reflexivity|]. split; [exact Hagain|exact Hd].
Defined.

(** render, step by step. *)
Lemma render_steps realise this h h' this' :
  render realise this h = Some (h', this') →
  ∃ t, _createRowTemplate this (columns this) h = Some (h', set_rowTemplate t this)
    ∧ match container this, modelList this with
      | Some tb, Some _ =>
          ∃ html tb',
            _createDataHTML (set_rowTemplate t this) h' = Some html
            ∧ _applyNodeFormatters (set_rowTemplate t this) h'
                (setContent realise html tb) (columns this) = Some tb'
            ∧ bindUI (set_container tb' (set_rowTemplate t this)) = Some this'
      | _, _ => bindUI (set_rowTemplate t this) = Some this'
      end.
Proof.
  unfold render. intros Hrun.
  destruct (_createRowTemplate this (columns this) h) as [[h1 this1]|] eqn:Ht;
    [|done].
  destruct (_createRowTemplate_result _ _ _ _ _ Ht) as (t & -> & _).
  cbn [mbind option_bind] in Hrun. exists t.
  change (container (set_rowTemplate t this)) with (container this) in Hrun.
  change (modelList (set_rowTemplate t this)) with (modelList this) in Hrun.
  change (columns (set_rowTemplate t this)) with (columns this) in Hrun.
  destruct (container this) as [tb|], (modelList this) as [data|].
  2-4: cbn [mbind option_bind] in Hrun;
       destruct (bindUI _) as [this2|] eqn:Hb; [|done];
       cbn [mbind option_bind] in Hrun; by injection Hrun as <- <-.
  destruct (_createDataHTML (set_rowTemplate t this) h1) as [html|] eqn:Hd;
    [|done].
  cbn [mbind option_bind] in Hrun.
  destruct (_applyNodeFormatters _ _ _ _) as [tb'|] eqn:Hn; [|done].
  cbn [mbind option_bind] in Hrun.
  destruct (bindUI _) as [this2|] eqn:Hb; [|done].
  cbn [mbind option_bind] in Hrun. injection Hrun as <- <-.
  split; [done|]. by exists html, tb'.
Qed.

(** render gets through exactly when every column has headers and the
    modelList is there or has been subscribed to before. *)
Lemma render_is_Some realise this h :
  is_Some (render realise this h)
  ↔ Forall (has_headers h) (columns this)
    ∧ (is_Some (modelList this) ∨ dataChange (_eventHandles this) = true).
Proof.
  rewrite <-(_createRowTemplate_is_Some this (columns this) h).
  unfold render.
  destruct (_createRowTemplate this (columns this) h) as [[h1 this1]|] eqn:Ht.
  - destruct (_createRowTemplate_result _ _ _ _ _ Ht) as (t & -> & _).
    pose proof (_createRowTemplate_refs _ _ _ _ _ Ht) as Hrefs.
    cbn [mbind option_bind].
    change (container (set_rowTemplate t this)) with (container this).
    change (modelList (set_rowTemplate t this)) with (modelList this).
    change (columns (set_rowTemplate t this)) with (columns this).
    assert (Hbind : ∀ v : BodyView,
              modelList v = modelList this →
              _eventHandles v = _eventHandles this →
              is_Some (bindUI v ≫= λ this0, Some (h1, this0))
              ↔ is_Some (Some (h1, set_rowTemplate t this)) ∧
                (is_Some (modelList this)
                 ∨ dataChange (_eventHandles this) = true)).
    { intros v Hm He. rewrite <-Hm, <-He, <-bindUI_is_Some.
      destruct (bindUI v) as [b|]; simpl.
      - split; [intros _; split; by eexists|intros _; by eexists].
      - split; [by intros [? ?]|by intros [_ [? ?]]]. }
    destruct (container this) as [tb|], (modelList this) as [data|] eqn:Hm;
      try (cbn [mbind option_bind]; by apply Hbind).
    destruct (_createDataHTML_is_Some (set_rowTemplate t this) h1)
      as [html ->]; [by eexists|done|].
    cbn [mbind option_bind].
    destruct (_applyNodeFormatters_is_Some (set_rowTemplate t this) h1
                (setContent realise html tb) (columns this) Hrefs)
      as (tb' & -> & _).
    cbn [mbind option_bind]. by apply Hbind.
  - cbn [mbind option_bind]. split; [by intros [? ?]|].
    by intros [[? ?] _].
Qed.


Lemma bindUI_handles this this' :
  bindUI this = Some this' → ∃ e, this' = set_eventHandles e this.
Proof.
  intros Hb. exists (_eventHandles this').
  by apply bindUI_result in Hb as [? _].
Qed.

(** X13.  Rendering again changes nothing: after a render that got
    through, a further render, and so the redraw that a change of the data
    asks for (_afterDataChange), gives the same view, the same container
    and the same columns, as long as the records are the same and the
    formatters yield the same for the same arguments. *)
Theorem render_idempotent realise this h h' this' :
  render realise this h = Some (h', this') →
  render realise this' h' = Some (h', this')
  ∧ _afterDataChange realise this' h' = Some (h', this').
Proof.
  intros Hrun. unfold _afterDataChange.
  cut (render realise this' h' = Some (h', this')); [done|].
  destruct (render_steps realise this h h' this' Hrun) as (t & Ht & Hsteps).
  pose proof (_createRowTemplate_again _ _ _ _ _ Ht) as Hagain.
  destruct (_createRowTemplate_result _ _ _ _ _ Hagain) as (t' & Heq & Hany).
  assert (t' = t) as ->.
  { pose proof (f_equal _rowTemplate Heq) as H. simpl in H. by injection H. }
  clear Heq.
  destruct (container this) as [tb|] eqn:Hc, (modelList this) as [data|] eqn:Hm.
  2-4: pose proof (bindUI_again _ _ Hsteps) as Hb';
       destruct (bindUI_handles _ _ Hsteps) as [e ->];
       unfold render; cbn [columns set_eventHandles set_rowTemplate];
       rewrite Hany by done;
       cbn [mbind option_bind container modelList columns set_eventHandles
            set_rowTemplate];
       rewrite Hc, ?Hm; cbn [mbind option_bind];
       match goal with |- context [bindUI ?v] =>
         change v with (set_eventHandles e (set_rowTemplate t this))
       end;
       by rewrite Hb'.
  destruct Hsteps as (html & tb' & Hd & Hn & Hb).
  pose proof (bindUI_again _ _ Hb) as Hb'.
  destruct (bindUI_handles _ _ Hb) as [e ->].
  unfold render.
  cbn [columns set_eventHandles set_container set_rowTemplate].
  rewrite Hany by done.
  cbn [mbind option_bind container modelList columns set_eventHandles
       set_container set_rowTemplate]. rewrite Hm.
  rewrite (_createDataHTML_ext _ (set_rowTemplate t this)) by done.
  rewrite Hd. cbn [mbind option_bind].
  rewrite (_applyNodeFormatters_ext _ (set_rowTemplate t this))
    by (cbn; by rewrite Hm).
  change (setContent realise html tb') with (setContent realise html tb).
  rewrite Hn. cbn [mbind option_bind].
  match goal with |- context [bindUI ?v] =>
    change v with (set_eventHandles e (set_container tb' (set_rowTemplate t this)))
  end.
  by rewrite Hb'.
Qed.

Lemma render_idempotent_witness :
  ∃ h' this',
    render one_cell
      (with_container (a_view [0] (Some [a_model {[ "a" := JStr "Ann" ]}])))
      {[ 0 := nodeFormatter_column "a" (writing (JBool false)) ]}
    = Some (h', this')
    ∧ render one_cell this' h' = Some (h', this').
Proof.
  destruct (render one_cell
              (with_container (a_view [0] (Some [a_model {[ "a" := JStr "Ann" ]}])))
              {[ 0 := nodeFormatter_column "a" (writing (JBool false)) ]})
    as [[h' this']|] eqn:E; [|vm_compute in E; discriminate E].
  exists h', this'. split; [reflexivity|].
  exact (proj1 (render_idempotent _ _ _ _ _ E)).
Defined.

(** X14.  What render writes: with a container and a modelList, the
    container holds afterwards what the node formatter pass made of the
    markup of _createDataHTML, written in one go in place of what was there
    before; the markup itself is left as written, and the columns and the
    modelList of the view are as before. *)
Theorem render_writes_the_rows realise this h h' this' tb data :
  container this = Some tb →
  modelList this = Some data →
  render realise this h = Some (h', this') →
  ∃ html tb',
    _createDataHTML this' h' = Some html
    ∧ _applyNodeFormatters this' h' (setContent realise html tb) (columns this')
      = Some tb'
    ∧ container this' = Some tb'
    ∧ content tb' = html
    ∧ columns this' = columns this
    ∧ modelList this' = modelList this.
Proof.
  intros Hc Hm Hrun.
  destruct (render_steps realise this h h' this' Hrun) as (t & Ht & Hsteps).
  rewrite Hc, Hm in Hsteps. destruct Hsteps as (html & tb' & Hd & Hn & Hb).
  apply bindUI_result in Hb as (Hthis' & _ & _).
  pose proof (f_equal container Hthis') as Hc'.
  pose proof (f_equal modelList Hthis') as Hm'.
  pose proof (f_equal columns Hthis') as Hcols'.
  pose proof (f_equal CLASS_ODD Hthis') as Ho'.
  pose proof (f_equal CLASS_EVEN Hthis') as He'.
  pose proof (f_equal _rowTemplate Hthis') as Ht'.
  cbn [container modelList columns CLASS_ODD CLASS_EVEN _rowTemplate
       set_eventHandles set_container set_rowTemplate] in *.
  exists html, tb'. rewrite Hcols'.
  split; [|split; [|split; [|split]]]; try done.
  - rewrite <-Hd. by apply _createDataHTML_ext.
  - rewrite <-Hn. by apply _applyNodeFormatters_ext.
  - pose proof (_createRowTemplate_refs _ _ _ _ _ Ht) as Hrefs.
    destruct (_applyNodeFormatters_is_Some (set_rowTemplate t this) h'
                (setContent realise html tb) (columns this) Hrefs)
      as (tb1 & Hn1 & Hc1).
    rewrite Hn in Hn1. injection Hn1 as <-. done.
Qed.

Lemma render_writes_the_rows_witness :
  ∃ h' this' html tb',
    render one_cell
      (with_container (a_view [0] (Some [a_model {[ "a" := JStr "Ann" ]}])))
      {[ 0 := nodeFormatter_column "a" (writing (JBool false)) ]}
    = Some (h', this')
    ∧ _createDataHTML this' h' = Some html
    ∧ container this' = Some tb'
    ∧ content tb' = html.
Proof.
  destruct (render one_cell
              (with_container (a_view [0] (Some [a_model {[ "a" := JStr "Ann" ]}])))
              {[ 0 := nodeFormatter_column "a" (writing (JBool false)) ]})
    as [[h' this']|] eqn:E; [|vm_compute in E; discriminate E].
  destruct (render_writes_the_rows one_cell
              (with_container (a_view [0] (Some [a_model {[ "a" := JStr "Ann" ]}])))
              {[ 0 := nodeFormatter_column "a" (writing (JBool false)) ]}
              h' this' a_container [a_model {[ "a" := JStr "Ann" ]}]
              eq_refl eq_refl E)
    as (html & tb' & Hd & _ & Hc & Hcontent & _).
  exists h', this', html, tb'. split; [reflexivity|].
  split; [exact Hd|]. split; [exact Hc|exact Hcontent].
Defined.

(** X22.  Without a container, or without a modelList, a render that gets
    through writes nothing: the container of the view is as it was, and so
    are its columns and its modelList; only the row template, the tokens of
    the columns and the event handles have been set. *)
Theorem render_without_container_or_modelList realise this h h' this' :
  container this = None ∨ modelList this = None →
  render realise this h = Some (h', this') →
  ∃ t e,
    _createRowTemplate this (columns this) h = Some (h', set_rowTemplate t this)
    ∧ this' = set_eventHandles e (set_rowTemplate t this)
    ∧ container this' = container this.
Proof.
  intros Hmissing Hrun.
  destruct (render_steps realise this h h' this' Hrun) as (t & Ht & Hsteps).
  assert (Hb : bindUI (set_rowTemplate t this) = Some this').
  { destruct (container this) as [tb|], (modelList this) as [data|];
      try done. by destruct Hmissing. }
  destruct (bindUI_handles _ _ Hb) as [e ->].
  by exists t, e.
Qed.

Lemma render_without_container_or_modelList_witness :
  ∃ h' this',
    render one_cell (a_view [0; 1] (Some [Ann; Bo])) name_age = Some (h', this')
    ∧ container this' = None.
Proof.
  destruct (render one_cell (a_view [0; 1] (Some [Ann; Bo])) name_age)
    as [[h' this']|] eqn:E; [|vm_compute in E; discriminate E].
  destruct (render_without_container_or_modelList one_cell
              (a_view [0; 1] (Some [Ann; Bo])) name_age h' this'
              (or_introl eq_refl) E) as (t & e & _ & _ & Hc).
  exists h', this'. split; [reflexivity|exact Hc].
Defined.



(** ** initializer, the first render and a change of the columns *)

Lemma initializer_result cfg h h1 this1 :
  initializer cfg h = Some (h1, this1) →
  _parseColumns (cfg_columns cfg) None h = Some (h1, columns this1)
  ∧ container this1 = cfg_container cfg
  ∧ modelList this1 = cfg_modelList cfg
  ∧ _rowTemplate this1 = None
  ∧ _eventHandles this1 = {| columnsChange := false; dataChange := false |}.
Proof.
  unfold initializer. intros Hrun.
  destruct (_parseColumns (cfg_columns cfg) None h) as [[h2 cols]|]; [|done].
  cbn [mbind option_bind] in Hrun. by injection Hrun as <- <-.
Qed.

Lemma same_but_index_headers c col :
  same_but_index c col → headers c = headers col.
Proof. intros H. exact (f_equal headers H). Qed.

(** X16.  A column given by its key alone cannot be rendered: line 671
    makes it an object without [headers], so for every configuration in
    which such a key is a column, nested or not, the first render of the
    view throws. *)
Theorem string_column_makes_render_throw realise cfg data s h h1 this1 :
  cfg_columns cfg = Array data →
  Forall (fun r => is_Some (h !! r)) (flat_map conf_refs data) →
  Made s ∈ flat_map (leaves h) data →
  initializer cfg h = Some (h1, this1) →
  render realise this1 h1 = None.
Proof.
  intros Hcfg Hrefs Hs Hinit.
  destruct (initializer_result cfg h h1 this1 Hinit) as (Hparse & _).
  rewrite Hcfg in Hparse.
  destruct (each_flattened h data) with (st := (h, @nil ref))
    as ([h' out] & Hrun & new & Hout & _ & Hleaves & _).
  { apply Forall_forall. intros e _. apply _parseColumns_col_flattened. }
  { apply extends_refl. }
  { done. }
  unfold _parseColumns in Hparse. simpl in Hparse, Hout, Hleaves.
  subst out. rewrite Hrun in Hparse. injection Hparse as -> Hcols.
  apply list_elem_of_lookup_1 in Hs as [i Hi].
  destruct (Forall2_lookup_l _ _ _ i _ Hleaves Hi) as (r & Hr & _ & c & Hc & Hsame).
  apply eq_None_not_Some. rewrite render_is_Some.
  intros [Hall _]. rewrite <-Hcols, Forall_forall in Hall.
  destruct (Hall r) as (c' & Hc' & [hs Hh]); [by eapply list_elem_of_lookup_2|].
  rewrite Hc in Hc'. injection Hc' as <-.
  by rewrite (same_but_index_headers c (new_column s)) in Hh.
Qed.

Lemma string_column_makes_render_throw_witness :
  ∃ h1 this1,
    initializer string_config ∅ = Some (h1, this1)
    ∧ render one_cell this1 h1 = None.
Proof.
  destruct (initializer string_config ∅) as [[h1 this1]|] eqn:E;
    [|vm_compute in E; discriminate E].
  exists h1, this1. split; [reflexivity|].
  apply (string_column_makes_render_throw one_cell string_config
           [ConfString "a"] "a" ∅ h1 this1).
  - reflexivity.
  - constructor.
  - left.
  - exact E.
Defined.

(** X17.  A change of the columns to the columns that are shown: right
    after construction, _afterColumnsChange with a new value that lists the
    column objects of the view one by one does what render does; the
    columns are flattened to themselves. *)
Theorem columnsChange_to_shown_columns realise cfg h h1 this1 confs :
  initializer cfg h = Some (h1, this1) →
  lists confs (columns this1) →
  _afterColumnsChange realise (Array confs) this1 h1 = render realise this1 h1.
Proof.
  intros Hinit Hlists.
  destruct (initializer_result cfg h h1 this1 Hinit) as (Hparse & _).
  unfold _afterColumnsChange.
  rewrite (listed_gathered confs h1 (columns this1))
    by (done || by eapply _parseColumns_gathered).
  cbn [mbind option_bind]. by destruct this1.
Qed.

Lemma columnsChange_to_shown_columns_witness :
  ∃ h1 this1,
    initializer parent_config parent_store = Some (h1, this1)
    ∧ _afterColumnsChange one_cell (Array (flat_config (columns this1))) this1 h1
      = render one_cell this1 h1.
Proof.
  destruct (initializer parent_config parent_store) as [[h1 this1]|] eqn:E;
    [|vm_compute in E; discriminate E].
  exists h1, this1. split; [reflexivity|].
  exact (columnsChange_to_shown_columns one_cell _ _ _ _ _ E
           (lists_flat_config (columns this1))).
Defined.

Lemma render_columns realise this h h' this' :
  render realise this h = Some (h', this') →
  columns this' = columns this ∧ modelList this' = modelList this.
Proof.
  intros Hrun.
  destruct (render_steps realise this h h' this' Hrun) as (t & Ht & Hsteps).
  destruct (container this) as [tb|], (modelList this) as [data|] eqn:Hm;
    try (destruct (bindUI_handles _ _ Hsteps) as [e ->]; simpl; by rewrite ?Hm).
  destruct Hsteps as (html & tb' & _ & _ & Hb).
  destruct (bindUI_handles _ _ Hb) as [e ->]. simpl. by rewrite ?Hm.
Qed.

(** X24.  A change of the columns replaces them: after _afterColumnsChange
    the columns of the view are the flattening of the new value alone, and
    the columns the view had before play no part in the result. *)
Theorem columnsChange_replaces_columns realise newVal this h h' this' :
  _afterColumnsChange realise newVal this h = Some (h', this') →
  (∃ h1, _parseColumns newVal None h = Some (h1, columns this'))
  ∧ modelList this' = modelList this
  ∧ ∀ cols0,
      _afterColumnsChange realise newVal (set_columns cols0 this) h
      = Some (h', this').
Proof.
  unfold _afterColumnsChange. intros Hrun.
  destruct (_parseColumns newVal None h) as [[h1 cols]|]; [|done].
  cbn [mbind option_bind] in *.
  destruct (render_columns _ _ _ _ _ Hrun) as [Hc Hm]. simpl in Hc, Hm.
  split; [exists h1; by rewrite Hc|]. split; [done|].
  intros cols0. exact Hrun.
Qed.

Lemma columnsChange_replaces_columns_witness :
  ∃ h' this',
    _afterColumnsChange one_cell (Array [ConfObject 1 Falsy])
      (with_container (a_view [0; 1] (Some [Ann; Bo]))) name_age
    = Some (h', this')
    ∧ columns this' = [1].
Proof.
  destruct (_afterColumnsChange one_cell (Array [ConfObject 1 Falsy])
              (with_container (a_view [0; 1] (Some [Ann; Bo]))) name_age)
    as [[h' this']|] eqn:E; [|vm_compute in E; discriminate E].
  destruct (columnsChange_replaces_columns _ _ _ _ _ _ E) as [(h1 & Hp) _].
  exists h', this'. split; [reflexivity|].
  vm_compute in Hp. injection Hp as _ Hp. symmetry. exact Hp.
Defined.

(** X18.  The class names follow the prefix the initializer settles on:
    the [cssPrefix] of the configuration if it is a non-empty string, else
    that of the source, else yui3-table.  Every row gets that prefix with
    even or odd behind it, by its position, and getClassName puts it before
    its token. *)
Theorem initializer_prefix_and_row_classes cfg h h1 this1 :
  initializer cfg h = Some (h1, this1) →
  _cssPrefix this1 = chosen_prefix cfg
  ∧ (∀ index, row_class this1 index
       = chosen_prefix cfg
         +:+ (if (index mod 2 =? 0)%nat then "-even" else "-odd"))
  ∧ ∀ token, getClassName this1 [Some token] = chosen_prefix cfg +:+ "-" +:+ token.
Proof.
  unfold initializer. intros Hrun.
  destruct (_parseColumns (cfg_columns cfg) None h) as [[h2 cols]|]; [|done].
  cbn [mbind option_bind] in Hrun. injection Hrun as <- <-.
  assert (Hp : (if prop_truthy (prop_or (cfg_cssPrefix cfg)
                                   (default None (cfg_source cfg)))
                then prop_name (prop_or (cfg_cssPrefix cfg)
                                  (default None (cfg_source cfg)))
                else "yui3-table") = chosen_prefix cfg).
  { unfold chosen_prefix, prop_or.
    destruct (cfg_cssPrefix cfg) as [[|c p]|]; cbn;
      destruct (cfg_source cfg) as [[[|c' p']|]|]; done. }
  unfold row_class, getClassName. cbn [_cssPrefix CLASS_ODD CLASS_EVEN].
  rewrite Hp. split; [done|]. split.
  - intros index. destruct (index mod 2 =? 0)%nat; reflexivity.
  - intros token. reflexivity.
Qed.

Lemma initializer_prefix_and_row_classes_witness :
  ∃ h1 this1,
    initializer parent_config parent_store = Some (h1, this1)
    ∧ _cssPrefix this1 = "yui3-table"
    ∧ row_class this1 3 = "yui3-table-odd".
Proof.
  destruct (initializer parent_config parent_store) as [[h1 this1]|] eqn:E;
    [|vm_compute in E; discriminate E].
  destruct (initializer_prefix_and_row_classes _ _ _ _ E) as (Hp & Hrow & _).
  exists h1, this1. split; [reflexivity|]. split; [exact Hp|exact (Hrow 3)].
Defined.

(** ** getCell and getRow *)

Lemma at_index_is_Some {A} (l : list A) i :
  is_Some (at_index l i) ↔ (0 ≤ i < Z.of_nat (List.length l))%Z.
Proof.
  unfold at_index. destruct (Z.leb_spec 0 i) as [Hi|Hi].
  - rewrite lookup_lt_is_Some. lia.
  - split; [by intros [? ?]|lia].
Qed.

(** X19.  getCell hands out the Node of a cell exactly when there is a
    container and both numbers are positions of a row and of a cell in it;
    for a negative or too large number, or without a container, it gives
    null and leaves the view as it is.  It never changes the rows or the
    markup; the Node it hands out is kept in the cache. *)
Theorem getCell_in_range this row col :
  (is_Some (getCell this row col).1
   ↔ ∃ tb cells, container this = Some tb
       ∧ (0 ≤ row)%Z ∧ rows tb !! Z.to_nat row = Some cells
       ∧ (0 ≤ col < Z.of_nat (List.length cells))%Z)
  ∧ ((getCell this row col).1 = None → (getCell this row col).2 = this)
  ∧ ∀ tb, container this = Some tb →
      ∃ tb', container (getCell this row col).2 = Some tb'
        ∧ rows tb' = rows tb ∧ content tb' = content tb
        ∧ ∀ e, e ∈ instances tb'
               ↔ (getCell this row col).1 = Some e ∨ e ∈ instances tb.
Proof.
  unfold getCell. destruct (container this) as [tb|] eqn:Hc.
  - destruct (at_index (rows tb) row) as [cells|] eqn:Hrow; cbn [mbind option_bind].
    + assert (Hr : (0 ≤ row)%Z ∧ rows tb !! Z.to_nat row = Some cells).
      { unfold at_index in Hrow. by destruct (Z.leb_spec 0 row). }
      destruct (at_index cells col) as [cell|] eqn:Hcol; cbn [fst snd].
      * split; [|split].
        -- split; [|by eexists]. intros _. exists tb, cells.
           split; [done|]. split; [apply Hr|]. split; [apply Hr|].
           apply at_index_is_Some. by rewrite Hcol.
        -- done.
        -- intros tb0 [= <-]. eexists. split; [done|].
           rewrite rows_Y_one, content_Y_one. split; [done|]. split; [done|].
           intros e. rewrite elem_of_Y_one. naive_solver.
      * split; [|split].
        -- split; [by intros [? ?]|].
           intros (tb0 & cells0 & [= <-] & _ & Hcells & Hcol0).
           destruct Hr as [_ Hr]. rewrite Hr in Hcells. injection Hcells as <-.
           apply at_index_is_Some in Hcol0. rewrite Hcol in Hcol0.
           by destruct Hcol0.
        -- done.
        -- intros tb0 [= <-]. exists tb. rewrite Hc. naive_solver.
    + cbn [fst snd]. split; [|split].
      * split; [by intros [? ?]|].
        intros (tb0 & cells0 & [= <-] & Hrow0 & Hcells & _).
        unfold at_index in Hrow.
        rewrite (proj2 (Z.leb_le 0 row) Hrow0) in Hrow.
        unfold tbodyNode in *. by rewrite Hrow in Hcells.
      * done.
      * intros tb0 [= <-]. exists tb. rewrite Hc. naive_solver.
  - cbn [fst snd]. split; [|split].
    + split; [by intros [? ?]|]. by intros (tb0 & cells0 & ? & _).
    + done.
    + by intros tb0 ?.
Qed.

(** X20.  getRow hands out the Node of a row exactly when there is a
    container and the number is the position of a row; the row is the one
    at that position; and where getCell finds a cell, getRow finds its
    row. *)
Theorem getRow_in_range this index :
  (is_Some (getRow this index)
   ↔ ∃ tb, container this = Some tb
       ∧ (0 ≤ index < Z.of_nat (List.length (rows tb)))%Z)
  ∧ (∀ n, getRow this index = Some n → Z.of_nat n = index)
  ∧ ∀ col, is_Some (getCell this index col).1 → is_Some (getRow this index).
Proof.
  unfold getRow, getCell. destruct (container this) as [tb|];
    cbn [mbind option_bind].
  - pose proof (at_index_is_Some (rows tb) index) as Hrow.
    destruct (at_index (rows tb) index) as [cells|] eqn:Hi;
      cbn [mbind option_bind fst].
    + split; [|split].
      * split; [|by eexists]. intros _. exists tb. split; [done|].
        apply Hrow. by eexists.
      * intros n [= <-]. apply Z2Nat.id. apply Hrow. by eexists.
      * intros col _. by eexists.
    + split; [|split].
      * split; [by intros [? ?]|]. intros (tb0 & [= <-] & Hlt).
        by apply Hrow in Hlt.
      * done.
      * intros col [? ?]. done.
  - split; [|split].
    + split; [by intros [? ?]|]. by intros (tb0 & ? & _).
    + done.
    + intros col [? ?]. done.
Qed.

(** ** The scenarios of the specification *)

(** Two records, the second without an age: the first row is even, the
    second odd and shows the emptyCellValue, its slash escaped. *)
Example scenario_name_age :
  ∃ h' this',
    _createRowTemplate (a_view [0; 1] (Some [Ann; Bo])) [0; 1] name_age
    = Some (h', this')
    ∧ _createDataHTML this' h'
      = Some ("<tr id=" +:+ q +:+ "{clientId}" +:+ q +:+ " class=" +:+ q
              +:+ "yui3-table-even" +:+ q +:+ ">"
              +:+ "<td headers=" +:+ q +:+ q +:+ " class=" +:+ q
              +:+ "yui3-table-name " +:+ q +:+ ">Ann</td>"
              +:+ "<td headers=" +:+ q +:+ q +:+ " class=" +:+ q
              +:+ "yui3-table-age " +:+ q +:+ ">30</td></tr>"
              +:+ "<tr id=" +:+ q +:+ "{clientId}" +:+ q +:+ " class=" +:+ q
              +:+ "yui3-table-odd" +:+ q +:+ ">"
              +:+ "<td headers=" +:+ q +:+ q +:+ " class=" +:+ q
              +:+ "yui3-table-name " +:+ q +:+ ">Bo</td>"
              +:+ "<td headers=" +:+ q +:+ q +:+ " class=" +:+ q
              +:+ "yui3-table-age " +:+ q +:+ ">N&#x2F;A</td></tr>").
Proof. eexists _, _. split; [reflexivity|]. vm_compute. reflexivity. Qed.

(** Two columns with the key x: the tokens are x and x1, each with one
    placeholder for its content. *)
Example scenario_repeated_key :
  ∃ h' this' t,
    _createRowTemplate (a_view [0; 1] None) [0; 1]
      {[ 0 := key_column "x"; 1 := key_column "x" ]} = Some (h', this')
    ∧ renderTokens h' [0; 1] = [Some (Some "x"); Some (Some "x1")]
    ∧ _rowTemplate this' = Some t
    ∧ placeholders t
      = ["clientId"; "rowClasses"; "x-classes"; "x"; "x1-classes"; "x1"].
Proof.
  eexists _, _, _. split; [reflexivity|]. split; [reflexivity|].
  split; [reflexivity|]. vm_compute. reflexivity.
Qed.

(** The keys x, x and x1: the second cell is filled with the value of the
    third column. *)
Example scenario_clash_row :
  ∃ h' this',
    _createRowTemplate (a_view [0; 1; 2] None) [0; 1; 2] x_x_x1
    = Some (h', this')
    ∧ _createRowHTML this' h'
        (a_model {[ "x" := JStr "first"; "x1" := JStr "third" ]}) 0
      = Some ("<tr id=" +:+ q +:+ "{clientId}" +:+ q +:+ " class=" +:+ q
              +:+ "yui3-table-even" +:+ q +:+ ">"
              +:+ "<td headers=" +:+ q +:+ q +:+ " class=" +:+ q
              +:+ "yui3-table-x " +:+ q +:+ ">first</td>"
              +:+ "<td headers=" +:+ q +:+ q +:+ " class=" +:+ q
              +:+ "yui3-table-x " +:+ q +:+ ">third</td>"
              +:+ "<td headers=" +:+ q +:+ q +:+ " class=" +:+ q
              +:+ "yui3-table-x1 " +:+ q +:+ ">third</td></tr>").
Proof. eexists _, _. split; [reflexivity|]. vm_compute. reflexivity. Qed.

(** The whole of render for a column with a node formatter that returns
    false: the markup is written, the formatter fills the cell, and the
    Node of the cell is not kept. *)
Example scenario_render_nodeFormatter :
  ∃ h' this' t,
    render one_cell
      (with_container (a_view [0] (Some [a_model {[ "a" := JStr "Ann" ]}])))
      {[ 0 := nodeFormatter_column "a" (writing (JBool false)) ]}
    = Some (h', this')
    ∧ container this' = Some t
    ∧ content t
      = "<tr id=" +:+ q +:+ "{clientId}" +:+ q +:+ " class=" +:+ q
        +:+ "yui3-table-even" +:+ q +:+ ">" +:+ deferred_cell [] +:+ "</tr>"
    ∧ rows t = [[ {| td_html := "Ann"; td_liner := false |} ]]
    ∧ instances t = []
    ∧ dataChange (_eventHandles this') = true.
Proof.
  eexists _, _, _. split; [reflexivity|]. split; [reflexivity|].
  split; [vm_compute; reflexivity|]. split; [reflexivity|].
  split; reflexivity.
Qed.

(** From the constructor to the markup: the nested configuration is
    flattened to two columns, and render writes one row with their cells. *)
Example scenario_initializer_render :
  ∃ h1 this1 h2 this2 t,
    initializer parent_config parent_store = Some (h1, this1)
    ∧ columns this1 = [1; 2]
    ∧ CLASS_EVEN this1 = "yui3-table-even"
    ∧ render one_cell this1 h1 = Some (h2, this2)
    ∧ container this2 = Some t
    ∧ content t
      = "<tr id=" +:+ q +:+ "{clientId}" +:+ q +:+ " class=" +:+ q
        +:+ "yui3-table-even" +:+ q +:+ ">"
        +:+ "<td headers=" +:+ q +:+ q +:+ " class=" +:+ q
        +:+ "yui3-table-a " +:+ q +:+ ">1</td>"
        +:+ "<td headers=" +:+ q +:+ q +:+ " class=" +:+ q
        +:+ "yui3-table-b " +:+ q +:+ ">2</td></tr>".
Proof.
  eexists _, _, _, _, _. split; [reflexivity|]. split; [reflexivity|].
  split; [reflexivity|]. split; [reflexivity|]. split; [reflexivity|].
  vm_compute. reflexivity.
Qed.

(** A key given as a string is made into a column without headers
    (line 671), and _createRowTemplate reads [col.headers.join] of every
    column: render throws for such a column unless its headers are set in
    between. *)
Example scenario_string_column :
  ∃ h1 this1,
    initializer string_config ∅ = Some (h1, this1)
    ∧ List.length (columns this1) = 1
    ∧ render one_cell this1 h1 = None.
Proof. eexists _, _. split; [reflexivity|]. split; reflexivity. Qed.
